(** * dax: the strax formatter of the readout host

    A shallow embedding of [StraxFormatter] (src/StraxFormatter.cc and
    src/StraxFormatter.hh): the decoding of a digitizer event into
    fixed-size fragments, the artificial-deadtime fragment, the routing of
    a fragment into its time chunk, and the error bit polled by the
    controller; and of the members of [DAQController] (src/V1724.hh) that
    work on the formatters and on the packets read from the boards: the
    reports of buffer size, bytes per channel and board failures, and the
    readout buffer between the read loop and the processing threads.

    Conventions.
    - A C++ integer is a [Z]; conversions to a narrower or unsigned type are
      written out with [to_unsigned] and [to_signed].  Signed overflow is
      undefined in C++: a signed value that is only added, multiplied or
      shifted is kept exact and wrapped where it is stored, divided or
      compared.
    - A [std::string] of raw bytes is a [list Z] of 8-bit values, and
      [fragment.append((char* )&x, sizeof(x))] on the little-endian host is
      [bytes_of (sizeof x) x].
    - A [uint32_t*] into the readout buffer is the list of the words from
      the pointer to the end of the buffer; reading past it is an
      [OutOfBounds] error.
    - A [std::map] is a [gmap]; [m[k]] on an absent key of a
      [std::map<_, int>] reads [0].
    - Calls to the log and to the wall clock change nothing that is modelled
      and are left out. *)

From Stdlib Require Import ZArith List Lia Ascii.
From stdpp Require Import base option list list_numbers gmap strings pretty.

Local Open Scope Z_scope.

(** ** Machine integers *)

Definition to_unsigned (w z : Z) : Z := z `mod` 2 ^ w.

Definition to_signed (w z : Z) : Z :=
  (z + 2 ^ (w - 1)) `mod` 2 ^ w - 2 ^ (w - 1).

(** [append((char* )&x, n)]: the [n] bytes of [x], least significant first. *)
Definition bytes_of (n x : Z) : list Z := Z_to_little_endian n 8 x.

(** The value a little-endian field holds, read back as unsigned. *)
Definition field (off len : nat) (fragment : list Z) : Z :=
  little_endian_to_Z 8 (take len (drop off fragment)).

(** The byte view of a word buffer ([reinterpret_cast] of [uint32_t*]). *)
Definition words_bytes (buff : list Z) : list Z :=
  flat_map (bytes_of 4) buff.

(** [std::bitset<max_channels>(m).count()] *)
Definition popcount16 (m : Z) : Z :=
  Z.of_nat (length (filter (λ i, Z.testbit m (Z.of_nat i) = true) (seq 0 16))).

(** ** Outcomes of a call *)

Inductive error : Type :=
  | OutOfBounds        (* read outside the buffer *)
  | DivisionByZero
  | OutOfFuel.         (* the loop did not end within the fuel given *)

Inductive result (A : Type) : Type :=
  | Ok (a : A)
  | Err (e : error).
Arguments Ok {A} a.
Arguments Err {A} e.

#[global] Instance result_ret : MRet result := λ A a, Ok a.
#[global] Instance result_bind : MBind result := λ A B f r,
  match r with
  | Ok a => f a
  | Err e => Err e
  end.

(** How a call that decodes ends: with a value, or with the
    [std::runtime_error] it throws, which unwinds to the worker's thread
    function and ends the worker. *)
Inductive completion : Type :=
  | Return (value : Z)
  | Throw.

(** [buff[i]] for a [uint32_t* buff] *)
Definition read (buff : list Z) (i : Z) : result Z :=
  if i <? 0 then Err OutOfBounds
  else match buff !! Z.to_nat i with
       | Some w => Ok (to_unsigned 32 w)
       | None => Err OutOfBounds
       end.

(** [append(p + off, len)] for a [char* p] over [mem] *)
Definition read_bytes (mem : list Z) (off len : Z) : result (list Z) :=
  if (0 <=? off) && (0 <=? len) && (off + len <=? Z.of_nat (length mem))
  then Ok (take (Z.to_nat len) (drop (Z.to_nat off) mem))
  else Err OutOfBounds.

(** [m[k]] on a [std::map<std::string, int>] *)
Definition at_key (m : gmap string Z) (k : string) : Z := default 0 (m !! k).

(** ** The formatter object *)

(** What the formatter uses of the controller: the boards flagged for an
    error check, and the data format of each board ([GetDataFormat]). *)
Record DAQController : Type := {
  fCheckFails : gmap Z bool;
  DataFormatDefinition : gmap Z (gmap string Z)
}.

(** What the formatter uses of the options: [GetInt(key, default)] and the
    channel map [GetChannel(bid, channel)]. *)
Record Options : Type := {
  GetInt : string → Z → Z;
  GetChannel : Z → Z → Z
}.

Record StraxFormatter : Type := {
  fChunkLength : Z;
  fChunkOverlap : Z;
  fFullChunkLength : Z;
  fChunkNameLength : nat;
  fFragmentBytes : Z;
  fStraxHeaderSize : Z;
  fOptions : Options;
  fDataSource : DAQController;
  fErrorBit : bool;
  fFragmentSize : Z;
  fFmt : gmap Z (gmap string Z);
  fFailCounter : gmap Z Z;
  fDataPerChan : gmap Z Z;
  fFragmentsProcessed : Z;
  fEventsProcessed : Z;
  fFragments : gmap string (list Z);
  fTempBuffer : list (list Z)
}.

Definition set_fDataSource (v : DAQController) (s : StraxFormatter) :=
  {| fChunkLength := fChunkLength s; fChunkOverlap := fChunkOverlap s;
     fFullChunkLength := fFullChunkLength s;
     fChunkNameLength := fChunkNameLength s;
     fFragmentBytes := fFragmentBytes s;
     fStraxHeaderSize := fStraxHeaderSize s; fOptions := fOptions s;
     fDataSource := v; fErrorBit := fErrorBit s;
     fFragmentSize := fFragmentSize s; fFmt := fFmt s;
     fFailCounter := fFailCounter s; fDataPerChan := fDataPerChan s;
     fFragmentsProcessed := fFragmentsProcessed s;
     fEventsProcessed := fEventsProcessed s; fFragments := fFragments s;
     fTempBuffer := fTempBuffer s |}.

Definition set_fErrorBit (v : bool) (s : StraxFormatter) :=
  {| fChunkLength := fChunkLength s; fChunkOverlap := fChunkOverlap s;
     fFullChunkLength := fFullChunkLength s;
     fChunkNameLength := fChunkNameLength s;
     fFragmentBytes := fFragmentBytes s;
     fStraxHeaderSize := fStraxHeaderSize s; fOptions := fOptions s;
     fDataSource := fDataSource s; fErrorBit := v;
     fFragmentSize := fFragmentSize s; fFmt := fFmt s;
     fFailCounter := fFailCounter s; fDataPerChan := fDataPerChan s;
     fFragmentsProcessed := fFragmentsProcessed s;
     fEventsProcessed := fEventsProcessed s; fFragments := fFragments s;
     fTempBuffer := fTempBuffer s |}.

Definition set_fFragmentSize (v : Z) (s : StraxFormatter) :=
  {| fChunkLength := fChunkLength s; fChunkOverlap := fChunkOverlap s;
     fFullChunkLength := fFullChunkLength s;
     fChunkNameLength := fChunkNameLength s;
     fFragmentBytes := fFragmentBytes s;
     fStraxHeaderSize := fStraxHeaderSize s; fOptions := fOptions s;
     fDataSource := fDataSource s; fErrorBit := fErrorBit s;
     fFragmentSize := v; fFmt := fFmt s;
     fFailCounter := fFailCounter s; fDataPerChan := fDataPerChan s;
     fFragmentsProcessed := fFragmentsProcessed s;
     fEventsProcessed := fEventsProcessed s; fFragments := fFragments s;
     fTempBuffer := fTempBuffer s |}.

Definition set_fFailCounter (v : gmap Z Z) (s : StraxFormatter) :=
  {| fChunkLength := fChunkLength s; fChunkOverlap := fChunkOverlap s;
     fFullChunkLength := fFullChunkLength s;
     fChunkNameLength := fChunkNameLength s;
     fFragmentBytes := fFragmentBytes s;
     fStraxHeaderSize := fStraxHeaderSize s; fOptions := fOptions s;
     fDataSource := fDataSource s; fErrorBit := fErrorBit s;
     fFragmentSize := fFragmentSize s; fFmt := fFmt s;
     fFailCounter := v; fDataPerChan := fDataPerChan s;
     fFragmentsProcessed := fFragmentsProcessed s;
     fEventsProcessed := fEventsProcessed s; fFragments := fFragments s;
     fTempBuffer := fTempBuffer s |}.

Definition set_fDataPerChan (v : gmap Z Z) (s : StraxFormatter) :=
  {| fChunkLength := fChunkLength s; fChunkOverlap := fChunkOverlap s;
     fFullChunkLength := fFullChunkLength s;
     fChunkNameLength := fChunkNameLength s;
     fFragmentBytes := fFragmentBytes s;
     fStraxHeaderSize := fStraxHeaderSize s; fOptions := fOptions s;
     fDataSource := fDataSource s; fErrorBit := fErrorBit s;
     fFragmentSize := fFragmentSize s; fFmt := fFmt s;
     fFailCounter := fFailCounter s; fDataPerChan := v;
     fFragmentsProcessed := fFragmentsProcessed s;
     fEventsProcessed := fEventsProcessed s; fFragments := fFragments s;
     fTempBuffer := fTempBuffer s |}.

Definition set_fFragmentsProcessed (v : Z) (s : StraxFormatter) :=
  {| fChunkLength := fChunkLength s; fChunkOverlap := fChunkOverlap s;
     fFullChunkLength := fFullChunkLength s;
     fChunkNameLength := fChunkNameLength s;
     fFragmentBytes := fFragmentBytes s;
     fStraxHeaderSize := fStraxHeaderSize s; fOptions := fOptions s;
     fDataSource := fDataSource s; fErrorBit := fErrorBit s;
     fFragmentSize := fFragmentSize s; fFmt := fFmt s;
     fFailCounter := fFailCounter s; fDataPerChan := fDataPerChan s;
     fFragmentsProcessed := v;
     fEventsProcessed := fEventsProcessed s; fFragments := fFragments s;
     fTempBuffer := fTempBuffer s |}.

Definition set_fEventsProcessed (v : Z) (s : StraxFormatter) :=
  {| fChunkLength := fChunkLength s; fChunkOverlap := fChunkOverlap s;
     fFullChunkLength := fFullChunkLength s;
     fChunkNameLength := fChunkNameLength s;
     fFragmentBytes := fFragmentBytes s;
     fStraxHeaderSize := fStraxHeaderSize s; fOptions := fOptions s;
     fDataSource := fDataSource s; fErrorBit := fErrorBit s;
     fFragmentSize := fFragmentSize s; fFmt := fFmt s;
     fFailCounter := fFailCounter s; fDataPerChan := fDataPerChan s;
     fFragmentsProcessed := fFragmentsProcessed s;
     fEventsProcessed := v; fFragments := fFragments s;
     fTempBuffer := fTempBuffer s |}.

Definition set_fFragments (v : gmap string (list Z)) (s : StraxFormatter) :=
  {| fChunkLength := fChunkLength s; fChunkOverlap := fChunkOverlap s;
     fFullChunkLength := fFullChunkLength s;
     fChunkNameLength := fChunkNameLength s;
     fFragmentBytes := fFragmentBytes s;
     fStraxHeaderSize := fStraxHeaderSize s; fOptions := fOptions s;
     fDataSource := fDataSource s; fErrorBit := fErrorBit s;
     fFragmentSize := fFragmentSize s; fFmt := fFmt s;
     fFailCounter := fFailCounter s; fDataPerChan := fDataPerChan s;
     fFragmentsProcessed := fFragmentsProcessed s;
     fEventsProcessed := fEventsProcessed s; fFragments := v;
     fTempBuffer := fTempBuffer s |}.

Definition set_fTempBuffer (v : list (list Z)) (s : StraxFormatter) :=
  {| fChunkLength := fChunkLength s; fChunkOverlap := fChunkOverlap s;
     fFullChunkLength := fFullChunkLength s;
     fChunkNameLength := fChunkNameLength s;
     fFragmentBytes := fFragmentBytes s;
     fStraxHeaderSize := fStraxHeaderSize s; fOptions := fOptions s;
     fDataSource := fDataSource s; fErrorBit := fErrorBit s;
     fFragmentSize := fFragmentSize s; fFmt := fFmt s;
     fFailCounter := fFailCounter s; fDataPerChan := fDataPerChan s;
     fFragmentsProcessed := fFragmentsProcessed s;
     fEventsProcessed := fEventsProcessed s; fFragments := fFragments s;
     fTempBuffer := v |}.

(** [StraxFormatter::StraxFormatter()] followed by [Initialize], which reads
    the payload size from the options and the data formats of the boards
    from the controller. *)
Definition Initialize (options : Options) (dataSource : DAQController)
    : StraxFormatter :=
  {| fChunkLength := 0x7fffffff; fChunkOverlap := 0x2FAF080;
     fFullChunkLength := 0x7fffffff + 0x2FAF080;
     fChunkNameLength := 6;
     fFragmentBytes := GetInt options "strax_fragment_payload_bytes" (110 * 2);
     fStraxHeaderSize := 24; fOptions := options;
     fDataSource := dataSource; fErrorBit := false;
     fFragmentSize := 0; fFmt := DataFormatDefinition dataSource;
     fFailCounter := ∅; fDataPerChan := ∅;
     fFragmentsProcessed := 0;
     fEventsProcessed := 0; fFragments := ∅;
     fTempBuffer := [] |}.

(** [bool CheckError()] of StraxFormatter.hh *)
Definition CheckError (s : StraxFormatter) : bool * StraxFormatter :=
  let ret := fErrorBit s in
  (ret, set_fErrorBit false s).

(** [void DAQController::CheckError(int bid)] *)
Definition DAQController_CheckError (bid : Z) (c : DAQController) :=
  {| fCheckFails := <[bid := true]> (fCheckFails c);
     DataFormatDefinition := DataFormatDefinition c |}.

(** [bool DAQController::CheckErrors()]: poll the formatter of each
    processing thread (its [inserter]) in order and stop at the first one
    that reports an error. *)
Fixpoint CheckErrors (fProcessingThreads : list StraxFormatter)
    : bool * list StraxFormatter :=
  match fProcessingThreads with
  | [] => (false, [])
  | inserter :: rest =>
      let '(e, inserter') := CheckError inserter in
      if e then (true, inserter' :: rest)
      else let '(r, rest') := CheckErrors rest in (r, inserter' :: rest')
  end.

(** The processing threads whose error bit is set. *)
Definition pending (threads : list StraxFormatter) : nat :=
  length (filter (λ t, fErrorBit t = true) threads).

(** ** Chunk routing *)

Fixpoint zeros (n : nat) : string :=
  match n with
  | O => EmptyString
  | S n' => String "0"%char (zeros n')
  end.

(** Modelled from the spec: [GetStringFormat] is declared in the headers but
    its body is not among the sources.  The chunk id is rendered as a
    zero-padded decimal string of width [chunk_name_length]. *)
Definition GetStringFormat (s : StraxFormatter) (id : Z) : string :=
  let digits := pretty id in
  zeros (fChunkNameLength s - String.length digits) +:+ digits.

(** [int chunk_id = timestamp/fFullChunkLength] *)
Definition chunk_id_of (s : StraxFormatter) (timestamp : Z) : Z :=
  to_signed 32 (timestamp `quot` fFullChunkLength s).

(** [bool nextpre = (chunk_id+1)* fFullChunkLength - timestamp <= fChunkOverlap] *)
Definition nextpre_of (s : StraxFormatter) (timestamp : Z) : bool :=
  to_signed 64 (to_signed 32 (chunk_id_of s timestamp + 1) * fFullChunkLength s
                - timestamp) <=? fChunkOverlap s.

(** [if (fFragments.count(k) == 0) fFragments[k] = new std::string();
     fFragments[k]->append(fragment)] *)
Definition append_to (k : string) (fragment : list Z)
    (m : gmap string (list Z)) : gmap string (list Z) :=
  <[k := default [] (m !! k) ++ fragment]> m.

(** [void AddFragmentToBuffer(std::string& fragment, int64_t timestamp)].
    The smallest and largest buffered chunk ids are computed for two log
    messages only. *)
Definition AddFragmentToBuffer (fragment : list Z) (timestamp : Z)
    (s : StraxFormatter) : result StraxFormatter :=
  if fFullChunkLength s =? 0 then Err DivisionByZero else
  let chunk_id := chunk_id_of s timestamp in
  let nextpre := nextpre_of s timestamp in
  let chunk_index := GetStringFormat s chunk_id in
  let s := set_fFragmentSize
             (fFragmentSize s + Z.of_nat (length fragment)) s in
  if negb nextpre then
    Ok (set_fFragments (append_to chunk_index fragment (fFragments s)) s)
  else
    let nextchunk_index := GetStringFormat s (to_signed 32 (chunk_id + 1)) in
    Ok (set_fFragments
          (append_to (chunk_index +:+ "_post") fragment
             (append_to (nextchunk_index +:+ "_pre") fragment
                (fFragments s))) s).

(** The keys of [fFragments] that [AddFragmentToBuffer] appends to, in the
    order of the appends. *)
Definition chunk_keys (s : StraxFormatter) (timestamp : Z) : list string :=
  let chunk_id := chunk_id_of s timestamp in
  if nextpre_of s timestamp
  then [GetStringFormat s (to_signed 32 (chunk_id + 1)) +:+ "_pre";
        GetStringFormat s chunk_id +:+ "_post"]
  else [GetStringFormat s chunk_id].

(** ** Fragments *)

(** [while ((int)fragment.size() < target) fragment.append(filler)] *)
Fixpoint fill_loop (fuel : nat) (target : Z) (filler fragment : list Z)
    : list Z :=
  match fuel with
  | O => fragment
  | S fuel' =>
      if to_signed 32 (Z.of_nat (length fragment)) <? target
      then fill_loop fuel' target filler (fragment ++ filler)
      else fragment
  end.

(** The loop gains at least a byte a turn, so [target - size] turns are
    enough (lemma [fill_loop_exit]). *)
Definition zero_fill (target : Z) (filler fragment : list Z) : list Z :=
  fill_loop (Z.to_nat (target - Z.of_nat (length fragment)))
            target filler fragment.

(** The fragment [GenerateArtificialDeadtime] builds. *)
Definition deadtime_fragment (s : StraxFormatter) (timestamp bid : Z)
    : list Z :=
  let length := to_signed 32 (Z.shiftr (fFragmentBytes s) 1) in
  let sw := 10 in
  let channel := 790 in
  let fragment_i := 0 in
  let baseline := 0 in
  zero_fill (to_signed 32 (fFragmentBytes s + fStraxHeaderSize s)) [0]
    (bytes_of 8 timestamp ++ bytes_of 4 length ++ bytes_of 2 sw
     ++ bytes_of 2 channel ++ bytes_of 4 length ++ bytes_of 2 fragment_i
     ++ bytes_of 2 baseline ++ bytes_of 2 bid).

(** [void GenerateArtificialDeadtime(int64_t timestamp, int16_t bid)] *)
Definition GenerateArtificialDeadtime (timestamp bid : Z)
    (s : StraxFormatter) : result StraxFormatter :=
  AddFragmentToBuffer (deadtime_fragment s timestamp bid) timestamp s.

(** ** Decoding a channel *)

(** What the head of [ProcessChannel] works out before any data is
    looked at. *)
Record ChannelHead : Type := {
  channel_words : Z;
  channel_time : Z;
  channel_timeMSB : Z;
  baseline_ch : Z;
  local_clock_counter : Z
}.

(** The clock rollover reconciliation of a channel with at most two header
    words.  The thresholds [15e8] and [5e8] are doubles that hold integers;
    the times compared with them are below [2^32]. *)
Definition reconcile_rollover (channel_time header_time clock_counter : Z)
    : Z :=
  if (1500000000 <? channel_time) && (header_time <? 500000000)
     && negb (clock_counter =? 0)
  then clock_counter - 1
  else if (channel_time <? 500000000) && (1500000000 <? header_time)
  then clock_counter + 1
  else clock_counter.

(** Lines 211-254 of [ProcessChannel]: [None] is the early [return -1]. *)
Definition channel_head (fmt : gmap string Z) (buff : list Z)
    (words_in_event header_time event_time clock_counter channel_mask : Z)
    : result (option ChannelHead) :=
  let channels_in_event := popcount16 channel_mask in
  if channels_in_event =? 0 then Err DivisionByZero else
  let channel_words :=
    to_unsigned 32 (words_in_event - 4) `div` channels_in_event in
  let channel_time := Z.shiftl clock_counter 31 + event_time in
  if 0 <? at_key fmt "channel_header_words" then
    b0 ← read buff 0;
    let channel_words := Z.min (Z.land b0 0x7FFFFF) words_in_event in
    if channel_words <? Z.land b0 0x7FFFFF then Ok None
    else if to_signed 32 channel_words <=? at_key fmt "channel_header_words"
    then Ok None
    else
      b1 ← read buff 1;
      let channel_time := Z.land b1 0x7FFFFFFF in
      msb ← (if at_key fmt "channel_time_msb_idx" =? 2 then
               b2 ← read buff 2;
               Ok (Z.shiftl (Z.land b2 0xFFFF) 32,
                   Z.land (Z.shiftr b2 16) 0x3FFF)
             else Ok (0, 0));
      let '(channel_timeMSB, baseline_ch) := msb in
      if at_key fmt "channel_header_words" <=? 2 then
        let clock_counter :=
          reconcile_rollover channel_time header_time clock_counter in
        Ok (Some {| channel_words := channel_words;
                    channel_time := channel_time;
                    channel_timeMSB := Z.shiftl clock_counter 31;
                    baseline_ch := baseline_ch;
                    local_clock_counter := clock_counter |})
      else
        Ok (Some {| channel_words := channel_words;
                    channel_time := channel_time;
                    channel_timeMSB := channel_timeMSB;
                    baseline_ch := baseline_ch;
                    local_clock_counter := clock_counter |})
  else
    Ok (Some {| channel_words := channel_words;
                channel_time := channel_time;
                channel_timeMSB := 0;
                baseline_ch := 0;
                local_clock_counter := clock_counter |}).

(** [int64_t Time64 = fmt["ns_per_clk"]*(channel_timeMSB + channel_time)] *)
Definition Time64_of (fmt : gmap string Z) (h : ChannelHead) : Z :=
  to_signed 64
    (at_key fmt "ns_per_clk" * (channel_timeMSB h + channel_time h)).

(** The scan for a word that looks like an event header, from word [w] on
    for [n] words: [Ok true] at the first one found. *)
Fixpoint caen_scan (buff : list Z) (w : Z) (n : nat) : result bool :=
  match n with
  | O => Ok false
  | S n' =>
      x ← read buff w;
      if Z.shiftr x 28 =? 0xA then Ok true else caen_scan buff (w + 1) n'
  end.

(** [reinterpret_cast<u_int16_t*>(buff + channel_header_words)], as bytes *)
Definition payload_of (buff : list Z) (header_words : Z) : list Z :=
  if header_words <? 0 then []
  else words_bytes (drop (Z.to_nat header_words) buff).

(** What the fragment loop of [ProcessChannel] reads but does not change. *)
Record Pulse : Type := {
  payload : list Z;
  Time64 : Z;
  samples_in_pulse : Z;
  sw : Z;
  fragment_samples : Z;
  cl : Z;
  baseline : Z;
  num_frags : Z
}.

(** [u_int32_t samples_this_fragment] of turn [frag_i] *)
Definition samples_this_fragment (p : Pulse) (frag_i : Z) : Z :=
  if frag_i =? num_frags p - 1
  then to_unsigned 32 (samples_in_pulse p - frag_i * fragment_samples p)
  else to_unsigned 32 (fragment_samples p).

(** The 24 bytes in front of the samples. *)
Definition fragment_header (p : Pulse) (frag_i : Z) : list Z :=
  let time_this_fragment :=
    Time64 p + fragment_samples p * sw p * frag_i in
  bytes_of 8 time_this_fragment
  ++ bytes_of 4 (samples_this_fragment p frag_i)
  ++ bytes_of 2 (sw p) ++ bytes_of 2 (cl p)
  ++ bytes_of 4 (samples_in_pulse p)
  ++ bytes_of 2 frag_i ++ bytes_of 2 (baseline p).

(** One turn of the fragment loop: the fragment it puts together. *)
Definition build_fragment (s : StraxFormatter) (p : Pulse) (frag_i : Z)
    : result (list Z) :=
  data ← read_bytes (payload p) (2 * (frag_i * fragment_samples p))
           (to_unsigned 32 (samples_this_fragment p frag_i * 2));
  Ok (zero_fill (to_signed 32 (fFragmentBytes s + fStraxHeaderSize s)) [0; 0]
        (fragment_header p frag_i ++ data)).

(** [for (uint16_t frag_i = 0; frag_i < num_frags; frag_i++)] *)
Fixpoint fragment_loop (fuel : nat) (p : Pulse) (frag_i : Z)
    (s : StraxFormatter) : result StraxFormatter :=
  match fuel with
  | O => Err OutOfFuel
  | S fuel' =>
      if frag_i <? num_frags p then
        let s := set_fFragmentsProcessed (fFragmentsProcessed s + 1) s in
        fragment ← build_fragment s p frag_i;
        fragment_loop fuel' p (to_unsigned 16 (frag_i + 1))
          (set_fTempBuffer (fTempBuffer s ++ [fragment]) s)
      else Ok s
  end.

(** Lines 267-276 of [ProcessChannel]; the channel label is looked up by
    the caller. *)
Definition pulse_of (s : StraxFormatter) (fmt : gmap string Z)
    (buff : list Z) (h : ChannelHead) (label : Z) : result Pulse :=
  let header_words := at_key fmt "channel_header_words" in
  let samples_in_pulse :=
    to_unsigned 32 (Z.shiftl (channel_words h - header_words) 1) in
  let fragment_samples := to_signed 32 (Z.shiftr (fFragmentBytes s) 1) in
  let divisor := to_unsigned 32 fragment_samples in
  if divisor =? 0 then Err DivisionByZero else
  Ok {| payload := payload_of buff header_words;
        Time64 := Time64_of fmt h;
        samples_in_pulse := samples_in_pulse;
        sw := to_unsigned 16 (at_key fmt "ns_per_sample");
        fragment_samples := fragment_samples;
        cl := label;
        baseline := baseline_ch h;
        num_frags :=
          to_signed 32 (samples_in_pulse `div` divisor
                        + (if samples_in_pulse `mod` divisor =? 0
                           then 0 else 1)) |}.

(** [int16_t cl = fOptions->GetChannel(bid, channel)] *)
Definition channel_label (s : StraxFormatter) (bid channel : Z) : Z :=
  to_signed 16 (GetChannel (fOptions s) bid channel).

(** [int ProcessChannel(uint32_t* buff, unsigned words_in_event, int bid,
    int channel, uint32_t header_time, uint32_t event_time,
    long clock_counter, int channel_mask)] *)
Definition ProcessChannel (fuel : nat) (buff : list Z)
    (words_in_event bid channel header_time event_time clock_counter
       channel_mask : Z)
    (s : StraxFormatter) : result (completion * StraxFormatter) :=
  let fmt := default ∅ (fFmt s !! bid) in
  head ← channel_head fmt buff words_in_event header_time event_time
           clock_counter channel_mask;
  match head with
  | None => Ok (Return (-1), s)
  | Some h =>
      let first := to_unsigned 32 (at_key fmt "channel_header_words") in
      caened ← caen_scan buff first (Z.to_nat (channel_words h - first));
      if caened : bool then
        s ← GenerateArtificialDeadtime (Time64_of fmt h) (to_signed 16 bid) s;
        Ok (Return (-1), s)
      else
        let label := channel_label s bid channel in
        if label =? -1 then Ok (Throw, s) else
        p ← pulse_of s fmt buff h label;
        s ← fragment_loop fuel p 0 s;
        let bytes := to_unsigned 32 (Z.shiftl (samples_in_pulse p) 1) in
        let s := set_fDataPerChan
                   (<[label := to_signed 32
                        (default 0 (fDataPerChan s !! label) + bytes)]>
                      (fDataPerChan s)) s in
        Ok (Return (to_signed 32 (channel_words h)), s)
  end.

(** ** Decoding an event *)

(** [for (unsigned ch = 0; ch < max_channels; ch++)], over the channels
    still to visit. *)
Fixpoint channel_loop (fuel : nat) (buff : list Z)
    (words_in_event bid header_time event_time clock_counter channel_mask : Z)
    (channels : list Z) (idx : Z) (s : StraxFormatter)
    : result (completion * StraxFormatter) :=
  match channels with
  | [] => Ok (Return idx, s)
  | ch :: channels' =>
      if Z.land channel_mask (Z.shiftl 1 ch) =? 0 then
        channel_loop fuel buff words_in_event bid header_time event_time
          clock_counter channel_mask channels' idx s
      else
        r ← ProcessChannel fuel (drop (Z.to_nat idx) buff) words_in_event bid
              ch header_time event_time clock_counter channel_mask s;
        match r with
        | (Throw, s) => Ok (Throw, s)
        | (Return ret, s) =>
            if ret =? -1 then Ok (Return idx, s)
            else
              channel_loop fuel buff words_in_event bid header_time
                event_time clock_counter channel_mask channels'
                (to_unsigned 32 (idx + ret)) s
        end
  end.

Definition event_header_words : Z := 4.
Definition max_channels : nat := 16.

(** [uint32_t ProcessEvent(const uint32_t* buff, const unsigned& total_words,
    const long& clock_counter, const uint32_t& header_time, const int& bid)] *)
Definition ProcessEvent (fuel : nat) (buff : list Z)
    (total_words clock_counter header_time bid : Z) (s : StraxFormatter)
    : result (completion * StraxFormatter) :=
  let fmt := default ∅ (fFmt s !! bid) in
  b0 ← read buff 0;
  let words_in_event := Z.min (Z.land b0 0xFFFFFFF) total_words in
  b1 ← read buff 1;
  let channel_mask := Z.land b1 0xFF in
  channel_mask ← (if at_key fmt "channel_mask_msb_idx" =? -1
                  then Ok channel_mask
                  else b2 ← read buff 2;
                       Ok (Z.lor channel_mask
                             (Z.shiftl (Z.land (Z.shiftr b2 24) 0xFF) 8)));
  b3 ← read buff 3;
  let event_time := Z.land b3 0x7FFFFFFF in
  let s := set_fEventsProcessed (fEventsProcessed s + 1) s in
  if negb (Z.land b1 0x4000000 =? 0) then
    s ← GenerateArtificialDeadtime
          (to_signed 64 ((Z.shiftl clock_counter 31 + event_time)
                         * at_key fmt "ns_per_clock"))
          (to_signed 16 bid) s;
    let s := set_fDataSource
               (DAQController_CheckError bid (fDataSource s)) s in
    let s := set_fFailCounter
               (<[bid := default 0 (fFailCounter s !! bid) + 1]>
                  (fFailCounter s)) s in
    Ok (Return event_header_words, s)
  else
    channel_loop fuel buff words_in_event bid header_time event_time
      clock_counter channel_mask (Z.of_nat <$> seq 0 max_channels)
      event_header_words s.

(** ** Reading a fragment back

    The fields of the 24-byte header, by offset and width, and what
    follows it. *)

Definition frag_time (f : list Z) : Z := field 0 8 f.
Definition frag_length (f : list Z) : Z := field 8 4 f.
Definition frag_sample_width (f : list Z) : Z := field 12 2 f.
Definition frag_channel (f : list Z) : Z := field 14 2 f.
Definition frag_pulse_length (f : list Z) : Z := field 16 4 f.
Definition frag_index (f : list Z) : Z := field 20 2 f.
Definition frag_baseline (f : list Z) : Z := field 22 2 f.
Definition frag_payload (f : list Z) : list Z := drop 24 f.

(** ** What the fragment loop is expected to hand over *)

(** The sample bytes of turn [frag_i]. *)
Definition samples_of (p : Pulse) (frag_i : Z) : list Z :=
  take (Z.to_nat (2 * samples_this_fragment p frag_i))
       (drop (Z.to_nat (2 * (frag_i * fragment_samples p))) (payload p)).

(** The fragment of turn [frag_i]: header, samples, and the zero bytes the
    filling loop adds two at a time. *)
Definition fragment_of (s : StraxFormatter) (p : Pulse) (frag_i : Z)
    : list Z :=
  fragment_header p frag_i ++ samples_of p frag_i
  ++ replicate
       (2 * Z.to_nat ((fFragmentBytes s
                       - 2 * samples_this_fragment p frag_i + 1) `div` 2)) 0.

(** The formatter after the fragments [frags] were put into [fTempBuffer]. *)
Definition emit (frags : list (list Z)) (s : StraxFormatter)
    : StraxFormatter :=
  set_fTempBuffer (fTempBuffer s ++ frags)
    (set_fFragmentsProcessed
       (fFragmentsProcessed s + Z.of_nat (length frags)) s).

(** The members that the constructor and [Initialize] set and decoding only
    reads. *)
Definition settings (s : StraxFormatter) :=
  (fChunkLength s, fChunkOverlap s, fFullChunkLength s, fChunkNameLength s,
   fFragmentBytes s, fStraxHeaderSize s, fOptions s, fFmt s).

(** ** The scenarios of the specification *)

(** Modelled from the spec: the entries of a board's [DataFormatDefinition]
    are set in V1724.cc, which is not among the sources.  The spec lists them
    (section 3, DataFormat): [ns_per_clock], [ns_per_sample],
    [channel_header_words], [channel_mask_msb_idx], [channel_time_msb_idx],
    with the values of scenario 1 for a board without channel headers
    (default firmware). *)
Definition default_firmware : gmap string Z :=
  {[ "ns_per_clock" := 10; "ns_per_sample" := 10;
     "channel_header_words" := 0; "channel_mask_msb_idx" := -1;
     "channel_time_msb_idx" := -1 ]}.

(** Modelled from the spec: the same entries for a board with a two-word
    channel header and no time word in it (DPP-DAW firmware, scenario 4). *)
Definition dpp_daw_firmware : gmap string Z :=
  {[ "ns_per_clock" := 10; "ns_per_sample" := 10;
     "channel_header_words" := 2; "channel_mask_msb_idx" := -1;
     "channel_time_msb_idx" := -1 ]}.

(** Scenario 4: a channel of five words whose time is [0x70000000]. *)
Definition scenario4_channel : list Z :=
  [0x00000005; 0x70000000; 0x00010002; 0x00030004; 0x00050006].

(** Options that set the payload size and nothing else, with the channel
    map [label]. *)
Definition scenario_options (payload_bytes : Z) (label : Z → Z → Z)
    : Options :=
  {| GetInt := λ key default,
       if decide (key = "strax_fragment_payload_bytes") then payload_bytes
       else default;
     GetChannel := label |}.

(** A formatter as [Initialize] leaves it, with a channel map that labels
    channel [ch] of any board [ch]. *)
Definition scenario_formatter (payload_bytes : Z)
    (formats : gmap Z (gmap string Z)) : StraxFormatter :=
  Initialize (scenario_options payload_bytes (λ _ ch, ch))
    {| fCheckFails := ∅; DataFormatDefinition := formats |}.

(** Scenario 1: a two-channel event of a board without channel headers. *)
Definition scenario1_event : list Z :=
  [0xA0000010; 0x00000003; 0x00000000; 0x00001000;
   0x11112222; 0x33334444; 0x55556666; 0x77778888;
   0x9999AAAA; 0xBBBBCCCC; 0xDDDDEEEE; 0xFFFF0000].

(** Scenario 3: an event header with the board-fail bit. *)
Definition scenario3_event : list Z :=
  [0xA0000004; 0x04000000; 0x00000000; 0x00002000].

(** A channel of five words behind a two-word header whose second sample
    word carries the event-header mark. *)
Definition caened_channel : list Z :=
  [0x00000005; 0x00001000; 0x00010002; 0xA0030004; 0x00050006].


(** A channel of 3604480 words, 7208960 samples: 65536 fragments of the
    default 110 samples. *)
Definition long_channel : list Z := replicate (Z.to_nat 3604480) 0.

(** Scenarios 5 and 6: chunks of 1000 ns of which the last 100 ns overlap
    the next chunk. *)
Definition scenario5_formatter : StraxFormatter :=
  {| fChunkLength := 900; fChunkOverlap := 100; fFullChunkLength := 1000;
     fChunkNameLength := 6; fFragmentBytes := 220; fStraxHeaderSize := 24;
     fOptions := scenario_options 220 (λ _ ch, ch);
     fDataSource := {| fCheckFails := ∅; DataFormatDefinition := ∅ |};
     fErrorBit := false;
     fFragmentSize := 0; fFmt := ∅; fFailCounter := ∅; fDataPerChan := ∅;
     fFragmentsProcessed := 0; fEventsProcessed := 0; fFragments := ∅;
     fTempBuffer := [] |}.

(** ** What the controller asks of the formatters

    The members [Close], [GetDataPerChan] and [GetBufferSize] of the
    formatter (src/StraxFormatter.cc, src/StraxFormatter.hh) and the
    members of [DAQController] that call them for every processing thread
    (src/V1724.hh, which holds DAQController.hh and DAQController.cc). *)

(** [struct processingThread], as far as it is modelled: the formatter of
    the thread and the flag [fActive] of that formatter, a member that the
    record [StraxFormatter] does not hold. *)
Record processingThread : Type := {
  inserter : StraxFormatter;
  fActive : bool
}.

(** [ret[k] += v] on a [std::map<int, int>] *)
Definition add_to (k v : Z) (ret : gmap Z Z) : gmap Z Z :=
  <[k := to_signed 32 (default 0 (ret !! k) + v)]> ret.

(** [void StraxFormatter::Close(std::map<int,int>& ret)]: the loop visits
    every entry of [fFailCounter] once; the entries have different keys, so
    the order of the visits does not show in [ret]. *)
Definition Close (ret : gmap Z Z) (pt : processingThread)
    : gmap Z Z * processingThread :=
  (map_fold add_to ret (fFailCounter (inserter pt)),
   {| inserter := inserter pt; fActive := false |}).

(** [void StraxFormatter::GetDataPerChan(std::map<int, int>& ret)] *)
Definition GetDataPerChan (ret : gmap Z Z) (pt : processingThread)
    : gmap Z Z * processingThread :=
  if negb (fActive pt) then (ret, pt)
  else
    (map_fold add_to ret (fDataPerChan (inserter pt)),
     {| inserter :=
          set_fDataPerChan ((λ _, 0) <$> fDataPerChan (inserter pt))
            (inserter pt);
        fActive := fActive pt |}).

(** [long GetBufferSize() {return fFragmentSize.load();}] *)
Definition GetBufferSize (s : StraxFormatter) : Z := fFragmentSize s.

(** [for (const auto& pt : fProcessingThreads)
       pt.inserter->GetDataPerChan(retmap);] *)
Fixpoint GetDataPerChan_threads (retmap : gmap Z Z)
    (fProcessingThreads : list processingThread)
    : gmap Z Z * list processingThread :=
  match fProcessingThreads with
  | [] => (retmap, [])
  | pt :: rest =>
      let '(retmap, pt) := GetDataPerChan retmap pt in
      let '(retmap, rest) := GetDataPerChan_threads retmap rest in
      (retmap, pt :: rest)
  end.

(** [std::map<int, int> DAQController::GetDataPerChan()] *)
Definition DAQController_GetDataPerChan
    (fProcessingThreads : list processingThread)
    : gmap Z Z * list processingThread :=
  GetDataPerChan_threads ∅ fProcessingThreads.

(** [long DAQController::GetStraxBufferSize()]: [std::accumulate] from the
    initial value [0], an [int], so the running total is an [int]: every
    [tot + pt.inserter->GetBufferSize()], a [long], is converted to [int]
    when it is stored for the next turn. *)
Definition GetStraxBufferSize (fProcessingThreads : list processingThread)
    : Z :=
  foldl (λ tot pt, to_signed 32 (tot + GetBufferSize (inserter pt))) 0
    fProcessingThreads.

(** [for (i...) fProcessingThreads[i].inserter->Close(board_fails);] *)
Fixpoint Close_threads (board_fails : gmap Z Z)
    (fProcessingThreads : list processingThread)
    : gmap Z Z * list processingThread :=
  match fProcessingThreads with
  | [] => (board_fails, [])
  | pt :: rest =>
      let '(board_fails, pt) := Close board_fails pt in
      let '(board_fails, rest) := Close_threads board_fails rest in
      (board_fails, pt :: rest)
  end.

(** [void DAQController::CloseProcessingThreads()]: every formatter is
    closed with the same map [board_fails], the threads are deleted and the
    list is cleared; the first component is the map the warning lists, when
    the counts add up to a non-zero [int] and the warning is logged. *)
Definition CloseProcessingThreads (fProcessingThreads : list processingThread)
    : option (gmap Z Z) * list processingThread :=
  let '(board_fails, _) := Close_threads ∅ fProcessingThreads in
  let total :=
    map_fold (λ _ count tot, to_signed 32 (tot + count)) 0 board_fails in
  (if total =? 0 then None else Some board_fails, []).

(** ** The readout buffer of the controller *)

Module data_packet.
(** [struct data_packet] *)
Record t : Type := {
  buff : list Z;
  size : Z;
  clock_counter : Z;
  header_time : Z;
  bid : Z
}.
End data_packet.

(** The members of [DAQController] that keep the packets read from the
    boards until a processing thread fetches them: a queue, a packet count
    and a byte count for each board, and the bytes read since the last
    [GetDataSize]. *)
Record ReadoutBuffer : Type := {
  fBuffer : gmap Z (list data_packet.t);
  fBufferLength : gmap Z Z;
  fBufferSize : gmap Z Z;
  fDataRate : Z
}.

(** Lines 470-479 of [DAQController::ReadData]: what the read loop does
    with the packet [dp] that [ReadMBLT] filled for the board [digi_bid]
    when its size is positive.  The counters are [std::atomic_int]. *)
Definition ReadData_store (dp : data_packet.t) (digi_bid : Z)
    (c : ReadoutBuffer) : ReadoutBuffer :=
  if 0 <? data_packet.size dp then
    let dp :=
      {| data_packet.buff := data_packet.buff dp;
         data_packet.size := data_packet.size dp;
         data_packet.clock_counter := data_packet.clock_counter dp;
         data_packet.header_time := data_packet.header_time dp;
         data_packet.bid := digi_bid |} in
    let bid := data_packet.bid dp in
    {| fBufferLength :=
         <[bid := to_signed 32 (default 0 (fBufferLength c !! bid) + 1)]>
           (fBufferLength c);
       fBuffer := <[bid := default [] (fBuffer c !! bid) ++ [dp]]> (fBuffer c);
       fBufferSize :=
         <[bid := to_signed 32 (default 0 (fBufferSize c !! bid)
                                + data_packet.size dp)]> (fBufferSize c);
       fDataRate := to_signed 32 (fDataRate c + data_packet.size dp) |}
  else c.

(** Lines 419-429 of [DAQController::ReadData]: before the read loop starts,
    a queue that still holds packets is emptied. *)
Definition ReadData_clear (bid : Z) (c : ReadoutBuffer) : ReadoutBuffer :=
  if negb (length (default [] (fBuffer c !! bid)) =? 0)%nat then
    {| fBuffer := <[bid := []]> (fBuffer c);
       fBufferLength := fBufferLength c;
       fBufferSize := fBufferSize c;
       fDataRate := 0 |}
  else c.

(** [int DAQController::GetData(std::queue<data_packet*> &retQ, int bid)]:
    the value returned, [retQ] and the buffer after the call. *)
Definition GetData_queue (retQ : list data_packet.t) (bid : Z)
    (c : ReadoutBuffer) : Z * list data_packet.t * ReadoutBuffer :=
  if default 0 (fBufferLength c !! bid) =? 0 then (0, retQ, c)
  else if (length (default [] (fBuffer c !! bid)) =? 0)%nat then (0, retQ, c)
  else
    (default 0 (fBufferSize c !! bid),
     default [] (fBuffer c !! bid),
     {| fBuffer := <[bid := retQ]> (fBuffer c);
        fBufferLength := <[bid := 0]> (fBufferLength c);
        fBufferSize := <[bid := 0]> (fBufferSize c);
        fDataRate := fDataRate c |}).

(** [int DAQController::GetData(data_packet* &dp, int bid)]: the value
    returned, [dp] and the buffer after the call. *)
Definition GetData_packet (dp : option data_packet.t) (bid : Z)
    (c : ReadoutBuffer) : Z * option data_packet.t * ReadoutBuffer :=
  if default 0 (fBufferLength c !! bid) =? 0 then (0, dp, c)
  else
    match default [] (fBuffer c !! bid) with
    | [] => (0, dp, c)
    | front :: rest =>
        (1, Some front,
         {| fBuffer := <[bid := rest]> (fBuffer c);
            fBufferLength :=
              <[bid := to_signed 32 (default 0 (fBufferLength c !! bid) - 1)]>
                (fBufferLength c);
            fBufferSize :=
              <[bid := to_signed 32 (default 0 (fBufferSize c !! bid)
                                     - data_packet.size front)]>
                (fBufferSize c);
            fDataRate := fDataRate c |})
    end.

(** [int GetDataSize(){int ds = fDataRate; fDataRate=0; return ds;}] *)
Definition GetDataSize (c : ReadoutBuffer) : Z * ReadoutBuffer :=
  let ds := fDataRate c in
  (ds, {| fBuffer := fBuffer c; fBufferLength := fBufferLength c;
          fBufferSize := fBufferSize c; fDataRate := 0 |}).

(** Lines 447-449 of [DAQController::ReadData]: a board flagged by
    [CheckError(bid)] has its flag cleared and its [CheckErrors] called,
    once; the first component tells whether the call is made. *)
Definition ReadData_check (bid : Z) (c : DAQController)
    : bool * DAQController :=
  if default false (fCheckFails c !! bid)
  then (true, {| fCheckFails := <[bid := false]> (fCheckFails c);
                 DataFormatDefinition := DataFormatDefinition c |})
  else (false, c).

(** ** What the queue of a board is expected to hold *)

(** The packet and byte counts of a board agree with its queue. *)
Definition counts_agree (bid : Z) (c : ReadoutBuffer) : Prop :=
  let queue := default [] (fBuffer c !! bid) in
  default 0 (fBufferLength c !! bid) = to_signed 32 (Z.of_nat (length queue))
  ∧ default 0 (fBufferSize c !! bid)
    = to_signed 32 (foldr Z.add 0 (data_packet.size <$> queue)).

#[global] Instance counts_agree_dec (bid : Z) (c : ReadoutBuffer) :
  Decision (counts_agree bid c).
Proof. unfold counts_agree. cbn zeta. apply _. Defined.

(** The packet [dp] as the read loop queues it for the board [digi_bid]. *)
Definition stored_as (digi_bid : Z) (dp : data_packet.t) : data_packet.t :=
  {| data_packet.buff := data_packet.buff dp;
     data_packet.size := data_packet.size dp;
     data_packet.clock_counter := data_packet.clock_counter dp;
     data_packet.header_time := data_packet.header_time dp;
     data_packet.bid := digi_bid |}.

(** The map [ret] after the entries of each map of [counts] were added to
    it, one map after the other. *)
Definition add_all (counts : list (gmap Z Z)) (ret : gmap Z Z) : gmap Z Z :=
  foldl (λ ret count, map_fold add_to ret count) ret counts.

(** The members that [ProcessEvent] changes only itself: the count of
    events, and the marks of a failing board. *)
Definition event_state (s : StraxFormatter) :=
  (fEventsProcessed s, fErrorBit s, fFailCounter s, fDataSource s).

(** The chunk buffers of [s'] hold one artificial-deadtime fragment of the
    board [bid] more than those of [s], under the keys of its timestamp. *)
Definition deadtime_added (bid : Z) (s s' : StraxFormatter) : Prop :=
  ∃ timestamp,
    let f := deadtime_fragment s timestamp (to_signed 16 bid) in
    fFragmentSize s' = fFragmentSize s + Z.of_nat (length f)
    ∧ ∀ k, fFragments s' !! k
           = if decide (k ∈ chunk_keys s timestamp)
             then Some (default [] (fFragments s !! k) ++ f)
             else fFragments s !! k.

(** The bytes the chunk buffers hold. *)
Definition stored_bytes (fragments : gmap string (list Z)) : Z :=
  map_fold (λ _ bytes total, total + Z.of_nat (length bytes)) 0 fragments.

(** The channels of [channels] whose bit is set in [channel_mask]. *)
Definition channels_in (channel_mask : Z) (channels : list Z) : list Z :=
  filter (λ ch, Z.land channel_mask (Z.shiftl 1 ch) ≠ 0) channels.

(** * Properties *)

(** ** Machine integers and bytes *)

Lemma to_unsigned_small (w z : Z) :
  0 ≤ z < 2 ^ w → to_unsigned w z = z.
Proof. intros H. unfold to_unsigned. apply Z.mod_small. exact H. Qed.

Lemma to_signed_small (w z : Z) :
  0 < w → - 2 ^ (w - 1) ≤ z < 2 ^ (w - 1) → to_signed w z = z.
Proof.
  intros Hw H. unfold to_signed.
  replace (2 ^ w) with (2 * 2 ^ (w - 1)).
  - rewrite Z.mod_small; lia.
  - rewrite <- Z.pow_succ_r by lia. f_equal. lia.
Qed.

Lemma to_unsigned_range (w z : Z) : 0 ≤ w → 0 ≤ to_unsigned w z < 2 ^ w.
Proof. intros Hw. unfold to_unsigned. apply Z.mod_pos_bound. lia. Qed.

Lemma length_bytes_of (n x : Z) :
  0 ≤ n → length (bytes_of n x) = Z.to_nat n.
Proof.
  intros Hn. unfold bytes_of.
  pose proof (length_Z_to_little_endian n 8 x Hn). lia.
Qed.

Lemma field_bytes_of (n : nat) (x : Z) (rest : list Z) :
  field 0 n (bytes_of (Z.of_nat n) x ++ rest) = to_unsigned (8 * Z.of_nat n) x.
Proof.
  unfold field, to_unsigned. rewrite drop_0.
  rewrite take_app_length' by (rewrite length_bytes_of; lia).
  unfold bytes_of.
  rewrite little_endian_to_Z_to_little_endian by lia.
  f_equal. f_equal. lia.
Qed.

(** ** Keys of the chunk buffer *)

Lemma pre_post_differ (a b : string) : a +:+ "_pre" ≠ b +:+ "_post".
Proof.
  revert b. induction a as [|c a IH]; intros b H.
  - destruct b as [|d [|d' [|d'' b]]]; simpl in H; try discriminate.
    destruct b as [|? [|? [|? ?]]]; simpl in H; discriminate.
  - destruct b as [|d b]; simpl in H.
    + injection H as _ H.
      destruct a as [|? [|? [|? [|? [|? ?]]]]]; simpl in H; discriminate.
    + injection H as _ H. exact (IH b H).
Qed.

(** ** The error bit *)

Lemma pending_cons (t : StraxFormatter) (ts : list StraxFormatter) :
  pending (t :: ts) = ((if fErrorBit t then 1 else 0) + pending ts)%nat.
Proof.
  unfold pending. rewrite filter_cons.
  destruct (fErrorBit t); case_decide; try congruence; reflexivity.
Qed.

Lemma CheckErrors_pending (threads : list StraxFormatter) :
  pending (CheckErrors threads).2
  = (pending threads - (if (CheckErrors threads).1 then 1 else 0))%nat.
Proof.
  induction threads as [|t ts IH]; [reflexivity|].
  cbn [CheckErrors]. unfold CheckError.
  destruct (fErrorBit t) eqn:Hbit.
  - cbn [fst snd]. rewrite !pending_cons, Hbit. cbn. lia.
  - destruct (CheckErrors ts) as [r ts'] eqn:Hrec. cbn [fst snd] in IH |- *.
    rewrite !pending_cons, Hbit. cbn. exact IH.
Qed.

(** C10. [CheckError()] returns the stored error bit and clears it: the bit
    is false after any call, a second call with nothing in between returns
    false, and every poll of the controller that reports an error uses up
    exactly one pending error bit. *)
Theorem CheckError_returns_and_resets (s : StraxFormatter) :
  (CheckError s).1 = fErrorBit s
  ∧ fErrorBit (CheckError s).2 = false
  ∧ (CheckError (CheckError s).2).1 = false
  ∧ (CheckError s).2 = set_fErrorBit false s
  ∧ ∀ threads : list StraxFormatter,
      pending (CheckErrors threads).2
      = (pending threads - (if (CheckErrors threads).1 then 1 else 0))%nat.
Proof.
  repeat split. apply CheckErrors_pending.
Qed.

(** ** Chunk routing *)

Lemma chunk_id_exact (s : StraxFormatter) (ts : Z) :
  - 2 ^ 31 < ts `quot` fFullChunkLength s < 2 ^ 31 - 1 →
  chunk_id_of s ts = ts `quot` fFullChunkLength s.
Proof. intros H. unfold chunk_id_of. apply to_signed_small; lia. Qed.

Lemma nextpre_exact (s : StraxFormatter) (ts : Z) :
  0 < fFullChunkLength s < 2 ^ 32 →
  - 2 ^ 62 ≤ ts ≤ 2 ^ 62 →
  - 2 ^ 31 < ts `quot` fFullChunkLength s < 2 ^ 31 - 1 →
  nextpre_of s ts
  = ((ts `quot` fFullChunkLength s + 1) * fFullChunkLength s - ts
     <=? fChunkOverlap s).
Proof.
  intros Hfull Hts Hid. unfold nextpre_of.
  rewrite chunk_id_exact by exact Hid.
  rewrite (to_signed_small 32) by lia.
  rewrite (to_signed_small 64); [reflexivity|lia|].
  pose proof (Z.quot_rem' ts (fFullChunkLength s)) as Hqr.
  assert (Z.abs (Z.rem ts (fFullChunkLength s)) < fFullChunkLength s) as Hr.
  { pose proof (Z.rem_bound_abs ts (fFullChunkLength s)). lia. }
  change (2 ^ (64 - 1)) with 9223372036854775808.
  change (2 ^ 32) with 4294967296 in Hfull.
  nia.
Qed.

(** Whatever the timestamp, the fragment is appended under the keys of
    [chunk_keys], once each, and every other key keeps its bytes. *)
Lemma AddFragmentToBuffer_keys (s : StraxFormatter) (fragment : list Z)
    (ts : Z) :
  fFullChunkLength s ≠ 0 →
  ∃ s', AddFragmentToBuffer fragment ts s = Ok s'
    ∧ NoDup (chunk_keys s ts)
    ∧ ∀ k, fFragments s' !! k
           = if decide (k ∈ chunk_keys s ts)
             then Some (default [] (fFragments s !! k) ++ fragment)
             else fFragments s !! k.
Proof.
  intros Hfull. unfold AddFragmentToBuffer, chunk_keys.
  destruct (fFullChunkLength s =? 0) eqn:Hz; [lia|].
  change (GetStringFormat (set_fFragmentSize _ s)) with (GetStringFormat s).
  destruct (nextpre_of s ts); cbn [negb].
  - eexists. split; [reflexivity|]. split.
    + apply NoDup_cons. split; [|apply NoDup_singleton].
      intros Hin. apply list_elem_of_singleton in Hin.
      exact (pre_post_differ _ _ Hin).
    + intros k. cbn. unfold append_to.
      destruct (decide (k ∈ _)) as [Hin|Hout].
      * apply elem_of_cons in Hin as [->|Hin].
        -- rewrite lookup_insert_ne
             by (intros E; symmetry in E; exact (pre_post_differ _ _ E)).
           apply lookup_insert_eq.
        -- apply list_elem_of_singleton in Hin as ->.
           rewrite lookup_insert_eq.
           rewrite lookup_insert_ne by (intros E; exact (pre_post_differ _ _ E)).
           reflexivity.
      * apply not_elem_of_cons in Hout as [Hpre Hpost].
        apply not_elem_of_cons in Hpost as [Hpost _].
        rewrite !lookup_insert_ne by congruence. reflexivity.
  - eexists. split; [reflexivity|]. split; [apply NoDup_singleton|].
    intros k. cbn. unfold append_to.
    destruct (decide (k ∈ _)) as [Hin|Hout].
    + apply list_elem_of_singleton in Hin as ->. apply lookup_insert_eq.
    + apply lookup_insert_ne. intros <-. apply Hout.
      apply list_elem_of_singleton. reflexivity.
Qed.

(** C2.  With [chunk_id = ts / full_chunk_length]: when
    [(chunk_id+1)*full_chunk_length - ts > chunk_overlap] the fragment is
    appended under the bare chunk id and no other key changes; otherwise it
    is appended, with the same bytes, under the two distinct keys
    [fmt(chunk_id+1)+"_pre"] and [fmt(chunk_id)+"_post"] and no other key
    changes.  The timestamp ranges over the values whose chunk id the
    [int chunk_id] of the code holds. *)
Theorem AddFragmentToBuffer_routes (s : StraxFormatter) (fragment : list Z)
    (ts : Z) :
  0 < fFullChunkLength s < 2 ^ 32 →
  - 2 ^ 62 ≤ ts ≤ 2 ^ 62 →
  - 2 ^ 31 < ts `quot` fFullChunkLength s < 2 ^ 31 - 1 →
  let chunk_id := ts `quot` fFullChunkLength s in
  let fmt := GetStringFormat s in
  ∃ s', AddFragmentToBuffer fragment ts s = Ok s'
    ∧ if decide ((chunk_id + 1) * fFullChunkLength s - ts > fChunkOverlap s)
      then
        ∀ k, fFragments s' !! k
             = if decide (k = fmt chunk_id)
               then Some (default [] (fFragments s !! k) ++ fragment)
               else fFragments s !! k
      else
        fmt (chunk_id + 1) +:+ "_pre" ≠ fmt chunk_id +:+ "_post"
        ∧ ∀ k, fFragments s' !! k
               = if decide (k = fmt (chunk_id + 1) +:+ "_pre"
                            ∨ k = fmt chunk_id +:+ "_post")
                 then Some (default [] (fFragments s !! k) ++ fragment)
                 else fFragments s !! k.
Proof.
  intros Hfull Hts Hid chunk_id fmt.
  destruct (AddFragmentToBuffer_keys s fragment ts ltac:(lia))
    as (s' & Hrun & _ & Hkeys).
  exists s'. split; [exact Hrun|].
  unfold chunk_keys in Hkeys.
  rewrite nextpre_exact, chunk_id_exact in Hkeys by assumption.
  fold chunk_id in Hkeys. fold fmt in Hkeys.
  destruct (decide ((chunk_id + 1) * fFullChunkLength s - ts > fChunkOverlap s))
    as [Hone|Htwo].
  - destruct ((chunk_id + 1) * fFullChunkLength s - ts <=? fChunkOverlap s)
      eqn:Hle; [lia|].
    intros k. rewrite Hkeys.
    destruct (decide (k = fmt chunk_id)) as [->|Hne];
      destruct (decide (_ ∈ _)) as [Hin|Hout]; try reflexivity; exfalso.
    + apply Hout, list_elem_of_singleton. reflexivity.
    + apply list_elem_of_singleton in Hin. contradiction.
  - destruct ((chunk_id + 1) * fFullChunkLength s - ts <=? fChunkOverlap s)
      eqn:Hle; [|lia].
    rewrite (to_signed_small 32) in Hkeys by (unfold chunk_id; lia).
    split; [apply pre_post_differ|].
    intros k. rewrite Hkeys.
    destruct (decide (k = fmt (chunk_id + 1) +:+ "_pre"
                      ∨ k = fmt chunk_id +:+ "_post")) as [Hk|Hk];
      destruct (decide (_ ∈ _)) as [Hin|Hout]; try reflexivity; exfalso.
    + apply Hout, elem_of_cons.
      destruct Hk as [->| ->]; [left; reflexivity|right].
      apply list_elem_of_singleton. reflexivity.
    + apply Hk. apply elem_of_cons in Hin as [->|Hin]; [left; reflexivity|].
      right. apply list_elem_of_singleton in Hin. exact Hin.
Qed.

(** Scenario 5: a fragment stamped 950 ns goes to ["000001_pre"] and
    ["000000_post"] and to no other key. *)
Lemma AddFragmentToBuffer_routes_witness :
  ∃ s',
    AddFragmentToBuffer [1; 2; 3] 950 scenario5_formatter = Ok s'
    ∧ fFragments s' !! "000001_pre" = Some [1; 2; 3]
    ∧ fFragments s' !! "000000_post" = Some [1; 2; 3]
    ∧ fFragments s' !! "000000" = None.
Proof.
  assert (0 < fFullChunkLength scenario5_formatter < 2 ^ 32) as H1
    by (cbn; lia).
  assert (- 2 ^ 62 ≤ 950 ≤ 2 ^ 62) as H2 by lia.
  assert (- 2 ^ 31 < 950 `quot` fFullChunkLength scenario5_formatter
          < 2 ^ 31 - 1) as H3 by (vm_compute; split; reflexivity).
  destruct (AddFragmentToBuffer_routes scenario5_formatter [1; 2; 3] 950
              H1 H2 H3) as (s' & Hrun & Hroute).
  cbn zeta in Hroute.
  destruct (decide _) as [Hgt|_] in Hroute; [vm_compute in Hgt; discriminate|].
  destruct Hroute as [_ Hkeys].
  exists s'. split; [exact Hrun|].
  rewrite !Hkeys. repeat split.
Defined.

(** Scenario 6: a fragment stamped 800 ns goes to ["000000"] alone. *)
Lemma scenario6_single_copy :
  ∃ s',
    AddFragmentToBuffer [1; 2; 3] 800 scenario5_formatter = Ok s'
    ∧ fFragments s' = {[ "000000" := [1; 2; 3] ]}.
Proof.
  eexists. split; [vm_compute; reflexivity|]. reflexivity.
Qed.

(** ** Zero filling *)

Lemma fill_loop_exit (target : Z) (filler : list Z) :
  filler ≠ [] →
  target + Z.of_nat (length filler) ≤ 2 ^ 31 →
  ∀ (fuel : nat) (fragment : list Z),
    target - Z.of_nat (length fragment) ≤ Z.of_nat fuel →
    Z.of_nat (length fragment) < 2 ^ 31 →
    target ≤ Z.of_nat (length (fill_loop fuel target filler fragment)).
Proof.
  intros Hne Hroom. induction fuel as [|fuel IH]; intros fragment Hfuel Hlen.
  - cbn. lia.
  - cbn [fill_loop]. rewrite (to_signed_small 32) by lia.
    destruct (Z.of_nat (length fragment) <? target) eqn:Hlt; [|lia].
    assert (0 < length filler)%nat by (destruct filler; [congruence|cbn; lia]).
    apply IH; rewrite length_app; lia.
Qed.

Lemma fill_loop_bytes (target : Z) :
  target < 2 ^ 31 →
  ∀ (fuel : nat) (fragment : list Z),
    Z.of_nat (length fragment) < 2 ^ 31 →
    fuel = Z.to_nat (target - Z.of_nat (length fragment)) →
    fill_loop fuel target [0] fragment = fragment ++ replicate fuel 0.
Proof.
  intros Htarget. induction fuel as [|fuel IH]; intros fragment Hlen Hfuel.
  - cbn. rewrite app_nil_r. reflexivity.
  - cbn [fill_loop]. rewrite (to_signed_small 32) by lia.
    destruct (Z.of_nat (length fragment) <? target) eqn:Hlt; [|lia].
    rewrite IH.
    + rewrite <- app_assoc. reflexivity.
    + rewrite length_app. cbn. lia.
    + rewrite length_app. cbn. lia.
Qed.

Lemma fill_loop_pairs (target : Z) :
  target + 1 < 2 ^ 31 →
  ∀ (n fuel : nat) (fragment : list Z),
    target ≤ Z.of_nat (length fragment) + 2 * Z.of_nat n < target + 2 →
    (n ≤ fuel)%nat →
    fill_loop fuel target [0; 0] fragment = fragment ++ replicate (2 * n) 0.
Proof.
  intros Htarget. induction n as [|n IH]; intros fuel fragment Hlen Hfuel.
  - cbn [replicate Nat.mul]. rewrite app_nil_r.
    destruct fuel as [|fuel]; [reflexivity|].
    cbn [fill_loop]. rewrite (to_signed_small 32) by lia.
    destruct (Z.of_nat (length fragment) <? target) eqn:Hlt; [lia|reflexivity].
  - destruct fuel as [|fuel]; [lia|].
    cbn [fill_loop]. rewrite (to_signed_small 32) by lia.
    destruct (Z.of_nat (length fragment) <? target) eqn:Hlt; [|lia].
    rewrite (IH fuel).
    + rewrite <- app_assoc. f_equal.
      replace (2 * S n)%nat with (S (S (2 * n))) by lia. reflexivity.
    + rewrite length_app. cbn. lia.
    + lia.
Qed.

Lemma zero_fill_bytes (target : Z) (fragment : list Z) :
  target < 2 ^ 31 →
  Z.of_nat (length fragment) < 2 ^ 31 →
  zero_fill target [0] fragment
  = fragment ++ replicate (Z.to_nat (target - Z.of_nat (length fragment))) 0.
Proof.
  intros Ht Hl. unfold zero_fill. apply fill_loop_bytes; auto.
Qed.

Lemma zero_fill_pairs (target : Z) (fragment : list Z) :
  target + 1 < 2 ^ 31 →
  Z.of_nat (length fragment) ≤ target →
  zero_fill target [0; 0] fragment
  = fragment
    ++ replicate
         (2 * Z.to_nat ((target - Z.of_nat (length fragment) + 1) `div` 2)) 0.
Proof.
  intros Ht Hl. unfold zero_fill.
  pose proof (Z.div_mod (target - Z.of_nat (length fragment) + 1) 2) as Hdm.
  pose proof (Z.mod_pos_bound (target - Z.of_nat (length fragment) + 1) 2)
    as Hm.
  apply (fill_loop_pairs target Ht); lia.
Qed.

(** ** The artificial-deadtime fragment *)

Lemma field_at (off n : nat) (x : Z) (before rest : list Z) :
  length before = off →
  field off n (before ++ bytes_of (Z.of_nat n) x ++ rest)
  = to_unsigned (8 * Z.of_nat n) x.
Proof.
  intros <-. unfold field. rewrite drop_app_length.
  exact (field_bytes_of n x rest).
Qed.

Lemma deadtime_fragment_bytes (s : StraxFormatter) (ts bid : Z) :
  fStraxHeaderSize s = 24 →
  0 ≤ fFragmentBytes s < 2 ^ 31 - 24 →
  deadtime_fragment s ts bid
  = bytes_of 8 ts ++ bytes_of 4 (fFragmentBytes s `div` 2) ++ bytes_of 2 10
    ++ bytes_of 2 790 ++ bytes_of 4 (fFragmentBytes s `div` 2)
    ++ bytes_of 2 0 ++ bytes_of 2 0 ++ bytes_of 2 bid
    ++ replicate (Z.to_nat (fFragmentBytes s - 2)) 0.
Proof.
  intros Hhs Hfb. unfold deadtime_fragment. rewrite Hhs.
  rewrite Z.shiftr_div_pow2 by lia. change (2 ^ 1) with 2.
  assert (0 ≤ fFragmentBytes s `div` 2 < 2 ^ 30) as Hhalf.
  { split; [apply Z.div_pos; lia|apply Z.div_lt_upper_bound; lia]. }
  rewrite !(to_signed_small 32) by lia.
  rewrite zero_fill_bytes;
    [|lia|rewrite !length_app, !length_bytes_of by lia; cbn; lia].
  match goal with
  | |- _ ++ replicate ?n 0 = _ =>
      replace n with (Z.to_nat (fFragmentBytes s - 2))
        by (rewrite !length_app, !length_bytes_of by lia; cbn; lia)
  end.
  rewrite <- !app_assoc. reflexivity.
Qed.

(** ** The layout of a fragment *)

Lemma field_skip (k off n : nat) (a l : list Z) :
  length a = k → field (k + off) n (a ++ l) = field off n l.
Proof.
  intros <-. unfold field. rewrite drop_app_add. reflexivity.
Qed.

Lemma fragment_fields (t len w ch pl fi bl : Z) (rest : list Z) :
  let f := bytes_of 8 t ++ bytes_of 4 len ++ bytes_of 2 w ++ bytes_of 2 ch
           ++ bytes_of 4 pl ++ bytes_of 2 fi ++ bytes_of 2 bl ++ rest in
  frag_time f = to_unsigned 64 t
  ∧ frag_length f = to_unsigned 32 len
  ∧ frag_sample_width f = to_unsigned 16 w
  ∧ frag_channel f = to_unsigned 16 ch
  ∧ frag_pulse_length f = to_unsigned 32 pl
  ∧ frag_index f = to_unsigned 16 fi
  ∧ frag_baseline f = to_unsigned 16 bl
  ∧ frag_payload f = rest.
Proof.
  intros f. subst f.
  assert (∀ n x, 0 ≤ n → length (bytes_of n x) = Z.to_nat n) as L
    by (intros; apply length_bytes_of; assumption).
  repeat split.
  - exact (field_bytes_of 8 t _).
  - unfold frag_length.
    rewrite (field_skip 8 0) by (apply L; lia).
    exact (field_bytes_of 4 len _).
  - unfold frag_sample_width.
    rewrite (field_skip 8 4) by (apply L; lia).
    rewrite (field_skip 4 0) by (apply L; lia).
    exact (field_bytes_of 2 w _).
  - unfold frag_channel.
    rewrite (field_skip 8 6) by (apply L; lia).
    rewrite (field_skip 4 2) by (apply L; lia).
    rewrite (field_skip 2 0) by (apply L; lia).
    exact (field_bytes_of 2 ch _).
  - unfold frag_pulse_length.
    rewrite (field_skip 8 8) by (apply L; lia).
    rewrite (field_skip 4 4) by (apply L; lia).
    rewrite (field_skip 2 2) by (apply L; lia).
    rewrite (field_skip 2 0) by (apply L; lia).
    exact (field_bytes_of 4 pl _).
  - unfold frag_index.
    rewrite (field_skip 8 12) by (apply L; lia).
    rewrite (field_skip 4 8) by (apply L; lia).
    rewrite (field_skip 2 6) by (apply L; lia).
    rewrite (field_skip 2 4) by (apply L; lia).
    rewrite (field_skip 4 0) by (apply L; lia).
    exact (field_bytes_of 2 fi _).
  - unfold frag_baseline.
    rewrite (field_skip 8 14) by (apply L; lia).
    rewrite (field_skip 4 10) by (apply L; lia).
    rewrite (field_skip 2 8) by (apply L; lia).
    rewrite (field_skip 2 6) by (apply L; lia).
    rewrite (field_skip 4 2) by (apply L; lia).
    rewrite (field_skip 2 0) by (apply L; lia).
    exact (field_bytes_of 2 bl _).
Qed.

Lemma length_deadtime_fragment (s : StraxFormatter) (timestamp bid : Z) :
  fStraxHeaderSize s = 24 →
  2 ≤ fFragmentBytes s < 2 ^ 31 - 24 →
  Z.of_nat (length (deadtime_fragment s timestamp bid))
  = fFragmentBytes s + 24.
Proof.
  intros Hhs Hfb. rewrite deadtime_fragment_bytes by lia.
  rewrite !length_app, !length_bytes_of, length_replicate by lia. lia.
Qed.

(** C5, as the code has it.  An artificial-deadtime fragment carries channel
    label 790, pulse length [payload_bytes/2], fragment index 0 and sample
    width 10; the trailing two bytes of its 24-byte header are the baseline
    field, which is 0; the board id is written in the two bytes after the
    header, the first two payload bytes, and every later payload byte is
    zero. *)
Theorem deadtime_fragment_layout (s : StraxFormatter) (timestamp bid : Z) :
  fStraxHeaderSize s = 24 →
  2 ≤ fFragmentBytes s < 2 ^ 31 - 24 →
  let f := deadtime_fragment s timestamp bid in
  GenerateArtificialDeadtime timestamp bid s
    = AddFragmentToBuffer f timestamp s
  ∧ Z.of_nat (length f) = fFragmentBytes s + 24
  ∧ frag_time f = to_unsigned 64 timestamp
  ∧ frag_channel f = 790
  ∧ frag_pulse_length f = fFragmentBytes s `div` 2
  ∧ frag_length f = fFragmentBytes s `div` 2
  ∧ frag_index f = 0
  ∧ frag_sample_width f = 10
  ∧ frag_baseline f = 0
  ∧ frag_payload f
    = bytes_of 2 bid ++ replicate (Z.to_nat (fFragmentBytes s - 2)) 0.
Proof.
  intros Hhs Hfb f. subst f.
  split; [reflexivity|].
  rewrite deadtime_fragment_bytes by lia.
  assert (0 ≤ fFragmentBytes s `div` 2 < 2 ^ 30) as Hhalf.
  { split; [apply Z.div_pos; lia|apply Z.div_lt_upper_bound; lia]. }
  pose proof (length_deadtime_fragment s timestamp bid Hhs Hfb) as Hlen.
  rewrite deadtime_fragment_bytes in Hlen by lia.
  split; [exact Hlen|].
  pose proof (fragment_fields timestamp (fFragmentBytes s `div` 2) 10 790
                (fFragmentBytes s `div` 2) 0 0
                (bytes_of 2 bid
                 ++ replicate (Z.to_nat (fFragmentBytes s - 2)) 0)) as F.
  cbn zeta in F.
  destruct F as (Ft & Fl & Fw & Fc & Fp & Fi & Fb & Fr).
  rewrite Ft, Fl, Fw, Fc, Fp, Fi, Fb, Fr.
  rewrite !(to_unsigned_small 32) by lia.
  repeat split.
Qed.

(** C5 as the specification states it does not hold for board 5 with the
    default payload size: the trailing two header bytes hold 0, not the
    board id, and the payload starts with the board id, so it is not all
    zero. *)
Lemma deadtime_board_id_follows_header :
  let s := scenario_formatter 220 ∅ in
  let f := deadtime_fragment s 0 5 in
  frag_baseline f ≠ 5 ∧ ¬ Forall (λ b, b = 0) (frag_payload f).
Proof.
  split.
  - vm_compute. discriminate.
  - intros H. apply Forall_cons_1 in H as [H _].
    + discriminate H.
Qed.

(** The layout at board 3, timestamp 4096 and a payload of 220 bytes. *)
Lemma deadtime_fragment_layout_witness :
  let s := scenario_formatter 220 ∅ in
  fStraxHeaderSize s = 24
  ∧ 2 ≤ fFragmentBytes s < 2 ^ 31 - 24
  ∧ frag_channel (deadtime_fragment s 4096 3) = 790
  ∧ frag_payload (deadtime_fragment s 4096 3)
    = bytes_of 2 3 ++ replicate 218 0.
Proof.
  intros s.
  assert (fStraxHeaderSize s = 24) as H1 by reflexivity.
  assert (2 ≤ fFragmentBytes s < 2 ^ 31 - 24) as H2
    by (vm_compute; split; [discriminate|reflexivity]).
  destruct (deadtime_fragment_layout s 4096 3 H1 H2)
    as (_ & _ & _ & Hc & _ & _ & _ & _ & _ & Hp).
  exact (conj H1 (conj H2 (conj Hc Hp))).
Defined.

(** ** The head of a channel *)

Lemma bind_Ok {A B : Type} (r : result A) (f : A → result B) (b : B) :
  r ≫= f = Ok b → ∃ a, r = Ok a ∧ f a = Ok b.
Proof. destruct r as [a|e]; [eauto|discriminate]. Qed.

Lemma reconcile_rollover_cases (channel_time header_time clock_counter : Z) :
  let cc := reconcile_rollover channel_time header_time clock_counter in
  (cc = clock_counter - 1
   ↔ channel_time > 1500000000 ∧ header_time < 500000000
     ∧ clock_counter ≠ 0)
  ∧ (cc = clock_counter + 1
     ↔ channel_time < 500000000 ∧ header_time > 1500000000)
  ∧ (cc = clock_counter
     ↔ ¬ (channel_time > 1500000000 ∧ header_time < 500000000
          ∧ clock_counter ≠ 0)
       ∧ ¬ (channel_time < 500000000 ∧ header_time > 1500000000)).
Proof.
  unfold reconcile_rollover.
  destruct (1500000000 <? channel_time) eqn:H1;
    destruct (header_time <? 500000000) eqn:H2;
    destruct (clock_counter =? 0) eqn:H3;
    destruct (channel_time <? 500000000) eqn:H4;
    destruct (1500000000 <? header_time) eqn:H5; cbn; lia.
Qed.

Lemma channel_head_short_header (fmt : gmap string Z) (buff : list Z)
    (words_in_event header_time event_time clock_counter channel_mask : Z)
    (h : ChannelHead) :
  0 < at_key fmt "channel_header_words" ≤ 2 →
  channel_head fmt buff words_in_event header_time event_time clock_counter
    channel_mask = Ok (Some h) →
  ∃ b1, read buff 1 = Ok b1
    ∧ channel_time h = Z.land b1 0x7FFFFFFF
    ∧ local_clock_counter h
      = reconcile_rollover (channel_time h) header_time clock_counter
    ∧ channel_timeMSB h = Z.shiftl (local_clock_counter h) 31.
Proof.
  intros Hhw H. unfold channel_head in H.
  destruct (popcount16 channel_mask =? 0); [discriminate|].
  destruct (0 <? at_key fmt "channel_header_words") eqn:Hpos; [|lia].
  apply bind_Ok in H as (b0 & _ & H).
  destruct (_ <? _) in H; [discriminate|].
  destruct (_ <=? _) in H; [discriminate|].
  apply bind_Ok in H as (b1 & Hb1 & H).
  apply bind_Ok in H as ([msb bl] & _ & H).
  destruct (at_key fmt "channel_header_words" <=? 2) eqn:Hle; [|lia].
  injection H as <-. cbn. eauto.
Qed.

(** C6.  For a channel with a channel header of at most two words, the
    local copy of the clock counter is one less exactly when
    [channel_time > 1.5e9], [header_time < 5e8] and the counter is not zero,
    one more exactly when [channel_time < 5e8] and [header_time > 1.5e9],
    and the same otherwise; the channel's [time_msb] is the local counter
    shifted left by 31.  In scenario 4 the counter becomes 4. *)
Theorem clock_counter_reconciled (fmt : gmap string Z) (buff : list Z)
    (words_in_event header_time event_time clock_counter channel_mask : Z)
    (h : ChannelHead) :
  0 < at_key fmt "channel_header_words" ≤ 2 →
  channel_head fmt buff words_in_event header_time event_time clock_counter
    channel_mask = Ok (Some h) →
  let cc := local_clock_counter h in
  (cc = clock_counter - 1
   ↔ channel_time h > 1500000000 ∧ header_time < 500000000
     ∧ clock_counter ≠ 0)
  ∧ (cc = clock_counter + 1
     ↔ channel_time h < 500000000 ∧ header_time > 1500000000)
  ∧ (cc = clock_counter
     ↔ ¬ (channel_time h > 1500000000 ∧ header_time < 500000000
          ∧ clock_counter ≠ 0)
       ∧ ¬ (channel_time h < 500000000 ∧ header_time > 1500000000))
  ∧ channel_timeMSB h = Z.shiftl cc 31
  ∧ (∃ b1, read buff 1 = Ok b1 ∧ channel_time h = Z.land b1 0x7FFFFFFF)
  ∧ reconcile_rollover 0x70000000 0x10000000 5 = 4.
Proof.
  intros Hhw H cc.
  destruct (channel_head_short_header _ _ _ _ _ _ _ _ Hhw H)
    as (b1 & Hb1 & Hct & Hcc & Hmsb).
  subst cc. rewrite Hmsb.
  pose proof (reconcile_rollover_cases (channel_time h) header_time
                clock_counter) as R.
  cbn zeta in R. rewrite <- Hcc in R.
  destruct R as (R1 & R2 & R3).
  split; [exact R1|]. split; [exact R2|]. split; [exact R3|].
  split; [reflexivity|]. split; [eauto|reflexivity].
Qed.



(** Scenario 4: header time [0x10000000], channel time [0x70000000] and a
    clock counter of 5 give a local counter of 4. *)
Lemma clock_counter_reconciled_witness :
  ∃ h, channel_head dpp_daw_firmware scenario4_channel 9 0x10000000 0 5 1
       = Ok (Some h)
    ∧ local_clock_counter h = 4
    ∧ (local_clock_counter h = 5 - 1
       ↔ channel_time h > 1500000000 ∧ 0x10000000 < 500000000 ∧ 5 ≠ 0)
    ∧ channel_timeMSB h = Z.shiftl 4 31.
Proof.
  eexists. split; [vm_compute; reflexivity|].
  split; [reflexivity|].
  assert (0 < at_key dpp_daw_firmware "channel_header_words" ≤ 2) as Hhw
    by (vm_compute; split; [reflexivity|discriminate]).
  assert (channel_head dpp_daw_firmware scenario4_channel 9 0x10000000 0 5 1
          = Ok (Some {| channel_words := 5; channel_time := 0x70000000;
                        channel_timeMSB := Z.shiftl 4 31; baseline_ch := 0;
                        local_clock_counter := 4 |})) as Hrun
    by (vm_compute; reflexivity).
  destruct (clock_counter_reconciled _ _ _ _ _ _ _ _ Hhw Hrun)
    as (R1 & _ & _ & Rm & _ & _).
  exact (conj R1 Rm).
Defined.

(** ** The board-fail bit *)

Lemma shiftl_31_lor (a b : Z) :
  0 ≤ b < 2 ^ 31 → Z.lor (Z.shiftl a 31) b = Z.shiftl a 31 + b.
Proof.
  intros Hb. symmetry. apply Z.add_nocarry_lor.
  apply Z.bits_inj'. intros n Hn.
  rewrite Z.land_spec, Z.bits_0.
  destruct (decide (n < 31)) as [Hlt|Hge].
  - rewrite Z.shiftl_spec_low by lia. reflexivity.
  - rewrite (Z.bits_above_log2 b n); [apply andb_false_r|lia|].
    destruct (decide (b = 0)) as [->|Hnz]; [cbn; lia|].
    apply Z.log2_lt_pow2; [lia|].
    assert (2 ^ 31 ≤ 2 ^ n) by (apply Z.pow_le_mono_r; lia). lia.
Qed.

Lemma land_31_range (x : Z) : 0 ≤ Z.land x 0x7FFFFFFF < 2 ^ 31.
Proof.
  change 0x7FFFFFFF with (Z.ones 31). rewrite Z.land_ones by lia.
  apply Z.mod_pos_bound. lia.
Qed.

Lemma AddFragmentToBuffer_Ok (fragment : list Z) (ts : Z)
    (s : StraxFormatter) :
  fFullChunkLength s ≠ 0 →
  ∃ s', AddFragmentToBuffer fragment ts s = Ok s'
    ∧ fTempBuffer s' = fTempBuffer s
    ∧ fDataPerChan s' = fDataPerChan s
    ∧ fFragmentsProcessed s' = fFragmentsProcessed s
    ∧ fEventsProcessed s' = fEventsProcessed s
    ∧ fFailCounter s' = fFailCounter s
    ∧ fDataSource s' = fDataSource s
    ∧ fFragmentBytes s' = fFragmentBytes s
    ∧ fStraxHeaderSize s' = fStraxHeaderSize s.
Proof.
  intros Hfull. unfold AddFragmentToBuffer.
  destruct (fFullChunkLength s =? 0) eqn:Hz; [lia|].
  destruct (negb _); eexists; (split; [reflexivity|]); cbn; repeat split.
Qed.

Lemma fill_loop_app (target : Z) (filler : list Z) :
  ∀ (fuel : nat) (fragment : list Z),
    ∃ rest, fill_loop fuel target filler fragment = fragment ++ rest.
Proof.
  induction fuel as [|fuel IH]; intros fragment.
  - exists []. cbn. rewrite app_nil_r. reflexivity.
  - cbn [fill_loop].
    destruct (to_signed 32 (Z.of_nat (length fragment)) <? target).
    + destruct (IH (fragment ++ filler)) as (rest & ->).
      exists (filler ++ rest). rewrite <- app_assoc. reflexivity.
    + exists []. rewrite app_nil_r. reflexivity.
Qed.

(** Whatever the sizes, the fragment of [GenerateArtificialDeadtime] starts
    with its timestamp and carries the label 790. *)
Lemma deadtime_fragment_head (s : StraxFormatter) (ts bid : Z) :
  frag_time (deadtime_fragment s ts bid) = to_unsigned 64 ts
  ∧ frag_channel (deadtime_fragment s ts bid) = 790.
Proof.
  unfold deadtime_fragment, zero_fill.
  match goal with
  | |- context [fill_loop ?n ?t ?fl ?fr] =>
      destruct (fill_loop_app t fl n fr) as (rest & ->)
  end.
  rewrite <- !app_assoc.
  match goal with
  | |- context [bytes_of 8 ?t ++ bytes_of 4 ?len ++ bytes_of 2 ?w
                ++ bytes_of 2 ?ch ++ bytes_of 4 ?pl ++ bytes_of 2 ?fi
                ++ bytes_of 2 ?bl ++ ?r] =>
      pose proof (fragment_fields t len w ch pl fi bl r) as F
  end.
  cbn zeta in F. destruct F as (Ft & _ & _ & Fc & _).
  split; [exact Ft|exact Fc].
Qed.

(** [GenerateArtificialDeadtime] appends its fragment under the keys of the
    timestamp, counts its bytes once and leaves the rest of the formatter
    alone. *)
Lemma GenerateArtificialDeadtime_appends (ts bid : Z) (s : StraxFormatter) :
  fFullChunkLength s ≠ 0 →
  ∃ s',
    GenerateArtificialDeadtime ts bid s = Ok s'
    ∧ (∀ k, fFragments s' !! k
            = if decide (k ∈ chunk_keys s ts)
              then Some (default [] (fFragments s !! k)
                         ++ deadtime_fragment s ts bid)
              else fFragments s !! k)
    ∧ fFragmentSize s'
      = fFragmentSize s + Z.of_nat (length (deadtime_fragment s ts bid))
    ∧ fTempBuffer s' = fTempBuffer s
    ∧ fDataPerChan s' = fDataPerChan s
    ∧ fFragmentsProcessed s' = fFragmentsProcessed s
    ∧ fEventsProcessed s' = fEventsProcessed s
    ∧ fFailCounter s' = fFailCounter s
    ∧ fDataSource s' = fDataSource s.
Proof.
  intros Hfull. unfold GenerateArtificialDeadtime.
  destruct (AddFragmentToBuffer_keys s (deadtime_fragment s ts bid) ts Hfull)
    as (s' & Hrun & _ & Hkeys).
  destruct (AddFragmentToBuffer_Ok (deadtime_fragment s ts bid) ts s Hfull)
    as (s2 & Hrun2 & Ht & Hd & Hp & He & Hf & Hc & _).
  rewrite Hrun in Hrun2. injection Hrun2 as <-.
  exists s'. split; [exact Hrun|]. split; [exact Hkeys|].
  split; [|auto 10].
  unfold AddFragmentToBuffer in Hrun.
  destruct (fFullChunkLength s =? 0); [discriminate|].
  destruct (negb _); injection Hrun as <-; reflexivity.
Qed.

(** C7.  An event whose second header word has bit [0x04000000] set makes
    [ProcessEvent] put exactly one artificial-deadtime fragment into the
    chunk buffers: a fragment of channel 790 stamped
    [((clock_counter << 31) | event_time) * ns_per_clock] is appended under
    the one or two keys of that time, every other key keeps its bytes, and
    the buffer size grows by the length of the one fragment,
    [payload_bytes + 24] with the header of 24 bytes.  The board is flagged
    for an error check, its fail counter goes up by one, no channel is
    decoded and 4 is returned. *)
Theorem ProcessEvent_board_fail (fuel : nat) (w0 w1 w2 w3 : Z)
    (rest : list Z) (total_words clock_counter header_time bid : Z)
    (s : StraxFormatter) :
  Z.land (to_unsigned 32 w1) 0x4000000 ≠ 0 →
  fFullChunkLength s ≠ 0 →
  let fmt := default ∅ (fFmt s !! bid) in
  let event_time := Z.land (to_unsigned 32 w3) 0x7FFFFFFF in
  let time :=
    to_signed 64 (Z.lor (Z.shiftl clock_counter 31) event_time
                  * at_key fmt "ns_per_clock") in
  let f := deadtime_fragment s time (to_signed 16 bid) in
  ∃ s',
    ProcessEvent fuel (w0 :: w1 :: w2 :: w3 :: rest) total_words
      clock_counter header_time bid s = Ok (Return 4, s')
    ∧ (∀ k, fFragments s' !! k
            = if decide (k ∈ chunk_keys s time)
              then Some (default [] (fFragments s !! k) ++ f)
              else fFragments s !! k)
    ∧ (length (chunk_keys s time) = 1 ∨ length (chunk_keys s time) = 2)%nat
    ∧ fFragmentSize s' = fFragmentSize s + Z.of_nat (length f)
    ∧ frag_time f = to_unsigned 64 time
    ∧ frag_channel f = 790
    ∧ (fStraxHeaderSize s = 24 → 2 ≤ fFragmentBytes s < 2 ^ 31 - 24 →
       Z.of_nat (length f) = fFragmentBytes s + 24)
    ∧ fCheckFails (fDataSource s') = <[bid := true]> (fCheckFails (fDataSource s))
    ∧ fFailCounter s'
      = <[bid := default 0 (fFailCounter s !! bid) + 1]> (fFailCounter s)
    ∧ fTempBuffer s' = fTempBuffer s
    ∧ fDataPerChan s' = fDataPerChan s
    ∧ fFragmentsProcessed s' = fFragmentsProcessed s
    ∧ fEventsProcessed s' = fEventsProcessed s + 1.
Proof.
  intros Hfail Hfull fmt event_time time f.
  set (s0 := set_fEventsProcessed (fEventsProcessed s + 1) s).
  destruct (GenerateArtificialDeadtime_appends time (to_signed 16 bid) s0 Hfull)
    as (s1 & Hs1 & Hkeys & Hsize & Ht & Hd & Hp & He & Hf & Hc).
  assert (deadtime_fragment s0 time (to_signed 16 bid) = f) as Ef
    by (unfold f, deadtime_fragment; reflexivity).
  assert (chunk_keys s0 time = chunk_keys s time) as Ek
    by (unfold chunk_keys, nextpre_of, chunk_id_of, GetStringFormat;
        reflexivity).
  rewrite Ef, Ek in Hkeys. rewrite Ef in Hsize.
  cbn [s0 fFragments fFragmentSize set_fEventsProcessed] in Hkeys, Hsize.
  assert (read (w0 :: w1 :: w2 :: w3 :: rest) 0 = Ok (to_unsigned 32 w0))
    as R0 by reflexivity.
  assert (read (w0 :: w1 :: w2 :: w3 :: rest) 1 = Ok (to_unsigned 32 w1))
    as R1 by reflexivity.
  assert (read (w0 :: w1 :: w2 :: w3 :: rest) 2 = Ok (to_unsigned 32 w2))
    as R2 by reflexivity.
  assert (read (w0 :: w1 :: w2 :: w3 :: rest) 3 = Ok (to_unsigned 32 w3))
    as R3 by reflexivity.
  assert (ProcessEvent fuel (w0 :: w1 :: w2 :: w3 :: rest) total_words
            clock_counter header_time bid s
          = Ok (Return 4,
                set_fFailCounter
                  (<[bid := default 0 (fFailCounter s !! bid) + 1]>
                     (fFailCounter s))
                  (set_fDataSource
                     (DAQController_CheckError bid (fDataSource s)) s1)))
    as Hrun.
  { unfold ProcessEvent. rewrite R0, R1, R2, R3. cbn [mbind result_bind].
    destruct (Z.land (to_unsigned 32 w1) 67108864 =? 0) eqn:Hbit; [lia|].
    destruct (at_key (default ∅ (fFmt s !! bid)) "channel_mask_msb_idx" =? -1).
    all: cbn [mbind result_bind negb].
    all: rewrite <- (shiftl_31_lor clock_counter
                       (Z.land (to_unsigned 32 w3) 2147483647))
           by apply land_31_range.
    all: fold event_time; fold fmt; fold time; fold s0.
    all: rewrite Hs1; cbn [mbind result_bind]; cbn; rewrite Hf, Hc;
      reflexivity. }
  destruct (deadtime_fragment_head s time (to_signed 16 bid)) as [Htime Hch].
  eexists. split; [exact Hrun|].
  cbn [fFragments fFragmentSize fDataSource fFailCounter fTempBuffer
       fDataPerChan fFragmentsProcessed fEventsProcessed fCheckFails
       set_fFailCounter set_fDataSource DAQController_CheckError].
  rewrite Ht, Hd, Hp, He.
  split; [exact Hkeys|].
  split; [unfold chunk_keys; destruct (nextpre_of s time); cbn [length]; auto|].
  split; [exact Hsize|].
  split; [exact Htime|].
  split; [exact Hch|].
  split; [intros Hhs Hfb; exact (length_deadtime_fragment s time _ Hhs Hfb)|].
  repeat split.
Qed.

(** Scenario 3: board 0 fails at event time [0x2000] with clock counter 7.
    The one fragment, of 244 bytes and stamped 150323937280 ns, goes to
    chunk 68. *)
Lemma ProcessEvent_board_fail_witness :
  let s := scenario_formatter 220 {[ 0 := default_firmware ]} in
  let f := deadtime_fragment s (10 * (7 * 2 ^ 31 + 0x2000)) 0 in
  ∃ s',
    ProcessEvent 1 scenario3_event 4 7 0x2000 0 s = Ok (Return 4, s')
    ∧ fFragments s' = {[ "000068" := f ]}
    ∧ fFragmentSize s' = 244
    ∧ frag_time f = 150323937280
    ∧ frag_channel f = 790
    ∧ fFailCounter s' = {[ 0 := 1 ]}
    ∧ fTempBuffer s' = [].
Proof.
  intros s f.
  assert (Z.land (to_unsigned 32 0x04000000) 0x4000000 ≠ 0) as H1
    by (vm_compute; discriminate).
  assert (fFullChunkLength s ≠ 0) as H2 by (vm_compute; discriminate).
  destruct (ProcessEvent_board_fail 1 0xA0000004 0x04000000 0 0x2000 []
              4 7 0x2000 0 s H1 H2)
    as (s' & Hrun & Hkeys & _ & Hsize & Htime & Hch & Hlen & _ & Hfc & Htb & _).
  cbn zeta in Hkeys, Hsize, Htime, Hch, Hlen.
  match type of Hch with
  | frag_channel (deadtime_fragment _ ?t ?b) = _ =>
      assert (t = 10 * (7 * 2 ^ 31 + 0x2000)) as Et by (vm_compute; reflexivity);
      assert (b = 0) as Eb by reflexivity;
      rewrite Et, Eb in Hkeys, Hsize, Htime, Hch, Hlen
  end.
  fold f in Hkeys, Hsize, Htime, Hch, Hlen.
  assert (chunk_keys s (10 * (7 * 2 ^ 31 + 0x2000)) = ["000068"]) as Ek
    by (vm_compute; reflexivity).
  rewrite Ek in Hkeys.
  exists s'. split; [exact Hrun|].
  split; [|split; [|split; [|split; [|split]]]].
  - apply map_eq. intros k. rewrite Hkeys.
    destruct (decide (k ∈ ["000068"])) as [Hin|Hout].
    + apply list_elem_of_singleton in Hin as ->.
      rewrite lookup_singleton_eq. reflexivity.
    + rewrite lookup_singleton_ne; [reflexivity|].
      intros <-. apply Hout, list_elem_of_singleton. reflexivity.
  - rewrite Hsize, Hlen;
      [reflexivity|reflexivity|vm_compute; split; [discriminate|reflexivity]].
  - rewrite Htime. reflexivity.
  - exact Hch.
  - exact Hfc.
  - exact Htb.
Defined.

(** ** The time of a channel *)

Lemma Time64_without_ns_per_clk (fmt : gmap string Z) (h : ChannelHead) :
  fmt !! "ns_per_clk" = None → Time64_of fmt h = 0.
Proof.
  intros Hkey. unfold Time64_of, at_key. rewrite Hkey. reflexivity.
Qed.

(** C1, at scenario 1.  [ProcessChannel] multiplies by the entry
    ["ns_per_clk"] of the board format; the format names its entry
    ["ns_per_clock"], as [ProcessEvent] reads it, so the factor is the 0
    that [operator[]] gives for an absent key and channel 0's fragment is
    stamped 0 ns where 40960 ns are due. *)
Theorem scenario1_fragment_time :
  ∃ f0 f1 s',
    ProcessEvent 2 scenario1_event 12 0 0x1000 0
      (scenario_formatter 16 {[ 0 := default_firmware ]}) = Ok (Return 12, s')
    ∧ fTempBuffer s' = [f0; f1]
    ∧ frag_channel f0 = 0
    ∧ frag_time f0 = 0
    ∧ frag_time f0 ≠ 10 * 0x1000
    ∧ at_key default_firmware "ns_per_clock" = 10
    ∧ default_firmware !! "ns_per_clk" = None.
Proof.
  eexists _, _, _. split; [vm_compute; reflexivity|].
  split; [reflexivity|].
  repeat split; try (vm_compute; congruence).
Qed.

(** Were the entry named as [ProcessChannel] reads it, the same event would
    be stamped 40960 ns. *)
Lemma scenario1_fragment_time_ns_per_clk :
  ∃ f0 f1 s',
    ProcessEvent 2 scenario1_event 12 0 0x1000 0
      (scenario_formatter 16
         {[ 0 := <["ns_per_clk" := 10]> default_firmware ]}) = Ok (Return 12, s')
    ∧ fTempBuffer s' = [f0; f1]
    ∧ frag_time f0 = 40960.
Proof.
  eexists _, _, _. split; [vm_compute; reflexivity|].
  split; reflexivity.
Qed.

(** ** The pulse of a channel *)

Section pulse.
Context (s : StraxFormatter) (fmt : gmap string Z) (buff : list Z)
        (h : ChannelHead) (label : Z) (p : Pulse).
Hypothesis Hhs : fStraxHeaderSize s = 24.
Hypothesis Hfb : 2 ≤ fFragmentBytes s < 2 ^ 31 - 25.
Hypothesis Hp : pulse_of s fmt buff h label = Ok p.

Lemma half_payload : 1 ≤ fFragmentBytes s `div` 2 < 2 ^ 30.
Proof.
  split; [apply Z.div_le_lower_bound; lia|apply Z.div_lt_upper_bound; lia].
Qed.

Lemma pulse_of_fields :
  payload p = payload_of buff (at_key fmt "channel_header_words")
  ∧ Time64 p = Time64_of fmt h
  ∧ samples_in_pulse p
    = to_unsigned 32
        (Z.shiftl (channel_words h - at_key fmt "channel_header_words") 1)
  ∧ sw p = to_unsigned 16 (at_key fmt "ns_per_sample")
  ∧ fragment_samples p = fFragmentBytes s `div` 2
  ∧ cl p = label
  ∧ baseline p = baseline_ch h
  ∧ num_frags p
    = to_signed 32
        (samples_in_pulse p `div` fragment_samples p
         + (if samples_in_pulse p `mod` fragment_samples p =? 0
            then 0 else 1)).
Proof.
  pose proof half_payload as Hhalf.
  unfold pulse_of in Hp.
  rewrite Z.shiftr_div_pow2 in Hp by lia. change (2 ^ 1) with 2 in Hp.
  rewrite (to_signed_small 32) in Hp by lia.
  rewrite (to_unsigned_small 32) in Hp by lia.
  destruct (fFragmentBytes s `div` 2 =? 0) eqn:Hz; [lia|].
  injection Hp as <-. cbn. repeat split.
Qed.

Lemma fragment_samples_range : 1 ≤ fragment_samples p < 2 ^ 30.
Proof.
  destruct pulse_of_fields as (_ & _ & _ & _ & -> & _). apply half_payload.
Qed.

Lemma samples_in_pulse_range : 0 ≤ samples_in_pulse p < 2 ^ 32.
Proof.
  destruct pulse_of_fields as (_ & _ & -> & _).
  apply to_unsigned_range. lia.
Qed.

(** The number of fragments, before it is stored in an [int]. *)
Lemma ceil_fragments :
  samples_in_pulse p `div` fragment_samples p
  + (if samples_in_pulse p `mod` fragment_samples p =? 0 then 0 else 1)
  = (samples_in_pulse p + fragment_samples p - 1) `div` fragment_samples p.
Proof.
  pose proof fragment_samples_range as Hfs.
  pose proof samples_in_pulse_range as HS.
  pose proof (Z.div_mod (samples_in_pulse p) (fragment_samples p)) as Hdm.
  pose proof (Z.mod_pos_bound (samples_in_pulse p) (fragment_samples p)) as Hm.
  destruct (_ =? 0) eqn:Hr.
  - apply Z.div_unique with (r := fragment_samples p - 1); lia.
  - apply Z.div_unique
      with (r := samples_in_pulse p `mod` fragment_samples p - 1); lia.
Qed.

Lemma num_frags_ceil :
  num_frags p
  = to_signed 32
      ((samples_in_pulse p + fragment_samples p - 1)
       `div` fragment_samples p).
Proof.
  destruct pulse_of_fields as (_ & _ & _ & _ & _ & _ & _ & ->).
  rewrite ceil_fragments. reflexivity.
Qed.

Lemma ceil_bounds :
  let n := (samples_in_pulse p + fragment_samples p - 1)
           `div` fragment_samples p in
  0 ≤ n ≤ samples_in_pulse p
  ∧ (n - 1) * fragment_samples p < samples_in_pulse p + (if n =? 0 then 1 else 0)
  ∧ samples_in_pulse p ≤ n * fragment_samples p.
Proof.
  pose proof fragment_samples_range as Hfs.
  pose proof samples_in_pulse_range as HS.
  intros n.
  pose proof (Z.div_mod (samples_in_pulse p + fragment_samples p - 1)
                (fragment_samples p)) as Hdm.
  pose proof (Z.mod_pos_bound (samples_in_pulse p + fragment_samples p - 1)
                (fragment_samples p)) as Hm.
  fold n in Hdm.
  assert (0 ≤ n) by (apply Z.div_pos; lia).
  destruct (n =? 0) eqn:Hn; nia.
Qed.

(** A positive [num_frags] is the number of fragments itself. *)
Lemma num_frags_positive :
  0 < num_frags p →
  num_frags p
  = (samples_in_pulse p + fragment_samples p - 1) `div` fragment_samples p.
Proof.
  pose proof samples_in_pulse_range as HS.
  pose proof ceil_bounds as (Hn & _). cbn zeta in Hn.
  rewrite num_frags_ceil.
  set (n := (samples_in_pulse p + fragment_samples p - 1)
            `div` fragment_samples p) in *.
  intros Hpos.
  destruct (decide (n < 2 ^ 31)) as [Hlt|Hge].
  - apply to_signed_small; lia.
  - exfalso. unfold to_signed in Hpos.
    change (2 ^ (32 - 1)) with 2147483648 in *.
    change (2 ^ 32) with 4294967296 in *.
    change (2 ^ 31) with 2147483648 in *.
    replace (n + 2147483648) with ((n - 2147483648) + 1 * 4294967296)
      in Hpos by lia.
    rewrite Z.mod_add in Hpos by lia.
    rewrite Z.mod_small in Hpos by lia. lia.
Qed.

Lemma samples_this_fragment_bounds (frag_i : Z) :
  0 ≤ frag_i < num_frags p →
  1 ≤ samples_this_fragment p frag_i ≤ fragment_samples p
  ∧ frag_i * fragment_samples p + samples_this_fragment p frag_i
    = (if frag_i =? num_frags p - 1 then samples_in_pulse p
       else (frag_i + 1) * fragment_samples p)
  ∧ frag_i * fragment_samples p + samples_this_fragment p frag_i
    ≤ samples_in_pulse p.
Proof.
  intros Hi.
  pose proof fragment_samples_range as Hfs.
  pose proof samples_in_pulse_range as HS.
  pose proof ceil_bounds as (Hn & Hlo & Hhi). cbn zeta in Hn, Hlo, Hhi.
  rewrite <- num_frags_positive in Hn, Hlo, Hhi by lia.
  destruct (num_frags p =? 0) eqn:Hz; [lia|].
  unfold samples_this_fragment.
  destruct (frag_i =? num_frags p - 1) eqn:Hlast.
  - assert (frag_i = num_frags p - 1) as -> by lia.
    rewrite (to_unsigned_small 32) by nia. nia.
  - rewrite (to_unsigned_small 32) by lia. nia.
Qed.
End pulse.

(** ** The fragment loop *)

Lemma emit_emit (a b : list (list Z)) (s : StraxFormatter) :
  emit b (emit a s) = emit (a ++ b) s.
Proof.
  destruct s. unfold emit, set_fTempBuffer, set_fFragmentsProcessed. cbn.
  rewrite <- app_assoc, length_app. f_equal. lia.
Qed.

Lemma emit_nil (s : StraxFormatter) : emit [] s = s.
Proof.
  destruct s. unfold emit, set_fTempBuffer, set_fFragmentsProcessed. cbn.
  rewrite app_nil_r, Z.add_0_r. reflexivity.
Qed.

Lemma read_bytes_Ok (mem : list Z) (off len : Z) (data : list Z) :
  read_bytes mem off len = Ok data
  ↔ 0 ≤ off ∧ 0 ≤ len ∧ off + len ≤ Z.of_nat (length mem)
    ∧ data = take (Z.to_nat len) (drop (Z.to_nat off) mem).
Proof.
  unfold read_bytes.
  destruct (0 <=? off) eqn:H1; destruct (0 <=? len) eqn:H2;
    destruct (off + len <=? Z.of_nat (length mem)) eqn:H3; cbn;
    split; try (intros H; discriminate H); try (intros ?; lia).
  - intros H. injection H as <-. repeat split; lia.
  - intros (_ & _ & _ & ->). reflexivity.
Qed.

Section fragments.
Context (s : StraxFormatter) (fmt : gmap string Z) (buff : list Z)
        (h : ChannelHead) (label : Z) (p : Pulse).
Hypothesis Hhs : fStraxHeaderSize s = 24.
Hypothesis Hfb : 2 ≤ fFragmentBytes s < 2 ^ 31 - 25.
Hypothesis Hp : pulse_of s fmt buff h label = Ok p.

Lemma length_fragment_header (frag_i : Z) :
  length (fragment_header p frag_i) = 24%nat.
Proof.
  unfold fragment_header.
  rewrite !length_app, !length_bytes_of by lia. reflexivity.
Qed.

(** A turn of the loop succeeds exactly when its samples lie in the
    buffer, and then it builds [fragment_of]. *)
Lemma build_fragment_Ok (st : StraxFormatter) (frag_i : Z) (f : list Z) :
  fFragmentBytes st = fFragmentBytes s →
  fStraxHeaderSize st = fStraxHeaderSize s →
  0 ≤ frag_i < num_frags p →
  build_fragment st p frag_i = Ok f
  ↔ 2 * (frag_i * fragment_samples p + samples_this_fragment p frag_i)
      ≤ Z.of_nat (length (payload p))
    ∧ f = fragment_of s p frag_i.
Proof.
  intros Hb Hs Hi.
  pose proof (fragment_samples_range s fmt buff h label p Hfb Hp) as Hfs.
  destruct (pulse_of_fields s fmt buff h label p Hfb Hp)
    as (_ & _ & _ & _ & Hhalf & _).
  pose proof (samples_this_fragment_bounds s fmt buff h label p Hfb Hp
                frag_i Hi) as (Hstf & _ & _).
  pose proof (Z.div_mod (fFragmentBytes s) 2) as Hdm.
  pose proof (Z.mod_pos_bound (fFragmentBytes s) 2) as Hm.
  unfold build_fragment. rewrite Hb, Hs, Hhs.
  rewrite (to_unsigned_small 32) by lia.
  rewrite (to_signed_small 32) by lia.
  destruct (read_bytes _ _ _) as [data|e] eqn:Hread.
  - apply read_bytes_Ok in Hread as (Hoff & Hlen & Hfit & ->).
    cbn [mbind result_bind].
    assert (length (samples_of p frag_i)
            = Z.to_nat (2 * samples_this_fragment p frag_i)) as Hdata.
    { unfold samples_of. rewrite length_take, length_drop. lia. }
    replace (samples_this_fragment p frag_i * 2)
      with (2 * samples_this_fragment p frag_i) by lia.
    fold (samples_of p frag_i).
    rewrite zero_fill_pairs.
    + rewrite length_app, length_fragment_header, Hdata.
      unfold fragment_of. rewrite <- app_assoc.
      replace (fFragmentBytes s + 24
               - Z.of_nat (24 + Z.to_nat (2 * samples_this_fragment p frag_i))
               + 1)
        with (fFragmentBytes s - 2 * samples_this_fragment p frag_i + 1)
        by lia.
      split.
      * intros H. injection H as <-. split; [lia|reflexivity].
      * intros [_ ->]. reflexivity.
    + lia.
    + rewrite length_app, length_fragment_header, Hdata. lia.
  - cbn [mbind result_bind]. split; [discriminate|].
    intros [Hfit _]. exfalso.
    assert (read_bytes (payload p) (2 * (frag_i * fragment_samples p))
              (samples_this_fragment p frag_i * 2)
            = Ok (take (Z.to_nat (samples_this_fragment p frag_i * 2))
                    (drop (Z.to_nat (2 * (frag_i * fragment_samples p)))
                       (payload p)))) as Hok.
    { apply read_bytes_Ok. repeat split; nia. }
    congruence.
Qed.

(** Whatever the fuel, a loop that ends has put fragments of the expected
    shape, and nothing else, into [fTempBuffer]. *)
Lemma fragment_loop_inv (fuel : nat) :
  ∀ (frag_i : Z) (st st' : StraxFormatter),
    fFragmentBytes st = fFragmentBytes s →
    fStraxHeaderSize st = fStraxHeaderSize s →
    0 ≤ frag_i →
    fragment_loop fuel p frag_i st = Ok st' →
    ∃ turns : list Z,
      st' = emit (fragment_of s p <$> turns) st
      ∧ Forall (λ j, 0 ≤ j < num_frags p
                     ∧ 2 * (j * fragment_samples p
                            + samples_this_fragment p j)
                       ≤ Z.of_nat (length (payload p))) turns.
Proof.
  induction fuel as [|fuel IH]; intros frag_i st st' Hb Hs Hi Hrun.
  - discriminate Hrun.
  - cbn [fragment_loop] in Hrun.
    destruct (frag_i <? num_frags p) eqn:Hguard.
    + apply bind_Ok in Hrun as (f & Hf & Hrun).
      apply (build_fragment_Ok _ frag_i f Hb Hs) in Hf as [Hfit ->];
        [|lia].
      apply IH in Hrun as (turns & -> & Hturns).
      * exists (frag_i :: turns). split.
        -- change (set_fTempBuffer _ _)
             with (emit [fragment_of s p frag_i] st).
           rewrite emit_emit. reflexivity.
        -- constructor; [split; [lia|exact Hfit]|exact Hturns].
      * exact Hb.
      * exact Hs.
      * apply to_unsigned_range. lia.
    + injection Hrun as <-. exists []. split; [|constructor].
      symmetry. apply emit_nil.
Qed.

(** With at most 65535 fragments to build and the samples in the buffer,
    the loop ends as soon as the fuel exceeds the number of turns. *)
Lemma fragment_loop_run (k : nat) :
  ∀ (frag_i : Z) (st : StraxFormatter) (fuel : nat),
    fFragmentBytes st = fFragmentBytes s →
    fStraxHeaderSize st = fStraxHeaderSize s →
    0 ≤ frag_i →
    frag_i + Z.of_nat k = num_frags p →
    num_frags p ≤ 65535 →
    2 * samples_in_pulse p ≤ Z.of_nat (length (payload p)) →
    (k < fuel)%nat →
    fragment_loop fuel p frag_i st
    = Ok (emit (fragment_of s p <$> seqZ frag_i (Z.of_nat k)) st).
Proof.
  induction k as [|k IH]; intros frag_i st fuel Hb Hs Hi Hn Hmax Hfit Hfuel;
    (destruct fuel as [|fuel]; [lia|]); cbn [fragment_loop].
  - destruct (frag_i <? num_frags p) eqn:Hguard; [lia|].
    cbn. rewrite emit_nil. reflexivity.
  - destruct (frag_i <? num_frags p) eqn:Hguard; [|lia].
    pose proof (samples_this_fragment_bounds s fmt buff h label p Hfb Hp
                  frag_i ltac:(lia)) as (_ & _ & Hsum).
    assert (build_fragment
              (set_fFragmentsProcessed (fFragmentsProcessed st + 1) st)
              p frag_i = Ok (fragment_of s p frag_i)) as ->.
    { apply build_fragment_Ok; [exact Hb|exact Hs|lia|].
      split; [lia|reflexivity]. }
    cbn [mbind result_bind].
    rewrite (to_unsigned_small 16) by lia.
    rewrite (IH (frag_i + 1)); try assumption; try lia.
    change (set_fTempBuffer _ _) with (emit [fragment_of s p frag_i] st).
    rewrite emit_emit. do 2 f_equal.
    rewrite (seqZ_cons frag_i) by lia. cbn [fmap list_fmap app].
    do 3 f_equal; lia.
Qed.

(** With more than 65535 fragments to build, the 16-bit counter wraps
    before it reaches [num_frags] and the loop never ends. *)
Lemma fragment_loop_diverges (fuel : nat) :
  65535 < num_frags p →
  ∀ (frag_i : Z) (st st' : StraxFormatter),
    0 ≤ frag_i < 65536 →
    fragment_loop fuel p frag_i st ≠ Ok st'.
Proof.
  intros Hmany. induction fuel as [|fuel IH]; intros frag_i st st' Hi Hrun.
  - discriminate Hrun.
  - cbn [fragment_loop] in Hrun.
    destruct (frag_i <? num_frags p) eqn:Hguard; [|lia].
    apply bind_Ok in Hrun as (f & _ & Hrun).
    apply IH in Hrun; [exact Hrun|].
    change 65536 with (2 ^ 16). apply to_unsigned_range. lia.
Qed.
End fragments.

(** ** The scan for a misplaced event header *)

Lemma read_Ok (buff : list Z) (i x : Z) :
  read buff i = Ok x
  ↔ 0 ≤ i ∧ ∃ w, buff !! Z.to_nat i = Some w ∧ x = to_unsigned 32 w.
Proof.
  unfold read. destruct (i <? 0) eqn:Hi.
  - split; [discriminate|lia].
  - destruct (buff !! Z.to_nat i) as [w|].
    + split.
      * intros H. injection H as <-. split; [lia|eauto].
      * intros (_ & w' & Hw & ->). congruence.
    + split; [discriminate|]. intros (_ & w' & Hw & _). discriminate.
Qed.

Lemma caen_scan_true (buff : list Z) (n : nat) :
  ∀ first w x : Z,
    0 ≤ first ≤ w → w < first + Z.of_nat n →
    buff !! Z.to_nat w = Some x →
    Z.shiftr (to_unsigned 32 x) 28 = 0xA →
    caen_scan buff first n = Ok true.
Proof.
  induction n as [|n IH]; intros first w x Hw Hn Hx Hsentinel; [lia|].
  cbn [caen_scan].
  assert (is_Some (buff !! Z.to_nat first)) as [y Hy].
  { apply lookup_lt_is_Some. apply lookup_lt_Some in Hx. lia. }
  assert (read buff first = Ok (to_unsigned 32 y)) as ->
    by (apply read_Ok; eauto with lia).
  cbn [mbind result_bind].
  destruct (Z.shiftr (to_unsigned 32 y) 28 =? 10) eqn:Hy10; [reflexivity|].
  apply (IH (first + 1) w x); try assumption; try lia.
  destruct (decide (w = first)) as [->|]; [|lia].
  rewrite Hx in Hy. injection Hy as <-. lia.
Qed.

Lemma caen_scan_false (buff : list Z) (n : nat) :
  ∀ first : Z,
    0 ≤ first →
    caen_scan buff first n = Ok false →
    n ≠ 0%nat → first + Z.of_nat n ≤ Z.of_nat (length buff).
Proof.
  induction n as [|n IH]; intros first Hfirst Hscan Hn; [congruence|].
  cbn [caen_scan] in Hscan.
  apply bind_Ok in Hscan as (x & Hx & Hscan).
  apply read_Ok in Hx as (_ & w & Hw & _).
  apply lookup_lt_Some in Hw.
  destruct (Z.shiftr x 28 =? 10); [discriminate|].
  destruct n as [|n]; [lia|].
  apply IH in Hscan; lia.
Qed.

Lemma caen_scan_clean (buff : list Z) (n : nat) :
  ∀ first : Z,
    0 ≤ first →
    (∀ i, (i < n)%nat →
       ∃ x, buff !! (Z.to_nat first + i)%nat = Some x
            ∧ Z.shiftr (to_unsigned 32 x) 28 ≠ 0xA) →
    caen_scan buff first n = Ok false.
Proof.
  induction n as [|n IH]; intros first Hfirst Hall; [reflexivity|].
  cbn [caen_scan].
  destruct (Hall 0%nat ltac:(lia)) as (x & Hx & Hclean).
  rewrite Nat.add_0_r in Hx.
  assert (read buff first = Ok (to_unsigned 32 x)) as ->
    by (apply read_Ok; eauto with lia).
  cbn [mbind result_bind].
  destruct (Z.shiftr (to_unsigned 32 x) 28 =? 10) eqn:Hx10; [lia|].
  apply IH; [lia|]. intros i Hi.
  destruct (Hall (S i) ltac:(lia)) as (y & Hy & Hyc).
  exists y. split; [|exact Hyc].
  rewrite <- Hy. f_equal. lia.
Qed.

(** ** The words of a channel *)

Lemma length_words_bytes (buff : list Z) :
  length (words_bytes buff) = (4 * length buff)%nat.
Proof.
  unfold words_bytes. induction buff as [|w buff IH]; [reflexivity|].
  cbn [flat_map]. rewrite length_app, IH, length_bytes_of by lia. cbn. lia.
Qed.

Lemma land_23_range (x : Z) : 0 ≤ Z.land x 0x7FFFFF < 2 ^ 23.
Proof.
  change 0x7FFFFF with (Z.ones 23). rewrite Z.land_ones by lia.
  apply Z.mod_pos_bound. lia.
Qed.

Lemma channel_head_words (fmt : gmap string Z) (buff : list Z)
    (words_in_event header_time event_time clock_counter channel_mask : Z)
    (h : ChannelHead) :
  0 ≤ at_key fmt "channel_header_words" →
  channel_head fmt buff words_in_event header_time event_time clock_counter
    channel_mask = Ok (Some h) →
  at_key fmt "channel_header_words" ≤ channel_words h < 2 ^ 32.
Proof.
  intros Hhw H. unfold channel_head in H.
  destruct (popcount16 channel_mask =? 0) eqn:Hpop; [discriminate|].
  assert (0 < popcount16 channel_mask) as Hpos by (unfold popcount16 in *; lia).
  destruct (0 <? at_key fmt "channel_header_words") eqn:Hdpp.
  - apply bind_Ok in H as (b0 & _ & H).
    pose proof (land_23_range b0) as H23.
    destruct (_ <? _) eqn:Hgarbled in H; [discriminate|].
    destruct (_ <=? _) eqn:Hempty in H; [discriminate|].
    assert (Z.land b0 8388607 `min` words_in_event = Z.land b0 8388607)
      as Hcw by lia.
    rewrite Hcw in *.
    rewrite (to_signed_small 32) in Hempty by lia.
    apply bind_Ok in H as (b1 & _ & H).
    apply bind_Ok in H as ([msb bl] & _ & H).
    destruct (_ <=? 2) in H; injection H as <-; cbn; lia.
  - injection H as <-. cbn.
    pose proof (to_unsigned_range 32 (words_in_event - 4) ltac:(lia)) as Hu.
    split.
    + assert (0 ≤ to_unsigned 32 (words_in_event - 4)
                  `div` popcount16 channel_mask)
        by (apply Z.div_pos; lia). lia.
    + apply Z.div_lt_upper_bound; [lia|]. nia.
Qed.

(** ** The ways [ProcessChannel] ends *)

Lemma AddFragmentToBuffer_settings (fragment : list Z) (ts : Z)
    (s s' : StraxFormatter) :
  AddFragmentToBuffer fragment ts s = Ok s' →
  settings s' = settings s ∧ fTempBuffer s' = fTempBuffer s.
Proof.
  unfold AddFragmentToBuffer.
  destruct (fFullChunkLength s =? 0); [discriminate|].
  destruct (negb _); intros H; injection H as <-; split; reflexivity.
Qed.

Lemma fragment_loop_settings (fuel : nat) (p : Pulse) :
  ∀ (frag_i : Z) (st st' : StraxFormatter),
    fragment_loop fuel p frag_i st = Ok st' → settings st' = settings st.
Proof.
  induction fuel as [|fuel IH]; intros frag_i st st' Hrun; [discriminate|].
  cbn [fragment_loop] in Hrun.
  destruct (frag_i <? num_frags p).
  - apply bind_Ok in Hrun as (f & _ & Hrun).
    apply IH in Hrun. rewrite Hrun. reflexivity.
  - injection Hrun as <-. reflexivity.
Qed.

Section channel.
Context (fuel : nat) (buff : list Z)
        (words_in_event bid channel header_time event_time clock_counter
           channel_mask : Z)
        (s : StraxFormatter).

Let fmt := default ∅ (fFmt s !! bid).
Let first := to_unsigned 32 (at_key fmt "channel_header_words").
Let head := channel_head fmt buff words_in_event header_time event_time
              clock_counter channel_mask.
Let run := ProcessChannel fuel buff words_in_event bid channel header_time
             event_time clock_counter channel_mask s.

Lemma ProcessChannel_refused : head = Ok None → run = Ok (Return (-1), s).
Proof.
  intros Hhead. subst run. unfold ProcessChannel. fold fmt. fold head.
  rewrite Hhead. reflexivity.
Qed.

Lemma ProcessChannel_scanned (h : ChannelHead) :
  head = Ok (Some h) →
  caen_scan buff first (Z.to_nat (channel_words h - first)) = Ok true →
  run = GenerateArtificialDeadtime (Time64_of fmt h) (to_signed 16 bid) s
        ≫= λ s', Ok (Return (-1), s').
Proof.
  intros Hhead Hscan. subst run. unfold ProcessChannel. fold fmt. fold head.
  rewrite Hhead. cbn [mbind result_bind]. fold first. rewrite Hscan.
  reflexivity.
Qed.

Lemma ProcessChannel_unmapped (h : ChannelHead) :
  head = Ok (Some h) →
  caen_scan buff first (Z.to_nat (channel_words h - first)) = Ok false →
  channel_label s bid channel = -1 →
  run = Ok (Throw, s).
Proof.
  intros Hhead Hscan Hlabel. subst run. unfold ProcessChannel.
  fold fmt. fold head.
  rewrite Hhead. cbn [mbind result_bind]. fold first. rewrite Hscan.
  cbn [mbind result_bind]. rewrite Hlabel. reflexivity.
Qed.

Lemma ProcessChannel_decoded (h : ChannelHead) :
  head = Ok (Some h) →
  caen_scan buff first (Z.to_nat (channel_words h - first)) = Ok false →
  channel_label s bid channel ≠ -1 →
  run = pulse_of s fmt buff h (channel_label s bid channel) ≫= λ p,
        fragment_loop fuel p 0 s ≫= λ s1,
        Ok (Return (to_signed 32 (channel_words h)),
            set_fDataPerChan
              (<[channel_label s bid channel :=
                   to_signed 32
                     (default 0
                        (fDataPerChan s1 !! channel_label s bid channel)
                      + to_unsigned 32 (Z.shiftl (samples_in_pulse p) 1))]>
                 (fDataPerChan s1)) s1).
Proof.
  intros Hhead Hscan Hlabel. subst run. unfold ProcessChannel.
  fold fmt. fold head.
  rewrite Hhead. cbn [mbind result_bind]. fold first. rewrite Hscan.
  cbn [mbind result_bind].
  destruct (channel_label s bid channel =? -1) eqn:Hl; [lia|].
  reflexivity.
Qed.

(** Every way [ProcessChannel] can end. *)
Lemma ProcessChannel_cases (r : completion) (s' : StraxFormatter) :
  run = Ok (r, s') →
  (head = Ok None ∧ r = Return (-1) ∧ s' = s)
  ∨ (∃ h, head = Ok (Some h)
       ∧ caen_scan buff first (Z.to_nat (channel_words h - first)) = Ok true
       ∧ r = Return (-1)
       ∧ GenerateArtificialDeadtime (Time64_of fmt h) (to_signed 16 bid) s
         = Ok s')
  ∨ (∃ h, head = Ok (Some h)
       ∧ caen_scan buff first (Z.to_nat (channel_words h - first)) = Ok false
       ∧ channel_label s bid channel = -1 ∧ r = Throw ∧ s' = s)
  ∨ (∃ h p s1, head = Ok (Some h)
       ∧ caen_scan buff first (Z.to_nat (channel_words h - first)) = Ok false
       ∧ channel_label s bid channel ≠ -1
       ∧ pulse_of s fmt buff h (channel_label s bid channel) = Ok p
       ∧ fragment_loop fuel p 0 s = Ok s1
       ∧ r = Return (to_signed 32 (channel_words h))
       ∧ fTempBuffer s' = fTempBuffer s1
       ∧ fFragments s' = fFragments s1
       ∧ settings s' = settings s1).
Proof.
  intros Hrun.
  destruct head as [[h|]|e] eqn:Hhead.
  - destruct (caen_scan buff first (Z.to_nat (channel_words h - first)))
      as [[|]|e] eqn:Hscan.
    + right. left. exists h.
      rewrite (ProcessChannel_scanned h Hhead Hscan) in Hrun.
      apply bind_Ok in Hrun as (s2 & Hdead & Hret).
      injection Hret as <- <-. auto.
    + destruct (decide (channel_label s bid channel = -1)) as [Hl|Hl].
      * right. right. left. exists h.
        rewrite (ProcessChannel_unmapped h Hhead Hscan Hl) in Hrun.
        injection Hrun as <- <-. auto.
      * right. right. right.
        rewrite (ProcessChannel_decoded h Hhead Hscan Hl) in Hrun.
        apply bind_Ok in Hrun as (p & Hp & Hrun).
        apply bind_Ok in Hrun as (s1 & Hloop & Hret).
        injection Hret as <- <-.
        exists h, p, s1. repeat split; assumption.
    + exfalso. subst run. unfold ProcessChannel in Hrun.
      fold fmt in Hrun. fold head in Hrun. rewrite Hhead in Hrun.
      cbn [mbind result_bind] in Hrun. fold first in Hrun.
      rewrite Hscan in Hrun. discriminate Hrun.
  - left. rewrite (ProcessChannel_refused Hhead) in Hrun.
    injection Hrun as <- <-. auto.
  - exfalso. subst run. unfold ProcessChannel in Hrun.
    fold fmt in Hrun. fold head in Hrun. rewrite Hhead in Hrun.
    discriminate Hrun.
Qed.

Lemma ProcessChannel_settings (r : completion) (s' : StraxFormatter) :
  run = Ok (r, s') → settings s' = settings s.
Proof.
  intros Hrun.
  destruct (ProcessChannel_cases r s' Hrun)
    as [(_ & _ & ->)|[(h & _ & _ & _ & Hdead)|[(h & _ & _ & _ & _ & ->)
        |(h & p & s1 & _ & _ & _ & _ & Hloop & _ & _ & _ & Hset)]]].
  - reflexivity.
  - apply AddFragmentToBuffer_settings in Hdead as [Hset _]. exact Hset.
  - reflexivity.
  - rewrite Hset. exact (fragment_loop_settings _ _ _ _ _ Hloop).
Qed.
End channel.

(** ** A misplaced event header in the payload *)

(** C8.  When a payload word [w] of a channel has [(w >> 28) == 0xA],
    [ProcessChannel] puts exactly one artificial-deadtime fragment into the
    chunk buffers: a fragment of channel 790 stamped with the [Time64] that
    the code computes for the channel is appended under the one or two keys
    of that time, every other key keeps its bytes, and the buffer size
    grows by the length of the one fragment, [payload_bytes + 24] with the
    header of 24 bytes.  No data fragment goes into [fTempBuffer], no bytes
    are counted for the channel, and -1 is returned, on which the channel
    loop of [ProcessEvent] stops without visiting the channels that
    remain. *)
Theorem ProcessChannel_caened (fuel : nat) (buff : list Z)
    (words_in_event bid channel header_time event_time clock_counter
       channel_mask : Z)
    (s : StraxFormatter) (h : ChannelHead) (w x : Z) :
  let fmt := default ∅ (fFmt s !! bid) in
  let first := to_unsigned 32 (at_key fmt "channel_header_words") in
  let time := Time64_of fmt h in
  let f := deadtime_fragment s time (to_signed 16 bid) in
  channel_head fmt buff words_in_event header_time event_time clock_counter
    channel_mask = Ok (Some h) →
  first ≤ w < channel_words h →
  buff !! Z.to_nat w = Some x →
  Z.shiftr (to_unsigned 32 x) 28 = 0xA →
  fFullChunkLength s ≠ 0 →
  ∃ s',
    ProcessChannel fuel buff words_in_event bid channel header_time
      event_time clock_counter channel_mask s = Ok (Return (-1), s')
    ∧ (∀ k, fFragments s' !! k
            = if decide (k ∈ chunk_keys s time)
              then Some (default [] (fFragments s !! k) ++ f)
              else fFragments s !! k)
    ∧ (length (chunk_keys s time) = 1 ∨ length (chunk_keys s time) = 2)%nat
    ∧ fFragmentSize s' = fFragmentSize s + Z.of_nat (length f)
    ∧ frag_time f = to_unsigned 64 time
    ∧ frag_channel f = 790
    ∧ (fStraxHeaderSize s = 24 → 2 ≤ fFragmentBytes s < 2 ^ 31 - 24 →
       Z.of_nat (length f) = fFragmentBytes s + 24)
    ∧ fTempBuffer s' = fTempBuffer s
    ∧ fFragmentsProcessed s' = fFragmentsProcessed s
    ∧ fDataPerChan s' = fDataPerChan s
    ∧ ∀ (event : list Z) (idx : Z) (remaining : list Z),
        drop (Z.to_nat idx) event = buff →
        Z.land channel_mask (Z.shiftl 1 channel) ≠ 0 →
        channel_loop fuel event words_in_event bid header_time event_time
          clock_counter channel_mask (channel :: remaining) idx s
        = Ok (Return idx, s').
Proof.
  intros fmt first time f Hhead Hw Hx Hsentinel Hfull.
  destruct (GenerateArtificialDeadtime_appends time (to_signed 16 bid) s Hfull)
    as (s' & Hdead & Hkeys & Hsize & Htemp & Hdata & Hproc & _).
  fold f in Hkeys, Hsize.
  assert (0 ≤ first) as Hfirst by (apply to_unsigned_range; lia).
  assert (caen_scan buff first (Z.to_nat (channel_words h - first)) = Ok true)
    as Hscan by (apply (caen_scan_true buff _ first w x); try assumption; lia).
  assert (ProcessChannel fuel buff words_in_event bid channel header_time
            event_time clock_counter channel_mask s = Ok (Return (-1), s'))
    as Hrun.
  { rewrite (ProcessChannel_scanned fuel buff words_in_event bid channel
               header_time event_time clock_counter channel_mask s h
               Hhead Hscan).
    fold fmt. fold time. rewrite Hdead. reflexivity. }
  destruct (deadtime_fragment_head s time (to_signed 16 bid)) as [Htime Hch].
  exists s'.
  split; [exact Hrun|].
  split; [exact Hkeys|].
  split; [unfold chunk_keys; destruct (nextpre_of s time); cbn [length]; auto|].
  split; [exact Hsize|].
  split; [exact Htime|].
  split; [exact Hch|].
  split; [intros Hhs Hfb; exact (length_deadtime_fragment s time _ Hhs Hfb)|].
  split; [exact Htemp|].
  split; [exact Hproc|].
  split; [exact Hdata|].
  intros event idx remaining Hdrop Hbit.
  cbn [channel_loop].
  destruct (Z.land channel_mask (Z.shiftl 1 channel) =? 0) eqn:Hb; [lia|].
  rewrite Hdrop, Hrun. reflexivity.
Qed.

(** A channel whose word 3 is [0xA0030004], on a board with a two-word
    channel header: the one fragment, of 244 bytes, is all that the chunk
    buffers hold afterwards.  Its stamp is the channel's [Time64], which is
    0 for a format that has no entry ["ns_per_clk"]. *)
Lemma ProcessChannel_caened_witness :
  let s := scenario_formatter 220 {[ 0 := dpp_daw_firmware ]} in
  let h := {| channel_words := 5; channel_time := 0x1000;
              channel_timeMSB := 0; baseline_ch := 0;
              local_clock_counter := 0 |} in
  let f := deadtime_fragment s (Time64_of dpp_daw_firmware h) 0 in
  ∃ s',
    ProcessChannel 1 caened_channel 9 0 0 0x1000 0 0 1 s
    = Ok (Return (-1), s')
    ∧ fFragments s' = {[ "000000" := f ]}
    ∧ fFragmentSize s' = 244
    ∧ frag_time f = 0
    ∧ frag_channel f = 790
    ∧ fTempBuffer s' = [].
Proof.
  intros s h f.
  assert (channel_head dpp_daw_firmware caened_channel 9 0x1000 0 0 1
          = Ok (Some h)) as Hhead
    by (vm_compute; reflexivity).
  assert (to_unsigned 32 (at_key dpp_daw_firmware "channel_header_words")
          ≤ 3 < 5) as Hw by (vm_compute; split; [discriminate|reflexivity]).
  assert (caened_channel !! Z.to_nat 3 = Some 0xA0030004) as Hx
    by reflexivity.
  assert (Z.shiftr (to_unsigned 32 0xA0030004) 28 = 0xA) as Hmark
    by reflexivity.
  assert (fFullChunkLength s ≠ 0) as Hfull by (vm_compute; discriminate).
  destruct (ProcessChannel_caened 1 caened_channel 9 0 0 0x1000 0 0 1 s h 3
              0xA0030004 Hhead Hw Hx Hmark Hfull)
    as (s' & Hrun & Hkeys & _ & Hsize & Htime & Hch & Hlen & Htemp & _).
  cbn zeta in Hkeys, Hsize, Htime, Hch, Hlen.
  match type of Hch with
  | frag_channel (deadtime_fragment _ ?t ?b) = _ =>
      change t with (Time64_of dpp_daw_firmware h)
        in Hkeys, Hsize, Htime, Hch, Hlen;
      change b with 0 in Hkeys, Hsize, Htime, Hch, Hlen
  end.
  fold f in Hkeys, Hsize, Htime, Hch, Hlen.
  assert (chunk_keys s (Time64_of dpp_daw_firmware h) = ["000000"]) as Ek
    by (vm_compute; reflexivity).
  rewrite Ek in Hkeys.
  exists s'. split; [exact Hrun|].
  split; [|split; [|split; [|split]]].
  - apply map_eq. intros k. rewrite Hkeys.
    destruct (decide (k ∈ ["000000"])) as [Hin|Hout].
    + apply list_elem_of_singleton in Hin as ->.
      rewrite lookup_singleton_eq. reflexivity.
    + rewrite lookup_singleton_ne; [reflexivity|].
      intros <-. apply Hout, list_elem_of_singleton. reflexivity.
  - rewrite Hsize, Hlen;
      [reflexivity|reflexivity|vm_compute; split; [discriminate|reflexivity]].
  - rewrite Htime. reflexivity.
  - exact Hch.
  - exact Htemp.
Defined.

(** ** The channel map *)








(** ** The data fragments *)

Section data_fragment.
Context (s : StraxFormatter) (fmt : gmap string Z) (buff : list Z)
        (h : ChannelHead) (label : Z) (p : Pulse).
Hypothesis Hhs : fStraxHeaderSize s = 24.
Hypothesis Hfb : 2 ≤ fFragmentBytes s < 2 ^ 31 - 25.
Hypothesis Hp : pulse_of s fmt buff h label = Ok p.

Lemma fragment_of_fields (frag_i : Z) :
  0 ≤ frag_i < num_frags p →
  2 * (frag_i * fragment_samples p + samples_this_fragment p frag_i)
    ≤ Z.of_nat (length (payload p)) →
  let f := fragment_of s p frag_i in
  let zeros := (2 * Z.to_nat ((fFragmentBytes s
                     - 2 * samples_this_fragment p frag_i + 1) `div` 2))%nat in
  frag_time f
    = to_unsigned 64 (Time64 p + fragment_samples p * sw p * frag_i)
  ∧ frag_length f = samples_this_fragment p frag_i
  ∧ frag_sample_width f = sw p
  ∧ frag_channel f = to_unsigned 16 (cl p)
  ∧ frag_pulse_length f = samples_in_pulse p
  ∧ frag_index f = to_unsigned 16 frag_i
  ∧ frag_baseline f = to_unsigned 16 (baseline p)
  ∧ frag_payload f = samples_of p frag_i ++ replicate zeros 0
  ∧ length (samples_of p frag_i)
    = Z.to_nat (2 * samples_this_fragment p frag_i)
  ∧ length f
    = (24 + Z.to_nat (2 * samples_this_fragment p frag_i) + zeros)%nat.
Proof.
  intros Hi Hfit f zeros.
  pose proof (fragment_samples_range s fmt buff h label p Hfb Hp) as Hfs.
  pose proof (samples_in_pulse_range s fmt buff h label p Hfb Hp) as HS.
  pose proof (samples_this_fragment_bounds s fmt buff h label p Hfb Hp
                frag_i Hi) as (Hstf & _ & _).
  destruct (pulse_of_fields s fmt buff h label p Hfb Hp)
    as (_ & _ & _ & Hsw & _).
  assert (length (samples_of p frag_i)
          = Z.to_nat (2 * samples_this_fragment p frag_i)) as Hdata.
  { unfold samples_of. rewrite length_take, length_drop. lia. }
  pose proof (fragment_fields
                (Time64 p + fragment_samples p * sw p * frag_i)
                (samples_this_fragment p frag_i) (sw p) (cl p)
                (samples_in_pulse p) frag_i (baseline p)
                (samples_of p frag_i ++ replicate zeros 0)) as F.
  cbn zeta in F.
  assert (f = bytes_of 8 (Time64 p + fragment_samples p * sw p * frag_i)
              ++ bytes_of 4 (samples_this_fragment p frag_i)
              ++ bytes_of 2 (sw p) ++ bytes_of 2 (cl p)
              ++ bytes_of 4 (samples_in_pulse p) ++ bytes_of 2 frag_i
              ++ bytes_of 2 (baseline p)
              ++ samples_of p frag_i ++ replicate zeros 0) as Hf.
  { subst f. unfold fragment_of, fragment_header.
    rewrite <- !app_assoc. reflexivity. }
  rewrite <- Hf in F.
  destruct F as (Ft & Fl & Fw & Fc & Fp & Fi & Fb & Fr).
  rewrite Ft, Fl, Fw, Fc, Fp, Fi, Fb, Fr.
  rewrite !(to_unsigned_small 32) by lia.
  rewrite (to_unsigned_small 16 (sw p))
    by (rewrite Hsw; apply to_unsigned_range; lia).
  repeat split; try assumption.
  subst f. unfold fragment_of.
  rewrite !length_app, length_fragment_header, Hdata, length_replicate.
  lia.
Qed.

(** The time in the header of the first fragment of a channel is its
    [Time64], which [ProcessChannel] takes from the entry ["ns_per_clk"]. *)
Lemma first_fragment_time :
  0 < num_frags p →
  2 * samples_this_fragment p 0 ≤ Z.of_nat (length (payload p)) →
  frag_time (fragment_of s p 0)
  = to_unsigned 64
      (to_signed 64
         (at_key fmt "ns_per_clk" * (channel_timeMSB h + channel_time h))).
Proof.
  intros Hn Hfit.
  destruct (fragment_of_fields 0 ltac:(lia) ltac:(lia)) as (Ht & _).
  destruct (pulse_of_fields s fmt buff h label p Hfb Hp) as (_ & HT & _).
  rewrite Ht, HT, Z.mul_0_r, Z.add_0_r. reflexivity.
Qed.

(** With an even payload size the filling loop stops at the full size. *)
Lemma fragment_of_size (frag_i : Z) :
  Z.even (fFragmentBytes s) = true →
  0 ≤ frag_i < num_frags p →
  2 * (frag_i * fragment_samples p + samples_this_fragment p frag_i)
    ≤ Z.of_nat (length (payload p)) →
  let f := fragment_of s p frag_i in
  Z.of_nat (length f) = fFragmentBytes s + 24
  ∧ drop (24 + Z.to_nat (2 * frag_length f)) f
    = replicate (Z.to_nat (fFragmentBytes s - 2 * frag_length f)) 0.
Proof.
  intros Heven Hi Hfit f.
  destruct (fragment_of_fields frag_i Hi Hfit)
    as (_ & Hl & _ & _ & _ & _ & _ & Hpay & Hdata & Hlen).
  fold f in Hl, Hpay, Hlen.
  pose proof (fragment_samples_range s fmt buff h label p Hfb Hp) as Hfs.
  pose proof (samples_this_fragment_bounds s fmt buff h label p Hfb Hp
                frag_i Hi) as (Hstf & _ & _).
  destruct (pulse_of_fields s fmt buff h label p Hfb Hp)
    as (_ & _ & _ & _ & Hhalf & _).
  apply Z.even_spec in Heven as [half Hhalf2].
  assert (fFragmentBytes s `div` 2 = half) as Hdiv
    by (rewrite Hhalf2, Z.mul_comm, Z.div_mul; lia).
  assert ((fFragmentBytes s - 2 * samples_this_fragment p frag_i + 1) `div` 2
          = half - samples_this_fragment p frag_i) as Hz.
  { symmetry. apply Z.div_unique with (r := 1); lia. }
  rewrite Hz in Hpay, Hlen. rewrite Hl. split; [lia|].
  unfold frag_payload in Hpay.
  rewrite <- drop_drop, Hpay, drop_app_length'; [|symmetry; exact Hdata].
  f_equal. lia.
Qed.
End data_fragment.

(** ** The size of a fragment *)

(** C3, as the code has it.  With an even payload size of at least two
    bytes, every fragment the formatter hands over is [payload_bytes + 24]
    bytes long: the artificial-deadtime fragment that goes to the chunk
    buffer, and every data fragment [ProcessChannel] puts into
    [fTempBuffer], in which all bytes behind the samples are zero. *)
Theorem fragments_have_full_size (s : StraxFormatter) :
  fStraxHeaderSize s = 24 →
  2 ≤ fFragmentBytes s < 2 ^ 31 - 25 →
  Z.even (fFragmentBytes s) = true →
  (∀ timestamp bid,
     Z.of_nat (length (deadtime_fragment s timestamp bid))
     = fFragmentBytes s + 24)
  ∧ ∀ (fuel : nat) (buff : list Z)
      (words_in_event bid channel header_time event_time clock_counter
         channel_mask : Z)
      (r : completion) (s' : StraxFormatter),
      ProcessChannel fuel buff words_in_event bid channel header_time
        event_time clock_counter channel_mask s = Ok (r, s') →
      (fFragments s' = fFragments s
       ∨ ∃ timestamp,
           GenerateArtificialDeadtime timestamp (to_signed 16 bid) s = Ok s')
      ∧ ∃ frags,
          fTempBuffer s' = fTempBuffer s ++ frags
          ∧ Forall
              (λ f, Z.of_nat (length f) = fFragmentBytes s + 24
                    ∧ drop (24 + Z.to_nat (2 * frag_length f)) f
                      = replicate
                          (Z.to_nat (fFragmentBytes s - 2 * frag_length f)) 0)
              frags.
Proof.
  intros Hhs Hfb Heven. split.
  - intros timestamp bid.
    apply length_deadtime_fragment; [exact Hhs|lia].
  - intros fuel buff words_in_event bid channel header_time event_time
      clock_counter channel_mask r s' Hrun.
    destruct (ProcessChannel_cases _ _ _ _ _ _ _ _ _ _ _ _ Hrun)
      as [(_ & _ & ->)|[(h & _ & _ & _ & Hdead)|[(h & _ & _ & _ & _ & ->)
          |(h & p & s1 & _ & _ & _ & Hp & Hloop & _ & Htemp & Hfrag & _)]]].
    + split; [left; reflexivity|].
      exists []. rewrite app_nil_r. split; [reflexivity|constructor].
    + split; [right; eauto|].
      apply AddFragmentToBuffer_settings in Hdead as [_ Htemp].
      exists []. rewrite app_nil_r. split; [exact Htemp|constructor].
    + split; [left; reflexivity|].
      exists []. rewrite app_nil_r. split; [reflexivity|constructor].
    + destruct (fragment_loop_inv s _ buff h _ p Hhs Hfb Hp fuel 0 s s1
                  eq_refl eq_refl ltac:(lia) Hloop) as (turns & -> & Hturns).
      split; [left; exact Hfrag|].
      exists (fragment_of s p <$> turns). split; [exact Htemp|].
      apply Forall_fmap. eapply Forall_impl; [exact Hturns|].
      intros j [Hj Hfit]. cbn.
      eapply fragment_of_size; eassumption.
Qed.

(** C3 as the specification states it does not hold for a payload size of
    3 bytes: the filling loop adds two bytes at a time, and the first
    fragment of scenario 1 comes out 28 bytes long. *)
Lemma odd_payload_size_overshoots :
  ∃ f frags s',
    ProcessEvent 9 scenario1_event 12 0 0x1000 0
      (scenario_formatter 3 {[ 0 := default_firmware ]}) = Ok (Return 12, s')
    ∧ fTempBuffer s' = f :: frags
    ∧ Z.of_nat (length f) = 28
    ∧ Z.of_nat (length f) ≠ 3 + 24.
Proof.
  eexists _, _, _. split; [vm_compute; reflexivity|].
  split; [reflexivity|]. split; [reflexivity|discriminate].
Qed.

(** Channel 0 of scenario 1, with a payload size of 16 bytes. *)
Lemma fragments_have_full_size_witness :
  let s := scenario_formatter 16 {[ 0 := default_firmware ]} in
  fStraxHeaderSize s = 24
  ∧ 2 ≤ fFragmentBytes s < 2 ^ 31 - 25
  ∧ Z.even (fFragmentBytes s) = true
  ∧ Z.of_nat (length (deadtime_fragment s 4096 0)) = 16 + 24
  ∧ ∃ s' f,
      ProcessChannel 2 (drop 4 scenario1_event) 12 0 0 0x1000 0x1000 0 3 s
      = Ok (Return 4, s')
      ∧ fTempBuffer s' = [f]
      ∧ Z.of_nat (length f) = 16 + 24.
Proof.
  intros s.
  assert (fStraxHeaderSize s = 24) as H1 by reflexivity.
  assert (2 ≤ fFragmentBytes s < 2 ^ 31 - 25) as H2
    by (vm_compute; split; [discriminate|reflexivity]).
  assert (Z.even (fFragmentBytes s) = true) as H3 by reflexivity.
  destruct (fragments_have_full_size s H1 H2 H3) as [Hdead Hdata].
  split; [exact H1|]. split; [exact H2|]. split; [exact H3|].
  split; [exact (Hdead 4096 0)|].
  assert (∃ s' f,
            ProcessChannel 2 (drop 4 scenario1_event) 12 0 0 0x1000 0x1000
              0 3 s = Ok (Return 4, s')
            ∧ fTempBuffer s' = [f]) as (s' & f & Hrun & Htemp)
    by (vm_compute; eexists _, _; split; reflexivity).
  exists s', f. split; [exact Hrun|]. split; [exact Htemp|].
  destruct (Hdata _ _ _ _ _ _ _ _ _ _ _ Hrun) as (_ & frags & Happ & Hall).
  rewrite Htemp in Happ. change (fTempBuffer s) with (@nil (list Z)) in Happ.
  cbn [app] in Happ. subst frags.
  apply Forall_cons_1 in Hall as [[Hlen _] _]. exact Hlen.
Defined.

(** ** Putting the pulse together again *)

Section roundtrip.
Context (s : StraxFormatter) (fmt : gmap string Z) (buff : list Z)
        (h : ChannelHead) (label : Z) (p : Pulse).
Hypothesis Hhs : fStraxHeaderSize s = 24.
Hypothesis Hfb : 2 ≤ fFragmentBytes s < 2 ^ 31 - 25.
Hypothesis Hp : pulse_of s fmt buff h label = Ok p.
Hypothesis Hfit :
  2 * samples_in_pulse p ≤ Z.of_nat (length (payload p)).

Lemma turn_in_bounds (frag_i : Z) :
  0 ≤ frag_i < num_frags p →
  2 * (frag_i * fragment_samples p + samples_this_fragment p frag_i)
  ≤ Z.of_nat (length (payload p)).
Proof.
  intros Hi.
  pose proof (samples_this_fragment_bounds s fmt buff h label p Hfb Hp
                frag_i Hi) as (_ & _ & Hsum). lia.
Qed.

Lemma seqZ_first (i : Z) (k : nat) :
  seqZ i (Z.of_nat (S k)) = i :: seqZ (i + 1) (Z.of_nat k).
Proof.
  rewrite seqZ_cons by lia. f_equal. f_equal; lia.
Qed.

Lemma lengths_sum (k : nat) :
  ∀ i : Z,
    0 ≤ i → i + Z.of_nat (S k) = num_frags p →
    foldr Z.add 0 (samples_this_fragment p <$> seqZ i (Z.of_nat (S k)))
    = samples_in_pulse p - i * fragment_samples p.
Proof.
  induction k as [|k IH]; intros i Hi Hn.
  - pose proof (samples_this_fragment_bounds s fmt buff h label p Hfb Hp
                  i ltac:(lia)) as (_ & Hsum & _).
    destruct (i =? num_frags p - 1) eqn:Hlast; [|lia].
    rewrite seqZ_first, seqZ_nil by lia. cbn. lia.
  - rewrite seqZ_first. cbn [fmap list_fmap foldr].
    change (foldr Z.add 0 (list_fmap Z Z (samples_this_fragment p) ?l))
      with (foldr Z.add 0 (samples_this_fragment p <$> l)).
    rewrite (IH (i + 1)) by lia.
    pose proof (samples_this_fragment_bounds s fmt buff h label p Hfb Hp
                  i ltac:(lia)) as (_ & Hsum & _).
    destruct (i =? num_frags p - 1) eqn:Hlast; [lia|]. lia.
Qed.

Lemma samples_concat (k : nat) :
  ∀ i : Z,
    0 ≤ i → i + Z.of_nat (S k) = num_frags p →
    concat (samples_of p <$> seqZ i (Z.of_nat (S k)))
    = take (Z.to_nat (2 * (samples_in_pulse p - i * fragment_samples p)))
        (drop (Z.to_nat (2 * (i * fragment_samples p))) (payload p)).
Proof.
  pose proof (fragment_samples_range s fmt buff h label p Hfb Hp) as Hfs.
  induction k as [|k IH]; intros i Hi Hn.
  - pose proof (samples_this_fragment_bounds s fmt buff h label p Hfb Hp
                  i ltac:(lia)) as (_ & Hsum & _).
    destruct (i =? num_frags p - 1) eqn:Hlast; [|lia].
    rewrite seqZ_first, seqZ_nil by lia.
    cbn. rewrite app_nil_r. unfold samples_of. do 2 f_equal. lia.
  - rewrite seqZ_first. cbn [fmap list_fmap concat].
    change (concat (list_fmap Z (list Z) (samples_of p) ?l))
      with (concat (samples_of p <$> l)).
    rewrite (IH (i + 1)) by lia.
    pose proof (samples_this_fragment_bounds s fmt buff h label p Hfb Hp
                  i ltac:(lia)) as (Hstf & Hsum & Hle).
    destruct (i =? num_frags p - 1) eqn:Hlast; [lia|].
    unfold samples_of.
    replace (Z.to_nat (2 * ((i + 1) * fragment_samples p)))
      with (Z.to_nat (2 * (i * fragment_samples p))
            + Z.to_nat (2 * samples_this_fragment p i))%nat by nia.
    rewrite <- drop_drop, take_take_drop. f_equal.
    assert (0 ≤ samples_in_pulse p - (i + 1) * fragment_samples p) by nia.
    nia.
Qed.

(** With an even payload size only the last fragment of a pulse is
    filled up, so the payloads in a row are the pulse and then zeros. *)
Lemma payloads_concat (k : nat) :
  Z.even (fFragmentBytes s) = true →
  ∀ i : Z,
    0 ≤ i → i + Z.of_nat (S k) = num_frags p →
    ∃ zeros : nat,
      concat ((λ j, frag_payload (fragment_of s p j))
              <$> seqZ i (Z.of_nat (S k)))
      = take (Z.to_nat (2 * (samples_in_pulse p - i * fragment_samples p)))
          (drop (Z.to_nat (2 * (i * fragment_samples p))) (payload p))
        ++ replicate zeros 0.
Proof.
  intros Heven.
  pose proof (fragment_samples_range s fmt buff h label p Hfb Hp) as Hfs.
  destruct (pulse_of_fields s fmt buff h label p Hfb Hp)
    as (_ & _ & _ & _ & Hhalf & _).
  apply Z.even_spec in Heven as [half Hhalf2].
  assert (fFragmentBytes s `div` 2 = half) as Hdiv
    by (rewrite Hhalf2, Z.mul_comm, Z.div_mul; lia).
  induction k as [|k IH]; intros i Hi Hn.
  - pose proof (samples_this_fragment_bounds s fmt buff h label p Hfb Hp
                  i ltac:(lia)) as (_ & Hsum & _).
    destruct (i =? num_frags p - 1) eqn:Hlast; [|lia].
    destruct (fragment_of_fields s fmt buff h label p Hfb Hp i ltac:(lia)
                (turn_in_bounds i ltac:(lia)))
      as (_ & _ & _ & _ & _ & _ & _ & Hpay & _).
    rewrite seqZ_first, seqZ_nil by lia.
    cbn [fmap list_fmap concat]. rewrite app_nil_r, Hpay.
    eexists. f_equal. unfold samples_of. do 2 f_equal. lia.
  - rewrite seqZ_first. cbn [fmap list_fmap concat].
    change (concat (list_fmap Z (list Z) ?g ?l)) with (concat (g <$> l)).
    destruct (IH (i + 1) ltac:(lia) ltac:(lia)) as (zeros & ->).
    pose proof (samples_this_fragment_bounds s fmt buff h label p Hfb Hp
                  i ltac:(lia)) as (Hstf & Hsum & Hle).
    destruct (i =? num_frags p - 1) eqn:Hlast; [lia|].
    destruct (fragment_of_fields s fmt buff h label p Hfb Hp i ltac:(lia)
                (turn_in_bounds i ltac:(lia)))
      as (_ & _ & _ & _ & _ & _ & _ & Hpay & _).
    rewrite Hpay.
    assert (samples_this_fragment p i = half) as Hfull by nia.
    replace ((fFragmentBytes s - 2 * samples_this_fragment p i + 1) `div` 2)
      with 0 by (rewrite Hfull, Hhalf2;
                 replace (2 * half - 2 * half + 1) with 1 by lia;
                 reflexivity).
    cbn [Z.to_nat Nat.mul replicate]. rewrite app_nil_r.
    exists zeros. rewrite app_assoc. f_equal.
    unfold samples_of.
    replace (Z.to_nat (2 * ((i + 1) * fragment_samples p)))
      with (Z.to_nat (2 * (i * fragment_samples p))
            + Z.to_nat (2 * samples_this_fragment p i))%nat by nia.
    rewrite <- drop_drop, take_take_drop. f_equal.
    assert (0 ≤ samples_in_pulse p - (i + 1) * fragment_samples p) by nia.
    nia.
Qed.
End roundtrip.

Lemma pulse_of_Ok (s : StraxFormatter) (fmt : gmap string Z) (buff : list Z)
    (h : ChannelHead) (label : Z) :
  2 ≤ fFragmentBytes s < 2 ^ 31 - 25 →
  ∃ p, pulse_of s fmt buff h label = Ok p.
Proof.
  intros Hfb. unfold pulse_of.
  assert (1 ≤ fFragmentBytes s `div` 2 < 2 ^ 30) as Hhalf.
  { split; [apply Z.div_le_lower_bound; lia|apply Z.div_lt_upper_bound; lia]. }
  rewrite Z.shiftr_div_pow2 by lia. change (2 ^ 1) with 2.
  rewrite (to_signed_small 32) by lia.
  rewrite (to_unsigned_small 32) by lia.
  destruct (fFragmentBytes s `div` 2 =? 0) eqn:Hz; [lia|]. eauto.
Qed.

(** The samples of a scanned channel lie in the buffer. *)
Lemma pulse_in_buffer (buff : list Z) (header_words words : Z) :
  0 ≤ header_words ≤ words → words < 2 ^ 32 →
  caen_scan buff (to_unsigned 32 header_words)
    (Z.to_nat (words - to_unsigned 32 header_words)) = Ok false →
  2 * to_unsigned 32 (Z.shiftl (words - header_words) 1)
  ≤ Z.of_nat (length (payload_of buff header_words)).
Proof.
  intros Hhw Hw Hscan.
  rewrite (to_unsigned_small 32 header_words) in Hscan by lia.
  unfold payload_of. destruct (header_words <? 0) eqn:Hneg; [lia|].
  rewrite length_words_bytes, length_drop.
  rewrite Z.shiftl_mul_pow2 by lia. change (2 ^ 1) with 2.
  assert (to_unsigned 32 ((words - header_words) * 2)
          ≤ (words - header_words) * 2) as Hmod
    by (unfold to_unsigned; apply Z.mod_le; lia).
  destruct (decide (words = header_words)) as [->|Hne].
  - rewrite Z.sub_diag. change (to_unsigned 32 (0 * 2)) with 0. lia.
  - apply caen_scan_false in Hscan; lia.
Qed.
(** C4, as the code has it.  A channel that is decoded (its head accepted,
    no event-header mark in its payload, a label in the channel map) and
    whose pulse needs at most 65535 fragments, the range of the 16-bit
    fragment counter, makes [ProcessChannel] return and put exactly
    [num_frags = ceil(pulse_samples / (payload_bytes/2))] fragments into
    [fTempBuffer], numbered from 0 in order; all but the last carry
    [payload_bytes/2] samples and the last the rest, the lengths add up to
    [pulse_samples], and the samples of the fragments in a row are the
    samples of the pulse; with an even payload size so are the payloads in
    a row, cut to [pulse_samples] samples. *)
Theorem ProcessChannel_fragments (fuel : nat) (buff : list Z)
    (words_in_event bid channel header_time event_time clock_counter
       channel_mask : Z)
    (s : StraxFormatter) (h : ChannelHead) :
  let fmt := default ∅ (fFmt s !! bid) in
  let header_words := at_key fmt "channel_header_words" in
  let first := to_unsigned 32 header_words in
  let pulse_samples :=
    to_unsigned 32 (Z.shiftl (channel_words h - header_words) 1) in
  let fragment_samples := fFragmentBytes s `div` 2 in
  let num_frags :=
    (pulse_samples + fragment_samples - 1) `div` fragment_samples in
  let pulse :=
    take (Z.to_nat (2 * pulse_samples)) (payload_of buff header_words) in
  fStraxHeaderSize s = 24 →
  2 ≤ fFragmentBytes s < 2 ^ 31 - 25 →
  0 ≤ header_words →
  channel_head fmt buff words_in_event header_time event_time clock_counter
    channel_mask = Ok (Some h) →
  caen_scan buff first (Z.to_nat (channel_words h - first)) = Ok false →
  channel_label s bid channel ≠ -1 →
  num_frags ≤ 65535 →
  (Z.to_nat num_frags < fuel)%nat →
  ∃ frags s',
    ProcessChannel fuel buff words_in_event bid channel header_time
      event_time clock_counter channel_mask s
    = Ok (Return (to_signed 32 (channel_words h)), s')
    ∧ fTempBuffer s' = fTempBuffer s ++ frags
    ∧ Z.of_nat (length frags) = num_frags
    ∧ (∀ (i : nat) (f : list Z),
         frags !! i = Some f →
         frag_index f = Z.of_nat i
         ∧ frag_pulse_length f = pulse_samples
         ∧ frag_length f
           = if Z.of_nat i =? num_frags - 1
             then pulse_samples - (num_frags - 1) * fragment_samples
             else fragment_samples)
    ∧ foldr Z.add 0 (frag_length <$> frags) = pulse_samples
    ∧ Z.of_nat (length pulse) = 2 * pulse_samples
    ∧ concat ((λ f, take (Z.to_nat (2 * frag_length f)) (frag_payload f))
              <$> frags) = pulse
    ∧ (Z.even (fFragmentBytes s) = true →
       take (Z.to_nat (2 * pulse_samples)) (concat (frag_payload <$> frags))
       = pulse).
Proof.
  intros fmt header_words first pulse_samples fragment_samples num_frags_
    pulse Hhs Hfb Hhw Hhead Hscan Hlabel Hmax Hfuel.
  destruct (pulse_of_Ok s fmt buff h (channel_label s bid channel) Hfb)
    as [p Hp].
  destruct (pulse_of_fields s fmt buff h _ p Hfb Hp)
    as (Hpay & _ & HS & _ & Hfs & _ & _ & _).
  fold header_words in Hpay, HS. fold pulse_samples in HS.
  fold fragment_samples in Hfs.
  pose proof (fragment_samples_range s fmt buff h _ p Hfb Hp) as Hfsr.
  pose proof (samples_in_pulse_range s fmt buff h _ p Hfb Hp) as HSr.
  pose proof (ceil_bounds s fmt buff h _ p Hfb Hp) as (Hn0 & Hlo & Hhi).
  cbn zeta in Hn0, Hlo, Hhi.
  pose proof (num_frags_ceil s fmt buff h _ p Hfb Hp) as Hnum.
  rewrite HS, Hfs in Hn0, Hlo, Hhi, Hnum. fold num_frags_ in Hn0, Hlo, Hhi, Hnum.
  rewrite HS in HSr. rewrite Hfs in Hfsr.
  rewrite (to_signed_small 32) in Hnum by lia.
  pose proof (channel_head_words fmt buff _ _ _ _ _ h Hhw Hhead) as Hwords.
  fold header_words in Hwords.
  assert (2 * samples_in_pulse p ≤ Z.of_nat (length (payload p))) as Hfit.
  { rewrite HS, Hpay. apply pulse_in_buffer; [lia|lia|exact Hscan]. }
  assert (fragment_loop fuel p 0 s
          = Ok (emit (fragment_of s p <$> seqZ 0 num_frags_) s)) as Hloop.
  { replace (seqZ 0 num_frags_)
      with (seqZ 0 (Z.of_nat (Z.to_nat num_frags_))) by (f_equal; lia).
    eapply fragment_loop_run; try eassumption; try reflexivity; lia. }
  exists (fragment_of s p <$> seqZ 0 num_frags_). eexists.
  split.
  { rewrite (ProcessChannel_decoded fuel buff words_in_event bid channel
               header_time event_time clock_counter channel_mask s h
               Hhead Hscan Hlabel).
    fold fmt. rewrite Hp. cbn [mbind result_bind].
    rewrite Hloop. cbn [mbind result_bind]. reflexivity. }
  split; [reflexivity|].
  split; [rewrite length_fmap, length_seqZ; lia|].
  assert (∀ j, 0 ≤ j < num_frags_ →
            frag_index (fragment_of s p j) = j
            ∧ frag_pulse_length (fragment_of s p j) = pulse_samples
            ∧ frag_length (fragment_of s p j) = samples_this_fragment p j
            ∧ frag_payload (fragment_of s p j)
              = samples_of p j
                ++ replicate
                     (2 * Z.to_nat
                            ((fFragmentBytes s
                              - 2 * samples_this_fragment p j + 1) `div` 2)) 0
            ∧ length (samples_of p j)
              = Z.to_nat (2 * samples_this_fragment p j)) as Hfields.
  { intros j Hj.
    destruct (fragment_of_fields s fmt buff h _ p Hfb Hp j ltac:(lia))
      as (_ & Hl & _ & _ & Hpl & Hi & _ & Hpayload & Hdata & _).
    { eapply turn_in_bounds; try eassumption. lia. }
    rewrite Hi, Hpl, Hl, HS.
    rewrite (to_unsigned_small 16) by lia. auto. }
  split.
  { intros i f Hf.
    rewrite list_lookup_fmap in Hf.
    destruct (seqZ 0 num_frags_ !! i) as [j|] eqn:Hj; [|discriminate].
    apply lookup_seqZ in Hj as [-> Hi]. injection Hf as <-.
    destruct (Hfields (0 + Z.of_nat i) ltac:(lia)) as (Hix & Hpl & Hl & _).
    rewrite Hix, Hpl, Hl. split; [lia|]. split; [reflexivity|].
    unfold samples_this_fragment. rewrite Hnum, HS, Hfs.
    replace (0 + Z.of_nat i) with (Z.of_nat i) by lia.
    destruct (Z.of_nat i =? num_frags_ - 1) eqn:Hlast.
    - assert (Z.of_nat i = num_frags_ - 1) as -> by lia.
      apply to_unsigned_small.
      destruct (num_frags_ =? 0) eqn:Hz; [lia|]. lia.
    - apply to_unsigned_small. lia. }
  assert (frag_length <$> (fragment_of s p <$> seqZ 0 num_frags_)
          = samples_this_fragment p <$> seqZ 0 num_frags_) as Hlengths.
  { rewrite <- list_fmap_compose. apply Forall_fmap_ext, Forall_forall.
    intros j Hj. apply elem_of_seqZ in Hj.
    destruct (Hfields j ltac:(lia)) as (_ & _ & Hl & _). exact Hl. }
  assert ((λ f, take (Z.to_nat (2 * frag_length f)) (frag_payload f))
            <$> (fragment_of s p <$> seqZ 0 num_frags_)
          = samples_of p <$> seqZ 0 num_frags_) as Hsamples.
  { rewrite <- list_fmap_compose. apply Forall_fmap_ext, Forall_forall.
    intros j Hj. apply elem_of_seqZ in Hj. cbn.
    destruct (Hfields j ltac:(lia)) as (_ & _ & Hl & Hpayload & Hdata).
    rewrite Hl, Hpayload. apply take_app_length'. symmetry. exact Hdata. }
  assert (Z.of_nat (length pulse) = 2 * pulse_samples) as Hpulse.
  { subst pulse. rewrite length_take. rewrite <- Hpay. lia. }
  rewrite Hlengths, Hsamples.
  destruct (decide (num_frags_ = 0)) as [Hzero|Hpos].
  - assert (pulse_samples = 0) as Hempty by (rewrite Hzero in Hhi; lia).
    rewrite Hzero. rewrite seqZ_nil by lia. cbn [fmap list_fmap foldr concat].
    subst pulse. rewrite Hempty. cbn [Z.mul Z.to_nat take].
    repeat split; try reflexivity; try assumption.
  - assert (seqZ 0 num_frags_
            = seqZ 0 (Z.of_nat (S (Z.to_nat (num_frags_ - 1))))) as Hturns
      by (f_equal; lia).
    assert (foldr Z.add 0 (samples_this_fragment p <$> seqZ 0 num_frags_)
            = pulse_samples) as ->.
    { rewrite Hturns.
      rewrite (lengths_sum s fmt buff h _ p Hfb Hp _ 0) by lia. lia. }
    assert (concat (samples_of p <$> seqZ 0 num_frags_) = pulse) as ->.
    { rewrite Hturns.
      rewrite (samples_concat s fmt buff h _ p Hfb Hp _ 0) by lia.
      rewrite Z.mul_0_l, Z.sub_0_r, Z.mul_0_r. cbn [Z.to_nat drop].
      rewrite HS, Hpay. reflexivity. }
    repeat split; try reflexivity; try assumption.
    intros Heven.
    assert (frag_payload <$> (fragment_of s p <$> seqZ 0 num_frags_)
            = (λ j, frag_payload (fragment_of s p j)) <$> seqZ 0 num_frags_)
      as -> by (rewrite <- list_fmap_compose; reflexivity).
    rewrite Hturns.
    destruct (payloads_concat s fmt buff h _ p Hfb Hp Hfit
                (Z.to_nat (num_frags_ - 1)) Heven 0 ltac:(lia) ltac:(lia))
      as (zeros & ->).
    rewrite Z.mul_0_l, Z.sub_0_r, Z.mul_0_r. cbn [Z.to_nat drop].
    rewrite HS, Hpay. fold pulse.
    apply take_app_length'. lia.
Qed.

(** C4 as the specification states it does not hold for a pulse of 65536
    fragments: the [uint16_t] counter wraps to 0 after fragment 65535 and
    stays below [num_frags], so [ProcessChannel] does not return, whatever
    the fuel. *)
Lemma long_pulse_never_returns :
  ¬ ∃ (fuel : nat) (r : completion) (s' : StraxFormatter),
      ProcessChannel fuel long_channel 3604484 0 0 0 0 0 1
        (scenario_formatter 220 {[ 0 := default_firmware ]}) = Ok (r, s').
Proof.
  intros (fuel & r & s' & Hrun).
  set (s := scenario_formatter 220 {[ 0 := default_firmware ]}) in *.
  assert (channel_head default_firmware long_channel 3604484 0 0 0 1
          = Ok (Some {| channel_words := 3604480; channel_time := 0;
                        channel_timeMSB := 0; baseline_ch := 0;
                        local_clock_counter := 0 |})) as Hhead.
  { generalize long_channel. intros buff. vm_compute. reflexivity. }
  assert (caen_scan long_channel 0 (Z.to_nat 3604480) = Ok false) as Hscan.
  { apply caen_scan_clean; [lia|]. intros i Hi. exists 0.
    split; [|vm_compute; discriminate].
    apply lookup_replicate_2. exact Hi. }
  destruct (ProcessChannel_cases _ _ _ _ _ _ _ _ _ _ _ _ Hrun)
    as [(Hnone & _)|[(h & Hh & Htrue & _)|[(h & _ & _ & Hl & _)
        |(h & p & s1 & Hh & _ & _ & Hp & Hloop & _)]]].
  - change (default ∅ (fFmt s !! 0)) with default_firmware in Hnone.
    rewrite Hhead in Hnone. discriminate Hnone.
  - change (default ∅ (fFmt s !! 0)) with default_firmware in Hh, Htrue.
    rewrite Hhead in Hh. injection Hh as <-.
    change (to_unsigned 32 (at_key default_firmware "channel_header_words"))
      with 0 in Htrue.
    cbn [channel_words] in Htrue. rewrite Z.sub_0_r in Htrue.
    rewrite Hscan in Htrue. discriminate Htrue.
  - vm_compute in Hl. discriminate Hl.
  - change (default ∅ (fFmt s !! 0)) with default_firmware in Hh, Hp.
    rewrite Hhead in Hh. injection Hh as <-.
    assert (2 ≤ fFragmentBytes s < 2 ^ 31 - 25) as Hfb
      by (vm_compute; split; [discriminate|reflexivity]).
    destruct (pulse_of_fields s _ _ _ _ p Hfb Hp)
      as (_ & _ & HS & _ & Hfs & _ & _ & Hn).
    rewrite HS, Hfs in Hn.
    assert (num_frags p = 65536) as Hmany by (rewrite Hn; reflexivity).
    refine (fragment_loop_diverges p fuel _ 0 s s1 _ Hloop); lia.
Qed.

(** Channel 0 of scenario 1 with a payload size of 6 bytes: eight samples
    in fragments of three, three and two. *)
Lemma ProcessChannel_fragments_witness :
  let s := scenario_formatter 6 {[ 0 := default_firmware ]} in
  ∃ f0 f1 f2 s',
    ProcessChannel 4 (drop 4 scenario1_event) 12 0 0 0x1000 0x1000 0 3 s
    = Ok (Return 4, s')
    ∧ fTempBuffer s' = [f0; f1; f2]
    ∧ frag_length <$> [f0; f1; f2] = [3; 3; 2]
    ∧ concat ((λ f, take (Z.to_nat (2 * frag_length f)) (frag_payload f))
              <$> [f0; f1; f2])
      = words_bytes [0x11112222; 0x33334444; 0x55556666; 0x77778888].
Proof.
  intros s.
  destruct (ProcessChannel_fragments 4 (drop 4 scenario1_event) 12 0 0 0x1000
              0x1000 0 3 s
              {| channel_words := 4; channel_time := 0x1000;
                 channel_timeMSB := 0; baseline_ch := 0;
                 local_clock_counter := 0 |})
    as (frags & s' & Hrun & Htemp & Hlen & Hall & Hsum & Hpulse & Hcat & _).
  - reflexivity.
  - vm_compute. split; [discriminate|reflexivity].
  - vm_compute. discriminate.
  - vm_compute. reflexivity.
  - vm_compute. reflexivity.
  - vm_compute. discriminate.
  - vm_compute. discriminate.
  - vm_compute. lia.
  - assert (ProcessChannel 4 (drop 4 scenario1_event) 12 0 0 0x1000 0x1000
              0 3 s
            = Ok (Return 4, s')) as Hrun' by exact Hrun.
    assert (Ok (Return 4, s')
            = ProcessChannel 4 (drop 4 scenario1_event) 12 0 0 0x1000 0x1000
                0 3 s) as Hval by (symmetry; exact Hrun').
    vm_compute in Hval. injection Hval as ->.
    eexists _, _, _, _. split; [exact Hrun'|].
    split; [reflexivity|]. split; reflexivity.
Defined.

(** * Further properties of the code *)

(** ** Sums kept in an [int] *)

Lemma to_signed_range (w z : Z) :
  0 < w → - 2 ^ (w - 1) ≤ to_signed w z < 2 ^ (w - 1).
Proof.
  intros Hw. unfold to_signed.
  assert (2 ^ w = 2 * 2 ^ (w - 1)) as Hpow.
  { rewrite <- Z.pow_succ_r by lia. f_equal. lia. }
  assert (0 < 2 ^ (w - 1)) by (apply Z.pow_pos_nonneg; lia).
  pose proof (Z.mod_pos_bound (z + 2 ^ (w - 1)) (2 ^ w) ltac:(lia)). lia.
Qed.

Lemma to_signed_add_l (w a b : Z) :
  0 < w → to_signed w (to_signed w a + b) = to_signed w (a + b).
Proof.
  intros Hw. unfold to_signed. f_equal.
  assert (0 < 2 ^ w) by (apply Z.pow_pos_nonneg; lia).
  replace ((a + 2 ^ (w - 1)) `mod` 2 ^ w - 2 ^ (w - 1) + b + 2 ^ (w - 1))
    with ((a + 2 ^ (w - 1)) `mod` 2 ^ w + b) by lia.
  rewrite Z.add_mod_idemp_l by lia. f_equal. lia.
Qed.

Lemma to_signed_idem (w z : Z) :
  0 < w → to_signed w (to_signed w z) = to_signed w z.
Proof.
  intros Hw. apply to_signed_small; [exact Hw|]. apply to_signed_range, Hw.
Qed.

Lemma to_signed_exact (w z : Z) :
  0 < w → to_signed w z = z ↔ - 2 ^ (w - 1) ≤ z < 2 ^ (w - 1).
Proof.
  intros Hw. split.
  - intros <-. apply to_signed_range, Hw.
  - apply to_signed_small, Hw.
Qed.

(** ** Counts added to a map *)

Lemma add_to_lookup (k v : Z) (ret : gmap Z Z) (j : Z) :
  add_to k v ret !! j
  = if decide (j = k) then Some (to_signed 32 (default 0 (ret !! k) + v))
    else ret !! j.
Proof.
  unfold add_to. destruct (decide (j = k)) as [->|Hne].
  - apply lookup_insert_eq.
  - apply lookup_insert_ne. congruence.
Qed.

Lemma map_fold_add_to (count ret : gmap Z Z) (k : Z) :
  map_fold add_to ret count !! k
  = match count !! k with
    | Some v => Some (to_signed 32 (default 0 (ret !! k) + v))
    | None => ret !! k
    end.
Proof.
  revert k.
  apply (map_fold_weak_ind
           (λ r m, ∀ k, r !! k
                        = match m !! k with
                          | Some v => Some (to_signed 32 (default 0 (ret !! k) + v))
                          | None => ret !! k
                          end)).
  - intros k. rewrite lookup_empty. reflexivity.
  - intros i x m r Hi IH k. rewrite add_to_lookup.
    destruct (decide (k = i)) as [->|Hne].
    + rewrite lookup_insert_eq, IH, Hi. reflexivity.
    + rewrite lookup_insert_ne by congruence. apply IH.
Qed.

Lemma add_all_lookup (counts : list (gmap Z Z)) :
  ∀ (ret : gmap Z Z) (k : Z),
    add_all counts ret !! k
    = match omap (λ count, count !! k) counts with
      | [] => ret !! k
      | v :: vs =>
          Some (to_signed 32 (default 0 (ret !! k) + foldr Z.add 0 (v :: vs)))
      end.
Proof.
  induction counts as [|count counts IH]; intros ret k; [reflexivity|].
  cbn [add_all foldl]. fold (add_all counts (map_fold add_to ret count)).
  rewrite IH, map_fold_add_to. cbn [omap list_omap].
  change (list_omap ?f ?l) with (omap f l).
  destruct (count !! k) as [v|] eqn:Hk.
  - destruct (omap (λ count0, count0 !! k) counts) as [|v' vs]; cbn.
    + do 2 f_equal. lia.
    + rewrite to_signed_add_l by lia. do 2 f_equal. lia.
  - reflexivity.
Qed.

(** ** The size of the chunk buffers, as the controller reports it *)

Lemma GetStraxBufferSize_from (threads : list processingThread) :
  ∀ tot : Z,
    foldl (λ tot pt, to_signed 32 (tot + GetBufferSize (inserter pt)))
      (to_signed 32 tot) threads
    = to_signed 32
        (tot + foldr Z.add 0 ((λ pt, GetBufferSize (inserter pt)) <$> threads)).
Proof.
  induction threads as [|pt threads IH]; intros tot; cbn.
  - f_equal. lia.
  - rewrite to_signed_add_l by lia. rewrite IH. f_equal. lia.
Qed.

(** X1.  [GetStraxBufferSize] adds the formatters' buffer sizes up in an
    [int]: what it returns is the sum of the sizes brought into the range
    of a 32-bit integer, which is the sum itself exactly when the sum lies
    in that range, below 2 GiB. *)
Theorem GetStraxBufferSize_wraps (threads : list processingThread) :
  let total :=
    foldr Z.add 0 ((λ pt, GetBufferSize (inserter pt)) <$> threads) in
  GetStraxBufferSize threads = to_signed 32 total
  ∧ - 2 ^ 31 ≤ GetStraxBufferSize threads < 2 ^ 31
  ∧ (GetStraxBufferSize threads = total ↔ - 2 ^ 31 ≤ total < 2 ^ 31).
Proof.
  intros total.
  assert (GetStraxBufferSize threads = to_signed 32 total) as Hsum.
  { unfold GetStraxBufferSize. change 0 with (to_signed 32 0) at 1.
    rewrite GetStraxBufferSize_from. reflexivity. }
  split; [exact Hsum|]. rewrite Hsum.
  split; [exact (to_signed_range 32 total ltac:(lia))|].
  exact (to_signed_exact 32 total ltac:(lia)).
Qed.

(** ** The bytes per channel *)

Lemma GetDataPerChan_threads_spec (threads : list processingThread) :
  ∀ retmap : gmap Z Z,
    GetDataPerChan_threads retmap threads
    = (add_all ((λ pt, fDataPerChan (inserter pt))
                <$> filter (λ pt, fActive pt = true) threads) retmap,
       (λ pt, (GetDataPerChan ∅ pt).2) <$> threads).
Proof.
  induction threads as [|pt threads IH]; intros retmap; [reflexivity|].
  cbn [GetDataPerChan_threads]. unfold GetDataPerChan at 1.
  rewrite filter_cons. cbn [fmap list_fmap].
  destruct (fActive pt) eqn:Hact; cbn [negb].
  - rewrite IH. rewrite decide_True by reflexivity.
    cbn [fmap list_fmap add_all foldl]. f_equal. f_equal.
    unfold GetDataPerChan. rewrite Hact. reflexivity.
  - rewrite IH. rewrite decide_False by discriminate.
    f_equal. f_equal. unfold GetDataPerChan. rewrite Hact. reflexivity.
Qed.

Lemma lookup_zeroed (m : gmap Z Z) (k : Z) :
  ((λ _, 0) <$> m) !! k = (λ _, 0) <$> (m !! k).
Proof. apply lookup_fmap. Qed.

(** X2.  [GetDataPerChan] of a formatter that is active adds every
    channel's byte count to the caller's map, as an [int], and sets the
    count to zero, keeping the channel; nothing else of the formatter
    changes, so a second call in a row adds nothing.  A formatter that is
    not active, as after [Close], is left alone and so is the map. *)
Theorem GetDataPerChan_reports_once (ret : gmap Z Z) (pt : processingThread) :
  let ret' := (GetDataPerChan ret pt).1 in
  let pt' := (GetDataPerChan ret pt).2 in
  if fActive pt then
    (∀ k, ret' !! k
          = match fDataPerChan (inserter pt) !! k with
            | Some bytes => Some (to_signed 32 (default 0 (ret !! k) + bytes))
            | None => ret !! k
            end)
    ∧ (∀ k, fDataPerChan (inserter pt') !! k
            = (λ _, 0) <$> fDataPerChan (inserter pt) !! k)
    ∧ inserter pt'
      = set_fDataPerChan (fDataPerChan (inserter pt')) (inserter pt)
    ∧ fActive pt' = true
    ∧ (GetDataPerChan ret' pt').1 = ret'
    ∧ (GetDataPerChan ret' pt').2 = pt'
  else
    ret' = ret ∧ pt' = pt
    ∧ (Close ret pt).2 = pt
    ∧ ∀ active, GetDataPerChan ret (Close ret
                  {| inserter := inserter pt; fActive := active |}).2
                = (ret, pt).
Proof.
  intros ret' pt'. subst ret' pt'. destruct pt as [s active].
  unfold GetDataPerChan, Close. cbn [fActive inserter].
  destruct active; cbn [negb fst snd fActive inserter].
  - assert (∀ k, map_fold add_to ret (fDataPerChan s) !! k
                 = match fDataPerChan s !! k with
                   | Some bytes =>
                       Some (to_signed 32 (default 0 (ret !! k) + bytes))
                   | None => ret !! k
                   end) as Hret by (intros k; apply map_fold_add_to).
    split; [exact Hret|].
    split; [intros k; cbn; apply lookup_zeroed|].
    split; [reflexivity|]. split; [reflexivity|].
    split.
    + apply map_eq. intros k. cbn [fDataPerChan set_fDataPerChan].
      rewrite (map_fold_add_to ((λ _, 0) <$> fDataPerChan s)).
      rewrite lookup_zeroed, Hret.
      destruct (fDataPerChan s !! k) as [bytes|]; [|reflexivity].
      cbn. rewrite Z.add_0_r. rewrite to_signed_idem by lia. reflexivity.
    + f_equal. destruct s. unfold set_fDataPerChan. cbn.
      f_equal. apply map_eq. intros k. rewrite !lookup_fmap.
      destruct (_ !! k); reflexivity.
  - repeat split.
Qed.

Lemma omap_fmap_list {A B C : Type} (f : B → option C) (g : A → B)
    (l : list A) :
  omap f (g <$> l) = omap (λ a, f (g a)) l.
Proof.
  induction l as [|a l IH]; [reflexivity|].
  cbn. change (list_omap ?h ?m) with (omap h m).
  change (list_fmap A B g l) with (g <$> l). rewrite IH. reflexivity.
Qed.

Lemma add_all_empty (counts : list (gmap Z Z)) (k : Z) :
  add_all counts ∅ !! k
  = match omap (λ count, count !! k) counts with
    | [] => None
    | v :: vs => Some (to_signed 32 (foldr Z.add 0 (v :: vs)))
    end.
Proof.
  rewrite add_all_lookup, lookup_empty.
  destruct (omap _ counts); reflexivity.
Qed.

Lemma active_after_report (threads : list processingThread) :
  filter (λ pt, fActive pt = true)
    ((λ pt, (GetDataPerChan ∅ pt).2) <$> threads)
  = (λ pt, (GetDataPerChan ∅ pt).2)
    <$> filter (λ pt, fActive pt = true) threads.
Proof.
  induction threads as [|[s active] threads IH]; [reflexivity|].
  cbn [fmap list_fmap]. rewrite !filter_cons.
  change (list_fmap _ _ ?g ?l) with (g <$> l). rewrite IH.
  unfold GetDataPerChan at 1 3. cbn [fActive inserter].
  destruct active; cbn [negb snd fActive].
  - rewrite !decide_True by reflexivity. reflexivity.
  - rewrite !decide_False by discriminate. reflexivity.
Qed.

Lemma counts_after_report (threads : list processingThread) (k : Z) :
  Forall (λ pt, fActive pt = true) threads →
  omap (λ pt, fDataPerChan (inserter (GetDataPerChan ∅ pt).2) !! k) threads
  = (λ _, 0) <$> omap (λ pt, fDataPerChan (inserter pt) !! k) threads.
Proof.
  induction threads as [|[s active] threads IH]; intros Hall; [reflexivity|].
  apply Forall_cons in Hall as [Hact Hall]. cbn in Hact. subst active.
  cbn [omap list_omap]. change (list_omap ?h ?m) with (omap h m).
  rewrite (IH Hall). unfold GetDataPerChan at 1. cbn [negb fActive inserter snd].
  cbn [fDataPerChan set_fDataPerChan]. rewrite lookup_zeroed.
  destruct (fDataPerChan s !! k); reflexivity.
Qed.

Lemma sum_zeros (l : list Z) : foldr Z.add 0 ((λ _, 0) <$> l) = 0.
Proof. induction l as [|x l IH]; [reflexivity|]. cbn. exact IH. Qed.

Lemma GetDataPerChan_again (ret ret' : gmap Z Z) (pt : processingThread) :
  (GetDataPerChan ret' (GetDataPerChan ret pt).2).2 = (GetDataPerChan ret pt).2.
Proof.
  destruct pt as [s active]. unfold GetDataPerChan. cbn [fActive inserter].
  destruct active; cbn [negb snd fActive inserter]; [|reflexivity].
  f_equal. destruct s. unfold set_fDataPerChan. cbn.
  f_equal. apply map_eq. intros k. rewrite !lookup_fmap.
  destruct (_ !! k); reflexivity.
Qed.

(** X3.  [DAQController::GetDataPerChan] returns, for every channel that a
    formatter still active has counted, the sum of those formatters'
    counts as an [int], and no entry for any other channel; every active
    formatter is left with all its counts at zero, so that a second call
    in a row returns zero for the same channels. *)
Theorem DAQController_GetDataPerChan_sums (threads : list processingThread) :
  let retmap := (DAQController_GetDataPerChan threads).1 in
  let threads' := (DAQController_GetDataPerChan threads).2 in
  let counts k :=
    omap (λ pt, fDataPerChan (inserter pt) !! k)
      (filter (λ pt, fActive pt = true) threads) in
  (∀ k, retmap !! k
        = match counts k with
          | [] => None
          | _ :: _ => Some (to_signed 32 (foldr Z.add 0 (counts k)))
          end)
  ∧ threads' = (λ pt, (GetDataPerChan ∅ pt).2) <$> threads
  ∧ (∀ k, (DAQController_GetDataPerChan threads').1 !! k
          = (λ _, 0) <$> retmap !! k)
  ∧ (DAQController_GetDataPerChan threads').2 = threads'.
Proof.
  intros retmap threads' counts. subst retmap threads'.
  unfold DAQController_GetDataPerChan.
  rewrite GetDataPerChan_threads_spec. cbn [fst snd].
  assert (∀ k, add_all ((λ pt, fDataPerChan (inserter pt))
                        <$> filter (λ pt, fActive pt = true) threads) ∅ !! k
               = match counts k with
                 | [] => None
                 | _ :: _ => Some (to_signed 32 (foldr Z.add 0 (counts k)))
                 end) as Hret.
  { intros k. rewrite add_all_empty, omap_fmap_list. fold (counts k).
    destruct (counts k); reflexivity. }
  split; [exact Hret|]. split; [reflexivity|].
  rewrite GetDataPerChan_threads_spec. cbn [fst snd]. split.
  - intros k. rewrite Hret, add_all_empty, omap_fmap_list.
    rewrite active_after_report, omap_fmap_list.
    rewrite counts_after_report
      by (apply Forall_forall; intros pt Hpt;
          apply list_elem_of_filter in Hpt as [Hact _]; exact Hact).
    fold (counts k). destruct (counts k) as [|v vs]; [reflexivity|].
    cbn [fmap list_fmap option_fmap option_map].
    change (list_fmap _ _ ?g ?l) with (g <$> l).
    cbn [foldr]. rewrite sum_zeros. reflexivity.
  - rewrite <- list_fmap_compose. apply list_fmap_ext. intros _ pt _. cbn.
    apply GetDataPerChan_again.
Qed.

(** ** Closing the formatters *)

Lemma Close_threads_spec (threads : list processingThread) :
  ∀ board_fails : gmap Z Z,
    Close_threads board_fails threads
    = (add_all ((λ pt, fFailCounter (inserter pt)) <$> threads) board_fails,
       (λ pt, {| inserter := inserter pt; fActive := false |}) <$> threads).
Proof.
  induction threads as [|pt threads IH]; intros board_fails; [reflexivity|].
  cbn [Close_threads]. unfold Close at 1. rewrite IH. reflexivity.
Qed.

(** X4.  [Close] adds a formatter's fail count of every board to the
    caller's map, as an [int], and clears [fActive]; closing all threads as
    [CloseProcessingThreads] does collects, for every board that a
    formatter has counted, the sum of the formatters' counts and no entry
    for any other board.  Every formatter is then inactive, so that
    [GetDataPerChan] no longer reports its bytes; the list of threads is
    emptied; a warning lists the collected map, and none is logged when no
    formatter has counted a failure. *)
Theorem CloseProcessingThreads_board_fails (threads : list processingThread) :
  let board_fails := (Close_threads ∅ threads).1 in
  let counts bid := omap (λ pt, fFailCounter (inserter pt) !! bid) threads in
  (∀ ret pt bid,
     (Close ret pt).1 !! bid
     = match fFailCounter (inserter pt) !! bid with
       | Some fails => Some (to_signed 32 (default 0 (ret !! bid) + fails))
       | None => ret !! bid
       end)
  ∧ (∀ bid, board_fails !! bid
            = match counts bid with
              | [] => None
              | _ :: _ => Some (to_signed 32 (foldr Z.add 0 (counts bid)))
              end)
  ∧ (Close_threads ∅ threads).2
    = (λ pt, {| inserter := inserter pt; fActive := false |}) <$> threads
  ∧ (∀ ret pt, pt ∈ (Close_threads ∅ threads).2 →
               GetDataPerChan ret pt = (ret, pt))
  ∧ (CloseProcessingThreads threads).2 = []
  ∧ (∀ warned, (CloseProcessingThreads threads).1 = Some warned →
               warned = board_fails)
  ∧ (Forall (λ pt, fFailCounter (inserter pt) = ∅) threads →
     (CloseProcessingThreads threads).1 = None).
Proof.
  intros board_fails counts. subst board_fails.
  unfold CloseProcessingThreads. rewrite Close_threads_spec. cbn [fst snd].
  assert (∀ bid, add_all ((λ pt, fFailCounter (inserter pt)) <$> threads) ∅
                 !! bid
                 = match counts bid with
                   | [] => None
                   | _ :: _ => Some (to_signed 32 (foldr Z.add 0 (counts bid)))
                   end) as Hfails.
  { intros bid. rewrite add_all_empty, omap_fmap_list. fold (counts bid).
    destruct (counts bid); reflexivity. }
  split; [intros ret pt bid; apply map_fold_add_to|].
  split; [exact Hfails|]. split; [reflexivity|].
  split.
  { intros ret pt Hpt. apply list_elem_of_fmap in Hpt as (pt0 & -> & _).
    reflexivity. }
  split; [reflexivity|]. split.
  - intros warned Hwarned. destruct (_ =? 0) in Hwarned; congruence.
  - intros Hnone.
    assert (add_all ((λ pt, fFailCounter (inserter pt)) <$> threads) ∅ = ∅)
      as ->.
    { apply map_eq. intros bid. rewrite Hfails, lookup_empty.
      assert (counts bid = []) as ->; [|reflexivity].
      subst counts. cbn. clear Hfails.
      induction Hnone as [|pt rest Hpt _ IH]; [reflexivity|].
      cbn. rewrite Hpt, lookup_empty. exact IH. }
    reflexivity.
Qed.

(** ** The readout buffer *)

Lemma sum_sizes_app (q1 q2 : list data_packet.t) :
  foldr Z.add 0 (data_packet.size <$> (q1 ++ q2))
  = foldr Z.add 0 (data_packet.size <$> q1)
    + foldr Z.add 0 (data_packet.size <$> q2).
Proof.
  induction q1 as [|dp q1 IH]; [reflexivity|].
  cbn. change (list_fmap _ _ ?g ?l) with (g <$> l). rewrite IH. lia.
Qed.

(** X5.  The read loop queues a packet only when its size is positive: the
    packet then goes, with the board's id written into it, to the back of
    that board's queue, and its size is added to the bytes read since the
    last [GetDataSize]; a packet of size zero or less changes nothing.  No
    other board's queue or counters change, and for every board the packet
    count and the byte count go on agreeing with the queue. *)
Theorem ReadData_store_queues (dp : data_packet.t) (digi_bid : Z)
    (c : ReadoutBuffer) :
  let c' := ReadData_store dp digi_bid c in
  (if 0 <? data_packet.size dp
   then default [] (fBuffer c' !! digi_bid)
        = default [] (fBuffer c !! digi_bid) ++ [stored_as digi_bid dp]
        ∧ fDataRate c' = to_signed 32 (fDataRate c + data_packet.size dp)
   else c' = c)
  ∧ (∀ bid, bid ≠ digi_bid →
       fBuffer c' !! bid = fBuffer c !! bid
       ∧ fBufferLength c' !! bid = fBufferLength c !! bid
       ∧ fBufferSize c' !! bid = fBufferSize c !! bid)
  ∧ (∀ bid, counts_agree bid c → counts_agree bid c').
Proof.
  intros c'. subst c'. unfold ReadData_store.
  destruct (0 <? data_packet.size dp) eqn:Hsize.
  - cbn [data_packet.bid data_packet.size fBuffer fBufferLength fBufferSize
         fDataRate].
    split; [split; [|reflexivity]|split].
    + rewrite lookup_insert_eq. reflexivity.
    + intros bid Hne. rewrite !lookup_insert_ne by congruence. auto.
    + intros bid [Hlen Hbytes]. unfold counts_agree. cbn zeta.
      cbn [fBuffer fBufferLength fBufferSize] in *.
      destruct (decide (bid = digi_bid)) as [->|Hne].
      * rewrite !lookup_insert_eq. cbn [default from_option id].
        cbn zeta in Hlen, Hbytes. rewrite Hlen, Hbytes.
        rewrite !to_signed_add_l by lia.
        rewrite length_app, sum_sizes_app. cbn. split; f_equal; lia.
      * rewrite !lookup_insert_ne by congruence. split; assumption.
  - split; [reflexivity|]. split; [auto|]. auto.
Qed.

Lemma counts_agree_length (bid : Z) (c : ReadoutBuffer) :
  counts_agree bid c →
  Z.of_nat (length (default [] (fBuffer c !! bid))) < 2 ^ 31 →
  default 0 (fBufferLength c !! bid)
  = Z.of_nat (length (default [] (fBuffer c !! bid))).
Proof.
  intros [Hlen _] Hsmall. cbn zeta in Hlen. rewrite Hlen.
  apply to_signed_small; lia.
Qed.

(** X6.  While the counts of a board agree with its queue, of fewer than
    [2^31] packets, [GetData] for one packet returns 1 and hands over the
    oldest packet of the board exactly when the queue is not empty, and
    returns 0 with the caller's pointer and the buffer untouched when it is
    empty.  The packet is taken off the queue, the counts agree with what
    is left, and no other board is touched. *)
Theorem GetData_packet_oldest (dp : option data_packet.t) (bid : Z)
    (c : ReadoutBuffer) :
  counts_agree bid c →
  Z.of_nat (length (default [] (fBuffer c !! bid))) < 2 ^ 31 →
  match default [] (fBuffer c !! bid) with
  | [] => GetData_packet dp bid c = (0, dp, c)
  | front :: rest =>
      ∃ c', GetData_packet dp bid c = (1, Some front, c')
        ∧ default [] (fBuffer c' !! bid) = rest
        ∧ counts_agree bid c'
        ∧ fDataRate c' = fDataRate c
        ∧ ∀ other, other ≠ bid →
            fBuffer c' !! other = fBuffer c !! other
            ∧ fBufferLength c' !! other = fBufferLength c !! other
            ∧ fBufferSize c' !! other = fBufferSize c !! other
  end.
Proof.
  intros Hagree Hsmall.
  pose proof (counts_agree_length bid c Hagree Hsmall) as Hlen.
  destruct Hagree as [_ Hbytes]. cbn zeta in Hbytes.
  unfold GetData_packet.
  destruct (default [] (fBuffer c !! bid)) as [|front rest] eqn:Hq.
  - rewrite Hlen. reflexivity.
  - rewrite Hlen. cbn [length] in *.
    destruct (Z.of_nat (S (length rest)) =? 0) eqn:Hz; [apply Z.eqb_eq in Hz; lia|].
    eexists. split; [reflexivity|].
    cbn [fBuffer fBufferLength fBufferSize fDataRate].
    split; [rewrite lookup_insert_eq; reflexivity|].
    split; [|split; [reflexivity|]].
    + unfold counts_agree. cbn zeta.
      cbn [fBuffer fBufferLength fBufferSize]. rewrite !lookup_insert_eq.
      cbn [default from_option id]. rewrite Hbytes. cbn [fmap list_fmap foldr].
      change (list_fmap _ _ ?g ?l) with (g <$> l).
      rewrite <- (Z.add_opp_r (to_signed 32 _)), to_signed_add_l by lia.
      split; f_equal; lia.
    + intros other Hne. rewrite !lookup_insert_ne by congruence. auto.
Qed.

(** A board with two packets queued: the older one is handed over. *)
Lemma GetData_packet_oldest_witness :
  let older := {| data_packet.buff := [1]; data_packet.size := 4;
                  data_packet.clock_counter := 0;
                  data_packet.header_time := 0; data_packet.bid := 0 |} in
  let newer := {| data_packet.buff := [2; 3]; data_packet.size := 8;
                  data_packet.clock_counter := 0;
                  data_packet.header_time := 0; data_packet.bid := 0 |} in
  let c := ReadData_store newer 7
             (ReadData_store older 7
                {| fBuffer := ∅; fBufferLength := ∅; fBufferSize := ∅;
                   fDataRate := 0 |}) in
  ∃ c', GetData_packet None 7 c = (1, Some (stored_as 7 older), c')
    ∧ default [] (fBuffer c' !! 7) = [stored_as 7 newer]
    ∧ counts_agree 7 c'.
Proof.
  intros older newer c.
  assert (counts_agree 7 c) as H1 by (vm_compute; split; reflexivity).
  assert (Z.of_nat (length (default [] (fBuffer c !! 7))) < 2 ^ 31) as H2
    by (vm_compute; reflexivity).
  pose proof (GetData_packet_oldest None 7 c H1 H2) as H.
  change (default [] (fBuffer c !! 7))
    with [stored_as 7 older; stored_as 7 newer] in H.
  destruct H as (c' & Hrun & Hrest & Hagree & _).
  exists c'. auto.
Defined.

(** X7.  While the counts of a board agree with its queue, of fewer than
    [2^31] packets, [GetData] for a queue returns 0 and changes nothing
    when the board's queue is empty; otherwise it hands over the whole
    queue, oldest packet first, and returns the queue's bytes as an [int].
    The board is left with what the caller's queue held and with both
    counts at zero: called with an empty queue it leaves the counts in
    agreement and a second call finds nothing.  No other board is
    touched. *)
Theorem GetData_queue_takes_all (retQ : list data_packet.t) (bid : Z)
    (c : ReadoutBuffer) :
  counts_agree bid c →
  Z.of_nat (length (default [] (fBuffer c !! bid))) < 2 ^ 31 →
  let queue := default [] (fBuffer c !! bid) in
  if decide (queue = []) then GetData_queue retQ bid c = (0, retQ, c)
  else
    ∃ c',
      GetData_queue retQ bid c
      = (to_signed 32 (foldr Z.add 0 (data_packet.size <$> queue)), queue, c')
      ∧ default [] (fBuffer c' !! bid) = retQ
      ∧ fBufferLength c' !! bid = Some 0
      ∧ fBufferSize c' !! bid = Some 0
      ∧ fDataRate c' = fDataRate c
      ∧ (retQ = [] →
         counts_agree bid c' ∧ GetData_queue [] bid c' = (0, [], c'))
      ∧ ∀ other, other ≠ bid →
          fBuffer c' !! other = fBuffer c !! other
          ∧ fBufferLength c' !! other = fBufferLength c !! other
          ∧ fBufferSize c' !! other = fBufferSize c !! other.
Proof.
  intros Hagree Hsmall queue.
  pose proof (counts_agree_length bid c Hagree Hsmall) as Hlen.
  destruct Hagree as [_ Hbytes]. cbn zeta in Hbytes.
  fold queue in Hlen, Hbytes, Hsmall.
  unfold GetData_queue. fold queue. rewrite Hlen, Hbytes.
  destruct (decide (queue = [])) as [->|Hne]; [reflexivity|].
  destruct queue as [|front rest] eqn:Hq; [congruence|].
  cbn [length] in *.
  destruct (Z.of_nat (S (length rest)) =? 0) eqn:Hz; [apply Z.eqb_eq in Hz; lia|].
  cbn [Nat.eqb].
  eexists. split; [reflexivity|].
  cbn [fBuffer fBufferLength fBufferSize fDataRate].
  rewrite !lookup_insert_eq. repeat split.
  - subst retQ. unfold counts_agree. cbn zeta.
    cbn [fBuffer fBufferLength fBufferSize]. rewrite !lookup_insert_eq.
    split; reflexivity.
  - subst retQ. unfold GetData_queue.
    cbn [fBuffer fBufferLength fBufferSize]. rewrite !lookup_insert_eq.
    reflexivity.
  - apply lookup_insert_ne. congruence.
  - apply lookup_insert_ne. congruence.
  - apply lookup_insert_ne. congruence.
Qed.

(** A board with two packets queued: both are handed over, in order, with
    their twelve bytes. *)
Lemma GetData_queue_takes_all_witness :
  let older := {| data_packet.buff := [1]; data_packet.size := 4;
                  data_packet.clock_counter := 0;
                  data_packet.header_time := 0; data_packet.bid := 0 |} in
  let newer := {| data_packet.buff := [2; 3]; data_packet.size := 8;
                  data_packet.clock_counter := 0;
                  data_packet.header_time := 0; data_packet.bid := 0 |} in
  let c := ReadData_store newer 7
             (ReadData_store older 7
                {| fBuffer := ∅; fBufferLength := ∅; fBufferSize := ∅;
                   fDataRate := 0 |}) in
  ∃ c', GetData_queue [] 7 c
        = (12, [stored_as 7 older; stored_as 7 newer], c')
    ∧ default [] (fBuffer c' !! 7) = []
    ∧ GetData_queue [] 7 c' = (0, [], c').
Proof.
  intros older newer c.
  assert (counts_agree 7 c) as H1 by (vm_compute; split; reflexivity).
  assert (Z.of_nat (length (default [] (fBuffer c !! 7))) < 2 ^ 31) as H2
    by (vm_compute; reflexivity).
  pose proof (GetData_queue_takes_all [] 7 c H1 H2) as H.
  cbn zeta in H.
  change (default [] (fBuffer c !! 7))
    with [stored_as 7 older; stored_as 7 newer] in H.
  destruct (decide _) as [Hnil|_] in H; [discriminate Hnil|].
  destruct H as (c' & Hrun & Hrest & _ & _ & _ & Hagain & _).
  exists c'. split; [exact Hrun|]. split; [exact Hrest|].
  exact (proj2 (Hagain eq_refl)).
Defined.

Lemma fDataRate_stored (packets : list (data_packet.t * Z)) :
  ∀ (c : ReadoutBuffer) (rate : Z),
    fDataRate c = to_signed 32 rate →
    fDataRate (foldl (λ c p, ReadData_store p.1 p.2 c) c packets)
    = to_signed 32
        (rate + foldr Z.add 0
                  (filter (λ n, 0 < n) ((λ p, data_packet.size p.1)
                                        <$> packets))).
Proof.
  induction packets as [|[dp bid] packets IH]; intros c rate Hrate.
  - cbn. rewrite Hrate. f_equal. lia.
  - cbn [foldl fmap list_fmap fst snd].
    change (list_fmap _ _ ?g ?l) with (g <$> l).
    rewrite filter_cons. unfold ReadData_store at 2.
    destruct (0 <? data_packet.size dp) eqn:Hsize.
    + rewrite decide_True by lia.
      rewrite (IH _ (rate + data_packet.size dp)).
      * cbn [foldr]. f_equal. lia.
      * cbn [fDataRate]. rewrite Hrate. apply to_signed_add_l. lia.
    + rewrite decide_False by lia. apply IH. exact Hrate.
Qed.

(** X8.  [GetDataSize] returns the bytes read since it was last called and
    starts the count again from zero, leaving the queues alone: after any
    packets the read loop has stored since, it returns the sum, as an
    [int], of the sizes of those that were queued, the ones of positive
    size. *)
Theorem GetDataSize_since_last_call (c : ReadoutBuffer)
    (packets : list (data_packet.t * Z)) :
  let c0 := (GetDataSize c).2 in
  let c1 := foldl (λ c p, ReadData_store p.1 p.2 c) c0 packets in
  (GetDataSize c).1 = fDataRate c
  ∧ fDataRate c0 = 0
  ∧ (fBuffer c0, fBufferLength c0, fBufferSize c0)
    = (fBuffer c, fBufferLength c, fBufferSize c)
  ∧ (GetDataSize c1).1
    = to_signed 32
        (foldr Z.add 0
           (filter (λ n, 0 < n) ((λ p, data_packet.size p.1) <$> packets)))
  ∧ (GetDataSize (GetDataSize c1).2).1 = 0.
Proof.
  intros c0 c1. repeat split.
  unfold GetDataSize at 1. cbn [fst]. subst c1.
  rewrite (fDataRate_stored packets c0 0) by reflexivity.
  f_equal.
Qed.

(** X9.  The clearing that [ReadData] does before its loop empties a
    board's queue and the count of bytes read but leaves the board's packet
    count and byte count as they were: for a board whose counts agreed with
    its queue, of fewer than [2^31] packets, they agree afterwards only
    when the queue was empty before.  After a queue that held packets was
    cleared, [GetData] for one packet finds nothing, and the first
    [GetData] for a queue after the next packet returns the bytes of the
    cleared packets along with that packet's. *)
Theorem ReadData_clear_keeps_counts (bid : Z) (c : ReadoutBuffer) :
  counts_agree bid c →
  Z.of_nat (length (default [] (fBuffer c !! bid))) < 2 ^ 31 →
  let queue := default [] (fBuffer c !! bid) in
  let c' := ReadData_clear bid c in
  default [] (fBuffer c' !! bid) = []
  ∧ fBufferLength c' = fBufferLength c
  ∧ fBufferSize c' = fBufferSize c
  ∧ (counts_agree bid c' ↔ queue = [])
  ∧ (queue ≠ [] →
     fDataRate c' = 0
     ∧ (∀ dp, GetData_packet dp bid c' = (0, dp, c'))
     ∧ ∀ dp, 0 < data_packet.size dp →
         ∃ c'',
           GetData_queue [] bid (ReadData_store dp bid c')
           = (to_signed 32 (foldr Z.add 0 (data_packet.size <$> queue)
                            + data_packet.size dp),
              [stored_as bid dp], c'')).
Proof.
  intros Hagree Hsmall queue c'.
  pose proof (counts_agree_length bid c Hagree Hsmall) as Hlen.
  destruct Hagree as [_ Hbytes]. cbn zeta in Hbytes.
  fold queue in Hlen, Hbytes, Hsmall. subst c'. unfold ReadData_clear.
  fold queue.
  destruct queue as [|front rest] eqn:Hq.
  - cbn [length Nat.eqb negb]. fold queue. rewrite Hq.
    split; [reflexivity|]. split; [reflexivity|]. split; [reflexivity|].
    split; [|congruence].
    split; [reflexivity|]. intros _. unfold counts_agree. cbn zeta.
    fold queue. rewrite Hq, Hlen, Hbytes. split; reflexivity.
  - cbn [length Nat.eqb negb fBuffer fBufferLength fBufferSize fDataRate].
    rewrite lookup_insert_eq. cbn [default from_option id].
    split; [reflexivity|]. split; [reflexivity|]. split; [reflexivity|].
    split.
    + unfold counts_agree. cbn zeta.
      cbn [fBuffer fBufferLength fBufferSize]. rewrite lookup_insert_eq.
      cbn [default from_option id length]. rewrite Hlen.
      split; [|discriminate]. intros [Hzero _]. exfalso.
      cbn [length] in Hzero. change (to_signed 32 (Z.of_nat 0)) with 0 in Hzero.
      lia.
    + intros _. split; [reflexivity|]. split.
      * intros dp. unfold GetData_packet.
        cbn [fBuffer fBufferLength fBufferSize]. rewrite lookup_insert_eq.
        cbn [default from_option id].
        destruct (_ =? 0); reflexivity.
      * intros dp Hdp. unfold ReadData_store.
        destruct (0 <? data_packet.size dp) eqn:Hpos; [|exfalso; lia].
        cbn [data_packet.bid data_packet.size fBuffer fBufferLength
             fBufferSize fDataRate].
        rewrite !lookup_insert_eq. cbn [default from_option id app].
        unfold GetData_queue.
        cbn [fBuffer fBufferLength fBufferSize fDataRate].
        rewrite !lookup_insert_eq. cbn [default from_option id length Nat.eqb].
        rewrite Hlen, Hbytes. cbn [length] in Hsmall |- *.
        rewrite (to_signed_add_l 32) by lia.
        destruct (to_signed 32 (Z.of_nat (S (length rest)) + 1) =? 0) eqn:Hz.
        -- exfalso. apply Z.eqb_eq in Hz. unfold to_signed in Hz.
           change (2 ^ (32 - 1)) with 2147483648 in Hz.
           change (2 ^ 32) with 4294967296 in Hz.
           change (2 ^ 31) with 2147483648 in Hsmall.
           pose proof (Z.div_mod (Z.of_nat (S (length rest)) + 1 + 2147483648)
                         4294967296 ltac:(lia)) as Hdm.
           pose proof (Z.mod_pos_bound
                         (Z.of_nat (S (length rest)) + 1 + 2147483648)
                         4294967296 ltac:(lia)) as Hm.
           lia.
        -- eexists. reflexivity.
Qed.

(** A board with one packet of four bytes queued, cleared, and then given a
    packet of eight bytes: twelve bytes are reported with the one packet. *)
Lemma ReadData_clear_keeps_counts_witness :
  let older := {| data_packet.buff := [1]; data_packet.size := 4;
                  data_packet.clock_counter := 0;
                  data_packet.header_time := 0; data_packet.bid := 0 |} in
  let newer := {| data_packet.buff := [2; 3]; data_packet.size := 8;
                  data_packet.clock_counter := 0;
                  data_packet.header_time := 0; data_packet.bid := 0 |} in
  let c := ReadData_store older 7
             {| fBuffer := ∅; fBufferLength := ∅; fBufferSize := ∅;
                fDataRate := 0 |} in
  ¬ counts_agree 7 (ReadData_clear 7 c)
  ∧ ∃ c'', GetData_queue [] 7 (ReadData_store newer 7 (ReadData_clear 7 c))
           = (12, [stored_as 7 newer], c'').
Proof.
  intros older newer c.
  assert (counts_agree 7 c) as H1 by (vm_compute; split; reflexivity).
  assert (Z.of_nat (length (default [] (fBuffer c !! 7))) < 2 ^ 31) as H2
    by (vm_compute; reflexivity).
  destruct (ReadData_clear_keeps_counts 7 c H1 H2)
    as (_ & _ & _ & Hiff & Hafter).
  split.
  - intros Hagree. apply Hiff in Hagree. discriminate Hagree.
  - destruct Hafter as (_ & _ & Hnext); [discriminate|].
    exact (Hnext newer ltac:(reflexivity)).
Defined.

(** ** What a call changes in the formatter *)

Lemma fragment_loop_emits (fuel : nat) (p : Pulse) :
  ∀ (frag_i : Z) (st st' : StraxFormatter),
    fragment_loop fuel p frag_i st = Ok st' →
    ∃ frags, st' = emit frags st.
Proof.
  induction fuel as [|fuel IH]; intros frag_i st st' Hrun; [discriminate|].
  cbn [fragment_loop] in Hrun.
  destruct (frag_i <? num_frags p).
  - apply bind_Ok in Hrun as (f & _ & Hrun).
    apply IH in Hrun as (frags & ->).
    exists (f :: frags).
    change (set_fTempBuffer _ _) with (emit [f] st).
    rewrite emit_emit. reflexivity.
  - injection Hrun as <-. exists []. symmetry. apply emit_nil.
Qed.

Lemma AddFragmentToBuffer_size (fragment : list Z) (ts : Z)
    (s s' : StraxFormatter) :
  AddFragmentToBuffer fragment ts s = Ok s' →
  fFullChunkLength s ≠ 0
  ∧ fFragmentSize s' = fFragmentSize s + Z.of_nat (length fragment)
  ∧ fErrorBit s' = fErrorBit s.
Proof.
  unfold AddFragmentToBuffer.
  destruct (fFullChunkLength s =? 0) eqn:Hz; [discriminate|].
  destruct (negb _); intros H; injection H as <-; (split; [lia|]);
    split; reflexivity.
Qed.

Lemma GenerateArtificialDeadtime_state (ts bid : Z) (s s' : StraxFormatter) :
  GenerateArtificialDeadtime ts bid s = Ok s' →
  settings s' = settings s
  ∧ event_state s' = event_state s
  ∧ fTempBuffer s' = fTempBuffer s
  ∧ fFragmentsProcessed s' = fFragmentsProcessed s
  ∧ fDataPerChan s' = fDataPerChan s.
Proof.
  unfold GenerateArtificialDeadtime. intros Hrun.
  destruct (AddFragmentToBuffer_settings _ _ _ _ Hrun) as [Hset Htemp].
  destruct (AddFragmentToBuffer_size _ _ _ _ Hrun) as (Hfull & _ & Herr).
  destruct (AddFragmentToBuffer_Ok (deadtime_fragment s ts bid) ts s Hfull)
    as (s2 & Hrun2 & _ & Hd & Hp & He & Hf & Hc & _).
  rewrite Hrun in Hrun2. injection Hrun2 as <-.
  unfold event_state. rewrite He, Herr, Hf, Hc. auto.
Qed.

Section channel_state.
Context (fuel : nat) (buff : list Z)
        (words_in_event bid channel header_time event_time clock_counter
           channel_mask : Z)
        (s : StraxFormatter).

(** Every way [ProcessChannel] can end, with the formatter it leaves. *)
Lemma ProcessChannel_state (r : completion) (s' : StraxFormatter) :
  let fmt := default ∅ (fFmt s !! bid) in
  let first := to_unsigned 32 (at_key fmt "channel_header_words") in
  let label := channel_label s bid channel in
  ProcessChannel fuel buff words_in_event bid channel header_time event_time
    clock_counter channel_mask s = Ok (r, s') →
  (r = Return (-1) ∧ s' = s
   ∧ channel_head fmt buff words_in_event header_time event_time
       clock_counter channel_mask = Ok None)
  ∨ (∃ h, r = Return (-1)
       ∧ channel_head fmt buff words_in_event header_time event_time
           clock_counter channel_mask = Ok (Some h)
       ∧ GenerateArtificialDeadtime (Time64_of fmt h) (to_signed 16 bid) s
         = Ok s')
  ∨ (r = Throw ∧ s' = s ∧ label = -1)
  ∨ (∃ h p frags,
       channel_head fmt buff words_in_event header_time event_time
         clock_counter channel_mask = Ok (Some h)
       ∧ caen_scan buff first (Z.to_nat (channel_words h - first)) = Ok false
       ∧ label ≠ -1
       ∧ pulse_of s fmt buff h label = Ok p
       ∧ fragment_loop fuel p 0 s = Ok (emit frags s)
       ∧ r = Return (to_signed 32 (channel_words h))
       ∧ s' = set_fDataPerChan
                (<[label := to_signed 32
                     (default 0 (fDataPerChan s !! label)
                      + to_unsigned 32 (Z.shiftl (samples_in_pulse p) 1))]>
                   (fDataPerChan s)) (emit frags s)).
Proof.
  intros fmt first label Hrun.
  destruct (ProcessChannel_cases _ _ _ _ _ _ _ _ _ _ _ _ Hrun)
    as [(Hhead & -> & ->)|[(h & Hhead & _ & -> & Hdead)
        |[(h & _ & _ & Hl & -> & ->)
        |(h & p & s1 & Hhead & Hscan & Hl & Hp & Hloop & _)]]].
  - left. auto.
  - right. left. exists h. auto.
  - right. right. left. auto.
  - right. right. right.
    rewrite (ProcessChannel_decoded _ _ _ _ _ _ _ _ _ _ h Hhead Hscan Hl)
      in Hrun.
    rewrite Hp in Hrun. cbn [mbind result_bind] in Hrun.
    rewrite Hloop in Hrun. cbn [mbind result_bind] in Hrun.
    injection Hrun as <- <-.
    destruct (fragment_loop_emits _ _ _ _ _ Hloop) as (frags & ->).
    exists h, p, frags. repeat split; assumption.
Qed.

Lemma ProcessChannel_event_state (r : completion) (s' : StraxFormatter) :
  ProcessChannel fuel buff words_in_event bid channel header_time event_time
    clock_counter channel_mask s = Ok (r, s') →
  event_state s' = event_state s
  ∧ ∃ frags,
      fTempBuffer s' = fTempBuffer s ++ frags
      ∧ fFragmentsProcessed s'
        = fFragmentsProcessed s + Z.of_nat (length frags).
Proof.
  intros Hrun.
  destruct (ProcessChannel_state r s' Hrun)
    as [(_ & -> & _)|[(h & _ & _ & Hdead)|[(_ & -> & _)
        |(h & p & frags & _ & _ & _ & _ & _ & _ & ->)]]].
  - split; [reflexivity|]. exists []. rewrite app_nil_r. cbn. split; [auto|lia].
  - apply GenerateArtificialDeadtime_state in Hdead
      as (_ & Hev & Htemp & Hproc & _).
    split; [exact Hev|]. exists []. rewrite app_nil_r. cbn. split; [auto|lia].
  - split; [reflexivity|]. exists []. rewrite app_nil_r. cbn. split; [auto|lia].
  - split; [reflexivity|]. exists frags. split; reflexivity.
Qed.
End channel_state.

Lemma channel_loop_event_state (fuel : nat) (event : list Z)
    (words_in_event bid header_time event_time clock_counter channel_mask : Z)
    (channels : list Z) :
  ∀ (idx : Z) (s : StraxFormatter) (r : completion) (s' : StraxFormatter),
    channel_loop fuel event words_in_event bid header_time event_time
      clock_counter channel_mask channels idx s = Ok (r, s') →
    event_state s' = event_state s
    ∧ settings s' = settings s
    ∧ ∃ frags,
        fTempBuffer s' = fTempBuffer s ++ frags
        ∧ fFragmentsProcessed s'
          = fFragmentsProcessed s + Z.of_nat (length frags).
Proof.
  induction channels as [|ch channels IH]; intros idx s r s' Hrun.
  - injection Hrun as <- <-. split; [reflexivity|]. split; [reflexivity|].
    exists []. rewrite app_nil_r. cbn. split; [auto|lia].
  - cbn [channel_loop] in Hrun.
    destruct (Z.land channel_mask (Z.shiftl 1 ch) =? 0); [eauto|].
    apply bind_Ok in Hrun as ([r1 s1] & Hchannel & Hrun).
    pose proof (ProcessChannel_settings _ _ _ _ _ _ _ _ _ _ _ _ Hchannel)
      as Hset.
    apply ProcessChannel_event_state in Hchannel
      as (Hev & frags & Htemp & Hproc).
    destruct r1 as [ret|].
    + destruct (ret =? -1).
      * injection Hrun as <- <-. eauto.
      * apply IH in Hrun as (Hev2 & Hset2 & frags2 & Htemp2 & Hproc2).
        split; [congruence|]. split; [congruence|].
        exists (frags ++ frags2). rewrite Htemp2, Htemp, Hproc2, Hproc.
        rewrite app_assoc, length_app. split; [reflexivity|lia].
    + injection Hrun as <- <-. eauto.
Qed.

(** X10.  Every call of [ProcessEvent] that ends, with a value or with the
    exception, has counted the event once and counted one fragment for
    every fragment it put into [fTempBuffer], behind those that were there;
    it changes none of the settings and never sets the error bit that
    [CheckError] reports.  The board is flagged for an error check and its
    fail count raised by one exactly when the board-fail bit of the second
    header word is set. *)
Theorem ProcessEvent_counts (fuel : nat) (buff : list Z)
    (total_words clock_counter header_time bid : Z)
    (s : StraxFormatter) (r : completion) (s' : StraxFormatter) :
  ProcessEvent fuel buff total_words clock_counter header_time bid s
  = Ok (r, s') →
  fEventsProcessed s' = fEventsProcessed s + 1
  ∧ (∃ frags,
       fTempBuffer s' = fTempBuffer s ++ frags
       ∧ fFragmentsProcessed s'
         = fFragmentsProcessed s + Z.of_nat (length frags))
  ∧ settings s' = settings s
  ∧ fErrorBit s' = fErrorBit s
  ∧ (CheckError s').1 = (CheckError s).1
  ∧ ∃ b1, read buff 1 = Ok b1
      ∧ if Z.land b1 0x4000000 =? 0
        then fFailCounter s' = fFailCounter s
             ∧ fDataSource s' = fDataSource s
        else fFailCounter s'
             = <[bid := default 0 (fFailCounter s !! bid) + 1]>
                 (fFailCounter s)
             ∧ fDataSource s' = DAQController_CheckError bid (fDataSource s)
             ∧ r = Return 4.
Proof.
  intros Hrun. unfold ProcessEvent in Hrun.
  apply bind_Ok in Hrun as (b0 & _ & Hrun).
  apply bind_Ok in Hrun as (b1 & Hb1 & Hrun).
  apply bind_Ok in Hrun as (mask & _ & Hrun).
  apply bind_Ok in Hrun as (b3 & _ & Hrun).
  destruct (Z.land b1 67108864 =? 0) eqn:Hbit; cbn [negb] in Hrun.
  - apply channel_loop_event_state in Hrun
      as (Hev & Hset & frags & Htemp & Hproc).
    unfold event_state in Hev. cbn in Hev. injection Hev as He Hb Hf Hd.
    split; [exact He|]. split; [exists frags; auto|].
    split; [exact Hset|]. split; [exact Hb|].
    split; [unfold CheckError; cbn; exact Hb|].
    exists b1. rewrite Hbit. auto.
  - apply bind_Ok in Hrun as (s1 & Hdead & Hrun).
    injection Hrun as <- <-.
    apply GenerateArtificialDeadtime_state in Hdead
      as (Hset & Hev & Htemp & Hproc & _).
    unfold event_state in Hev. cbn in Hev, Htemp, Hproc, Hset.
    injection Hev as He Hb Hf Hd.
    cbn. rewrite Hf, Hd.
    split; [exact He|].
    split; [exists []; rewrite app_nil_r; cbn; split; [auto|lia]|].
    split; [exact Hset|]. split; [exact Hb|]. split; [exact Hb|].
    exists b1. rewrite Hbit. auto.
Qed.

(** Scenario 1, whose two channels give four fragments with a payload of
    eight bytes. *)
Lemma ProcessEvent_counts_witness :
  let s := scenario_formatter 8 {[ 0 := default_firmware ]} in
  ∃ s', ProcessEvent 3 scenario1_event 12 0 0x1000 0 s = Ok (Return 12, s')
    ∧ fEventsProcessed s' = 1
    ∧ fFragmentsProcessed s' = 4
    ∧ fErrorBit s' = false.
Proof.
  intros s.
  assert (∃ s', ProcessEvent 3 scenario1_event 12 0 0x1000 0 s
                = Ok (Return 12, s') ∧ length (fTempBuffer s') = 4%nat)
    as (s' & Hrun & Hfour)
    by (vm_compute; eexists; split; reflexivity).
  destruct (ProcessEvent_counts _ _ _ _ _ _ _ _ _ Hrun)
    as (He & (frags & Htemp & Hproc) & _ & Hb & _).
  exists s'. split; [exact Hrun|]. split; [exact He|]. split; [|exact Hb].
  rewrite Hproc. rewrite Htemp in Hfour.
  change (fTempBuffer s) with (@nil (list Z)) in Hfour.
  cbn [app] in Hfour. rewrite Hfour. reflexivity.
Defined.

(** ** The chunk buffers over an event *)

Lemma deadtime_added_settings (bid : Z) (s0 s s' : StraxFormatter) :
  settings s0 = settings s →
  fFragments s0 = fFragments s →
  fFragmentSize s0 = fFragmentSize s →
  deadtime_added bid s0 s' → deadtime_added bid s s'.
Proof.
  unfold settings. intros Hset Hfrag Hsize (ts & Hlen & Hkeys).
  injection Hset as H1 H2 H3 H4 H5 H6 _ _.
  exists ts. cbn zeta in *.
  assert (deadtime_fragment s0 ts (to_signed 16 bid)
          = deadtime_fragment s ts (to_signed 16 bid)) as Hf
    by (unfold deadtime_fragment; rewrite H5, H6; reflexivity).
  assert (chunk_keys s0 ts = chunk_keys s ts) as Hk.
  { unfold chunk_keys, nextpre_of, chunk_id_of, GetStringFormat.
    rewrite H2, H3, H4. reflexivity. }
  rewrite Hf, Hk, Hfrag, Hsize in *. auto.
Qed.

Lemma GenerateArtificialDeadtime_added (ts bid : Z) (s s' : StraxFormatter) :
  GenerateArtificialDeadtime ts (to_signed 16 bid) s = Ok s' →
  deadtime_added bid s s'.
Proof.
  unfold GenerateArtificialDeadtime. intros Hrun.
  destruct (AddFragmentToBuffer_size _ _ _ _ Hrun) as (Hfull & Hsize & _).
  destruct (AddFragmentToBuffer_keys s
              (deadtime_fragment s ts (to_signed 16 bid)) ts Hfull)
    as (s2 & Hrun2 & _ & Hkeys).
  rewrite Hrun in Hrun2. injection Hrun2 as <-.
  exists ts. cbn zeta. auto.
Qed.

Lemma channel_loop_deadtime (fuel : nat) (event : list Z)
    (words_in_event bid header_time event_time clock_counter channel_mask : Z)
    (channels : list Z) :
  ∀ (idx : Z) (s : StraxFormatter) (r : completion) (s' : StraxFormatter),
    channel_loop fuel event words_in_event bid header_time event_time
      clock_counter channel_mask channels idx s = Ok (r, s') →
    (fFragments s' = fFragments s ∧ fFragmentSize s' = fFragmentSize s)
    ∨ deadtime_added bid s s'.
Proof.
  induction channels as [|ch channels IH]; intros idx s r s' Hrun.
  - injection Hrun as <- <-. left. auto.
  - cbn [channel_loop] in Hrun.
    destruct (Z.land channel_mask (Z.shiftl 1 ch) =? 0); [eauto|].
    apply bind_Ok in Hrun as ([r1 s1] & Hchannel & Hrun).
    pose proof (ProcessChannel_settings _ _ _ _ _ _ _ _ _ _ _ _ Hchannel)
      as Hset.
    destruct (ProcessChannel_state _ _ _ _ _ _ _ _ _ _ _ _ Hchannel)
      as [(-> & -> & _)|[(h & -> & _ & Hdead)|[(-> & -> & _)
          |(h & p & frags & _ & _ & _ & _ & _ & -> & Hs1)]]].
    + injection Hrun as <- <-. left. auto.
    + injection Hrun as <- <-. right.
      exact (GenerateArtificialDeadtime_added _ _ _ _ Hdead).
    + injection Hrun as <- <-. left. auto.
    + assert (fFragments s1 = fFragments s
              ∧ fFragmentSize s1 = fFragmentSize s) as [Hfr Hsz]
        by (rewrite Hs1; split; reflexivity).
      destruct (_ =? -1).
      * injection Hrun as <- <-. left. auto.
      * apply IH in Hrun as [[Hfr2 Hsz2]|Hadded].
        -- left. split; congruence.
        -- right. exact (deadtime_added_settings _ _ _ _ Hset Hfr Hsz Hadded).
Qed.

Lemma ProcessEvent_deadtime (fuel : nat) (buff : list Z)
    (total_words clock_counter header_time bid : Z)
    (s : StraxFormatter) (r : completion) (s' : StraxFormatter) :
  ProcessEvent fuel buff total_words clock_counter header_time bid s
  = Ok (r, s') →
  settings s' = settings s
  ∧ ((fFragments s' = fFragments s ∧ fFragmentSize s' = fFragmentSize s)
     ∨ deadtime_added bid s s').
Proof.
  intros Hrun. unfold ProcessEvent in Hrun.
  apply bind_Ok in Hrun as (b0 & _ & Hrun).
  apply bind_Ok in Hrun as (b1 & Hb1 & Hrun).
  apply bind_Ok in Hrun as (mask & _ & Hrun).
  apply bind_Ok in Hrun as (b3 & _ & Hrun).
  destruct (negb (Z.land b1 67108864 =? 0)).
  - apply bind_Ok in Hrun as (s1 & Hdead & Hrun).
    injection Hrun as <- <-.
    split; [exact (proj1 (GenerateArtificialDeadtime_state _ _ _ _ Hdead))|].
    right. apply GenerateArtificialDeadtime_added in Hdead.
    exact (deadtime_added_settings bid _ s _ eq_refl eq_refl eq_refl Hdead).
  - split; [exact (proj1 (proj2 (channel_loop_event_state _ _ _ _ _ _ _ _ _
                                   _ _ _ _ Hrun)))|].
    apply channel_loop_deadtime in Hrun as [Hsame|Hadded].
    + left. exact Hsame.
    + right.
      exact (deadtime_added_settings bid _ s _ eq_refl eq_refl eq_refl
               Hadded).
Qed.

(** X11.  A call of [ProcessEvent] that ends hands at most one fragment to
    the chunk buffers: either the buffers and their size are as before, or
    they hold one artificial-deadtime fragment of the event's board more,
    appended under the one or two keys of its timestamp, and the size has
    grown by the length of that one fragment, which is counted once also
    when it is stored twice. *)
Theorem ProcessEvent_one_deadtime (fuel : nat) (buff : list Z)
    (total_words clock_counter header_time bid : Z)
    (s : StraxFormatter) (r : completion) (s' : StraxFormatter) :
  ProcessEvent fuel buff total_words clock_counter header_time bid s
  = Ok (r, s') →
  (fFragments s' = fFragments s ∧ fFragmentSize s' = fFragmentSize s)
  ∨ ∃ timestamp,
      let f := deadtime_fragment s timestamp (to_signed 16 bid) in
      GetBufferSize s' = GetBufferSize s + Z.of_nat (length f)
      ∧ (length (chunk_keys s timestamp) = 1 ∨ length (chunk_keys s timestamp) = 2)%nat
      ∧ ∀ k, fFragments s' !! k
             = if decide (k ∈ chunk_keys s timestamp)
               then Some (default [] (fFragments s !! k) ++ f)
               else fFragments s !! k.
Proof.
  intros Hrun.
  destruct (ProcessEvent_deadtime _ _ _ _ _ _ _ _ _ Hrun)
    as [_ [Hsame|(ts & Hsize & Hkeys)]].
  - left. exact Hsame.
  - right. exists ts. cbn zeta in *. split; [exact Hsize|].
    split; [|exact Hkeys].
    unfold chunk_keys. destruct (nextpre_of s ts); cbn; auto.
Qed.

(** Scenario 3: the failing board gives one fragment of 244 bytes. *)
Lemma ProcessEvent_one_deadtime_witness :
  let s := scenario_formatter 220 {[ 0 := default_firmware ]} in
  ∃ s', ProcessEvent 1 scenario3_event 4 7 0x2000 0 s = Ok (Return 4, s')
    ∧ (GetBufferSize s' = 0 ∨ GetBufferSize s' = 244).
Proof.
  intros s.
  assert (∃ s', ProcessEvent 1 scenario3_event 4 7 0x2000 0 s
                = Ok (Return 4, s')) as (s' & Hrun)
    by (vm_compute; eexists; reflexivity).
  exists s'. split; [exact Hrun|].
  destruct (ProcessEvent_one_deadtime _ _ _ _ _ _ _ _ _ Hrun)
    as [[_ Hsame]|(ts & Hsize & _)].
  - left. exact Hsame.
  - right. cbn zeta in Hsize. rewrite Hsize.
    rewrite (length_deadtime_fragment s ts (to_signed 16 0) eq_refl)
      by (vm_compute; split; [discriminate|reflexivity]).
    reflexivity.
Defined.

(** X12.  With a payload size of at least two bytes, within the range of
    an [int], chunk buffers that hold whole fragments of
    [payload_bytes + 24] bytes hold whole fragments after every call of
    [ProcessEvent] that ends, and the size of the buffers has not changed
    or has grown by the [payload_bytes + 24] bytes of one fragment. *)
Theorem ProcessEvent_whole_fragments (fuel : nat) (buff : list Z)
    (total_words clock_counter header_time bid : Z)
    (s : StraxFormatter) (r : completion) (s' : StraxFormatter) :
  fStraxHeaderSize s = 24 →
  2 ≤ fFragmentBytes s < 2 ^ 31 - 24 →
  (∀ k bytes, fFragments s !! k = Some bytes →
              (fFragmentBytes s + 24 | Z.of_nat (length bytes))) →
  ProcessEvent fuel buff total_words clock_counter header_time bid s
  = Ok (r, s') →
  (∀ k bytes, fFragments s' !! k = Some bytes →
              (fFragmentBytes s' + 24 | Z.of_nat (length bytes)))
  ∧ (GetBufferSize s' = GetBufferSize s
     ∨ GetBufferSize s' = GetBufferSize s + fFragmentBytes s + 24).
Proof.
  intros Hhs Hfb Hwhole Hrun.
  destruct (ProcessEvent_deadtime _ _ _ _ _ _ _ _ _ Hrun) as [Hset Hcases].
  assert (fFragmentBytes s' = fFragmentBytes s) as Hsame_fb
    by (unfold settings in Hset; injection Hset as _ _ _ _ H _ _ _; exact H).
  rewrite Hsame_fb.
  destruct Hcases as [[Hfr Hsz]|(ts & Hsize & Hkeys)].
  - split; [|left; exact Hsz]. rewrite Hfr. exact Hwhole.
  - cbn zeta in Hsize, Hkeys.
    pose proof (length_deadtime_fragment s ts (to_signed 16 bid) Hhs Hfb)
      as Hlen.
    split; [|right; unfold GetBufferSize; lia].
    intros k bytes Hk. rewrite Hkeys in Hk.
    destruct (decide (k ∈ chunk_keys s ts)); [|eauto].
    injection Hk as <-. rewrite length_app, Nat2Z.inj_add, Hlen.
    apply Z.divide_add_r; [|apply Z.divide_refl].
    destruct (fFragments s !! k) as [old|] eqn:Hold; cbn.
    + eauto.
    + apply Z.divide_0_r.
Qed.

(** Scenario 3 from empty chunk buffers: the buffers then hold 244 bytes
    under every key that they have. *)
Lemma ProcessEvent_whole_fragments_witness :
  let s := scenario_formatter 220 {[ 0 := default_firmware ]} in
  ∃ s', ProcessEvent 1 scenario3_event 4 7 0x2000 0 s = Ok (Return 4, s')
    ∧ ∀ k bytes, fFragments s' !! k = Some bytes →
                 (244 | Z.of_nat (length bytes)).
Proof.
  intros s.
  assert (∃ s', ProcessEvent 1 scenario3_event 4 7 0x2000 0 s
                = Ok (Return 4, s')) as (s' & Hrun)
    by (vm_compute; eexists; reflexivity).
  exists s'. split; [exact Hrun|].
  assert (fStraxHeaderSize s = 24) as H1 by reflexivity.
  assert (2 ≤ fFragmentBytes s < 2 ^ 31 - 24) as H2
    by (vm_compute; split; [discriminate|reflexivity]).
  assert (∀ k bytes, fFragments s !! k = Some bytes →
                     (fFragmentBytes s + 24 | Z.of_nat (length bytes))) as H3
    by (intros k bytes Hk; discriminate Hk).
  destruct (ProcessEvent_whole_fragments _ _ _ _ _ _ _ _ _ H1 H2 H3 Hrun)
    as [Hwhole _].
  assert (fFragmentBytes s' = 220) as Hfb.
  { assert (Ok (Return 4, s')
            = ProcessEvent 1 scenario3_event 4 7 0x2000 0 s) as Hval
      by (symmetry; exact Hrun).
    vm_compute in Hval. injection Hval as ->. reflexivity. }
  rewrite Hfb in Hwhole. exact Hwhole.
Defined.

(** ** Division by zero *)

Lemma bind_Err {A B : Type} (r : result A) (f : A → result B) (e : error) :
  r ≫= f = Err e → r = Err e ∨ ∃ a, r = Ok a ∧ f a = Err e.
Proof.
  destruct r as [a|e']; [eauto|]. intros H. left.
  cbn in H. injection H as ->. reflexivity.
Qed.

Lemma read_Err (buff : list Z) (i : Z) (e : error) :
  read buff i = Err e → e = OutOfBounds.
Proof.
  unfold read. destruct (i <? 0); [congruence|].
  destruct (buff !! Z.to_nat i); congruence.
Qed.

Lemma land_bit (m ch : Z) :
  0 ≤ ch → Z.land m (Z.shiftl 1 ch) ≠ 0 ↔ Z.testbit m ch = true.
Proof.
  intros Hch. rewrite Z.shiftl_1_l. split.
  - intros Hne. destruct (Z.testbit m ch) eqn:Hbit; [reflexivity|].
    exfalso. apply Hne. apply Z.bits_inj'. intros n Hn.
    rewrite Z.land_spec, Z.bits_0, Z.pow2_bits_eqb by lia.
    destruct (ch =? n) eqn:Heq; [|apply andb_false_r].
    apply Z.eqb_eq in Heq. subst n. rewrite Hbit. reflexivity.
  - intros Hbit Hzero.
    assert (Z.testbit (Z.land m (2 ^ ch)) ch = true) as Hone
      by (rewrite Z.land_spec, Hbit, Z.pow2_bits_true by lia; reflexivity).
    rewrite Hzero, Z.bits_0 in Hone. discriminate Hone.
Qed.

Lemma popcount16_set (m ch : Z) :
  0 ≤ ch < 16 → Z.land m (Z.shiftl 1 ch) ≠ 0 → 0 < popcount16 m.
Proof.
  intros Hch Hbit. apply land_bit in Hbit; [|lia]. unfold popcount16.
  assert (Z.to_nat ch ∈ filter (λ i, Z.testbit m (Z.of_nat i) = true)
                          (seq 0 16)) as Hin.
  { apply list_elem_of_filter. split.
    - rewrite Z2Nat.id by lia. exact Hbit.
    - apply elem_of_seq. lia. }
  destruct (filter _ _) as [|x l]; [inversion Hin|]. cbn [length]. lia.
Qed.

Lemma channel_head_Err (fmt : gmap string Z) (buff : list Z)
    (words_in_event header_time event_time clock_counter channel_mask : Z)
    (e : error) :
  0 < popcount16 channel_mask →
  channel_head fmt buff words_in_event header_time event_time clock_counter
    channel_mask = Err e →
  e = OutOfBounds.
Proof.
  intros Hpop H. unfold channel_head in H.
  destruct (popcount16 channel_mask =? 0) eqn:Hz; [lia|].
  destruct (0 <? at_key fmt "channel_header_words"); [|discriminate].
  apply bind_Err in H as [H|(b0 & _ & H)]; [exact (read_Err _ _ _ H)|].
  destruct (_ <? _) in H; [discriminate|].
  destruct (_ <=? _) in H; [discriminate|].
  apply bind_Err in H as [H|(b1 & _ & H)]; [exact (read_Err _ _ _ H)|].
  apply bind_Err in H as [H|([msb bl] & _ & H)].
  - destruct (_ =? 2) in H; [|discriminate].
    apply bind_Err in H as [H|(b2 & _ & H)]; [exact (read_Err _ _ _ H)|].
    discriminate.
  - destruct (_ <=? 2) in H; discriminate.
Qed.

Lemma caen_scan_Err (buff : list Z) (n : nat) :
  ∀ (w : Z) (e : error), caen_scan buff w n = Err e → e = OutOfBounds.
Proof.
  induction n as [|n IH]; intros w e H; [discriminate|].
  cbn [caen_scan] in H.
  apply bind_Err in H as [H|(x & _ & H)]; [exact (read_Err _ _ _ H)|].
  destruct (_ =? 10) in H; [discriminate|]. exact (IH _ _ H).
Qed.

Lemma fragment_loop_Err (fuel : nat) (p : Pulse) :
  ∀ (frag_i : Z) (st : StraxFormatter) (e : error),
    fragment_loop fuel p frag_i st = Err e → e ≠ DivisionByZero.
Proof.
  induction fuel as [|fuel IH]; intros frag_i st e H.
  - injection H as <-. discriminate.
  - cbn [fragment_loop] in H.
    destruct (frag_i <? num_frags p); [|discriminate].
    apply bind_Err in H as [H|(f & _ & H)]; [|exact (IH _ _ _ H)].
    unfold build_fragment in H.
    apply bind_Err in H as [H|(data & _ & H)]; [|discriminate].
    unfold read_bytes in H. destruct (_ && _) in H; [discriminate|].
    injection H as <-. discriminate.
Qed.

Lemma ProcessChannel_Err (fuel : nat) (buff : list Z)
    (words_in_event bid channel header_time event_time clock_counter
       channel_mask : Z)
    (s : StraxFormatter) (e : error) :
  fFullChunkLength s ≠ 0 →
  2 ≤ fFragmentBytes s < 2 ^ 31 →
  0 < popcount16 channel_mask →
  ProcessChannel fuel buff words_in_event bid channel header_time event_time
    clock_counter channel_mask s = Err e →
  e ≠ DivisionByZero.
Proof.
  intros Hfull Hfb Hpop H. unfold ProcessChannel in H.
  apply bind_Err in H as [H|([h|] & _ & H)];
    [apply channel_head_Err in H; [subst e; discriminate|exact Hpop]
    | |discriminate].
  apply bind_Err in H as [H|(caened & _ & H)];
    [apply caen_scan_Err in H; subst e; discriminate|].
  destruct caened.
  - apply bind_Err in H as [H|(s1 & _ & H)]; [|discriminate].
    unfold GenerateArtificialDeadtime in H.
    destruct (AddFragmentToBuffer_Ok
                (deadtime_fragment s (Time64_of (default ∅ (fFmt s !! bid)) h)
                   (to_signed 16 bid))
                (Time64_of (default ∅ (fFmt s !! bid)) h) s Hfull)
      as (s2 & Hok & _).
    congruence.
  - destruct (_ =? -1) in H; [discriminate|].
    apply bind_Err in H as [H|(p & _ & H)].
    + exfalso. unfold pulse_of in H.
      assert (1 ≤ fFragmentBytes s `div` 2 < 2 ^ 30) as Hhalf.
      { split; [apply Z.div_le_lower_bound; lia
               |apply Z.div_lt_upper_bound; lia]. }
      rewrite Z.shiftr_div_pow2 in H by lia. change (2 ^ 1) with 2 in H.
      rewrite (to_signed_small 32) in H by lia.
      rewrite (to_unsigned_small 32) in H by lia.
      destruct (fFragmentBytes s `div` 2 =? 0) eqn:Hz; [lia|discriminate].
    + apply bind_Err in H as [H|(s1 & _ & H)]; [|discriminate].
      exact (fragment_loop_Err _ _ _ _ _ H).
Qed.

Lemma channel_loop_Err (fuel : nat) (event : list Z)
    (words_in_event bid header_time event_time clock_counter channel_mask : Z)
    (channels : list Z) :
  Forall (λ ch, 0 ≤ ch < 16) channels →
  ∀ (idx : Z) (s : StraxFormatter) (e : error),
    fFullChunkLength s ≠ 0 →
    2 ≤ fFragmentBytes s < 2 ^ 31 →
    channel_loop fuel event words_in_event bid header_time event_time
      clock_counter channel_mask channels idx s = Err e →
    e ≠ DivisionByZero.
Proof.
  induction 1 as [|ch channels Hch _ IH]; intros idx s e Hfull Hfb H;
    [discriminate|].
  cbn [channel_loop] in H.
  destruct (Z.land channel_mask (Z.shiftl 1 ch) =? 0) eqn:Hbit; [eauto|].
  apply bind_Err in H as [H|([r1 s1] & Hchannel & H)].
  - apply ProcessChannel_Err in H; try assumption.
    apply (popcount16_set _ ch); [exact Hch|lia].
  - destruct r1 as [ret|]; [|discriminate].
    destruct (ret =? -1); [discriminate|].
    pose proof (ProcessChannel_settings _ _ _ _ _ _ _ _ _ _ _ _ Hchannel)
      as Hset.
    unfold settings in Hset. injection Hset as _ _ H3 _ H5 _ _ _.
    apply IH in H; [exact H|rewrite H3; exact Hfull|rewrite H5; exact Hfb].
Qed.

(** X13.  With a chunk length that is not zero and a payload size of at
    least two bytes, [ProcessEvent] never divides by zero, whatever the
    event: [ProcessChannel] divides the words of the event by the number of
    channels in the mask only for a channel whose bit is set in the mask,
    the number of samples by the samples of a fragment, which is at least
    one, and the timestamp by the chunk length. *)
Theorem ProcessEvent_never_divides_by_zero (fuel : nat) (buff : list Z)
    (total_words clock_counter header_time bid : Z) (s : StraxFormatter) :
  fFullChunkLength s ≠ 0 →
  2 ≤ fFragmentBytes s < 2 ^ 31 →
  ProcessEvent fuel buff total_words clock_counter header_time bid s
  ≠ Err DivisionByZero.
Proof.
  intros Hfull Hfb H. unfold ProcessEvent in H.
  apply bind_Err in H as [H|(b0 & _ & H)];
    [apply read_Err in H; discriminate|].
  apply bind_Err in H as [H|(b1 & _ & H)];
    [apply read_Err in H; discriminate|].
  apply bind_Err in H as [H|(mask & _ & H)].
  { destruct (_ =? -1) in H; [discriminate|].
    apply bind_Err in H as [H|(b2 & _ & H)];
      [apply read_Err in H; discriminate|discriminate]. }
  apply bind_Err in H as [H|(b3 & _ & H)];
    [apply read_Err in H; discriminate|].
  destruct (negb (Z.land b1 67108864 =? 0)).
  - apply bind_Err in H as [H|(s1 & _ & H)]; [|discriminate].
    unfold GenerateArtificialDeadtime in H.
    match type of H with
    | AddFragmentToBuffer ?f ?ts ?s0 = _ =>
        destruct (AddFragmentToBuffer_Ok f ts s0 Hfull) as (s2 & Hok & _)
    end.
    congruence.
  - apply channel_loop_Err in H; [congruence| |exact Hfull|exact Hfb].
    apply Forall_forall. intros ch Hin.
    apply list_elem_of_fmap in Hin as (i & -> & Hi).
    apply elem_of_seq in Hi. unfold max_channels in Hi. lia.
Qed.

(** Scenario 1 with the default payload size of 220 bytes. *)
Lemma ProcessEvent_never_divides_by_zero_witness :
  ProcessEvent 2 scenario1_event 12 0 0x1000 0
    (scenario_formatter 220 {[ 0 := default_firmware ]})
  ≠ Err DivisionByZero.
Proof.
  apply ProcessEvent_never_divides_by_zero.
  - vm_compute. discriminate.
  - vm_compute. split; [discriminate|reflexivity].
Defined.

(** X14.  With a payload size of zero or one byte a fragment has room for
    no sample, and [ProcessChannel] divides by zero on every channel that it
    would decode: one whose head is accepted, whose payload has no
    event-header mark and whose label is in the channel map. *)
Theorem ProcessChannel_payload_below_two (fuel : nat) (buff : list Z)
    (words_in_event bid channel header_time event_time clock_counter
       channel_mask : Z)
    (s : StraxFormatter) (h : ChannelHead) :
  let fmt := default ∅ (fFmt s !! bid) in
  let first := to_unsigned 32 (at_key fmt "channel_header_words") in
  0 ≤ fFragmentBytes s ≤ 1 →
  channel_head fmt buff words_in_event header_time event_time clock_counter
    channel_mask = Ok (Some h) →
  caen_scan buff first (Z.to_nat (channel_words h - first)) = Ok false →
  channel_label s bid channel ≠ -1 →
  ProcessChannel fuel buff words_in_event bid channel header_time event_time
    clock_counter channel_mask s = Err DivisionByZero.
Proof.
  intros fmt first Hfb Hhead Hscan Hlabel.
  rewrite (ProcessChannel_decoded _ _ _ _ _ _ _ _ _ _ h Hhead Hscan Hlabel).
  fold fmt. unfold pulse_of.
  assert (Z.shiftr (fFragmentBytes s) 1 = 0) as ->.
  { rewrite Z.shiftr_div_pow2 by lia. apply Z.div_small. lia. }
  reflexivity.
Qed.

(** Scenario 1 with a payload size of one byte. *)
Lemma ProcessChannel_payload_below_two_witness :
  ProcessChannel 2 (drop 4 scenario1_event) 12 0 0 0x1000 0x1000 0 3
    (scenario_formatter 1 {[ 0 := default_firmware ]})
  = Err DivisionByZero.
Proof.
  refine (ProcessChannel_payload_below_two 2 (drop 4 scenario1_event) 12 0 0
            0x1000 0x1000 0 3 (scenario_formatter 1 {[ 0 := default_firmware ]})
            {| channel_words := 4; channel_time := 0x1000;
               channel_timeMSB := 0; baseline_ch := 0;
               local_clock_counter := 0 |} _ _ _ _).
  - vm_compute. split; discriminate.
  - vm_compute. reflexivity.
  - vm_compute. reflexivity.
  - vm_compute. discriminate.
Defined.

(** ** The header of an event *)

Lemma read_past_end (buff : list Z) (i : Z) :
  Z.of_nat (length buff) ≤ i → read buff i = Err OutOfBounds.
Proof.
  intros Hi. unfold read. destruct (i <? 0); [reflexivity|].
  rewrite lookup_ge_None_2 by lia. reflexivity.
Qed.

(** X15.  [ProcessEvent] reads the header words of the event before it
    looks at [total_words], and the word with the event time whatever the
    format of the board: called on fewer than four words it reads outside
    the buffer, whatever number [total_words] tells it. *)
Theorem ProcessEvent_reads_four_words (fuel : nat) (buff : list Z)
    (total_words clock_counter header_time bid : Z) (s : StraxFormatter) :
  (length buff < 4)%nat →
  ProcessEvent fuel buff total_words clock_counter header_time bid s
  = Err OutOfBounds.
Proof.
  intros Hshort. unfold ProcessEvent.
  destruct (read buff 0) as [b0|e0] eqn:H0;
    [|apply read_Err in H0; subst; reflexivity].
  cbn [mbind result_bind].
  destruct (read buff 1) as [b1|e1] eqn:H1;
    [|apply read_Err in H1; subst; reflexivity].
  cbn [mbind result_bind].
  rewrite (read_past_end buff 3) by lia.
  destruct (_ =? -1); [reflexivity|].
  destruct (read buff 2) as [b2|e2] eqn:H2;
    [reflexivity|apply read_Err in H2; subst; reflexivity].
Qed.

(** The first three words of scenario 1. *)
Lemma ProcessEvent_reads_four_words_witness :
  ProcessEvent 2 (take 3 scenario1_event) 3 0 0x1000 0
    (scenario_formatter 220 {[ 0 := default_firmware ]})
  = Err OutOfBounds.
Proof.
  apply ProcessEvent_reads_four_words. cbn. lia.
Defined.

(** ** A channel header that cannot be right *)

(** X16.  On a board with channel headers, a channel whose header announces
    more words than the event has, or no more words than the header itself
    takes, is dropped without a trace: [ProcessChannel] returns -1 and
    leaves the formatter as it was, with no artificial-deadtime fragment,
    and [ProcessEvent] ends the event there, with the cursor at that
    channel. *)
Theorem ProcessChannel_drops_bad_header (fuel : nat) (buff : list Z)
    (words_in_event bid channel header_time event_time clock_counter
       channel_mask : Z)
    (s : StraxFormatter) (b0 : Z) :
  let fmt := default ∅ (fFmt s !! bid) in
  let announced := Z.land b0 0x7FFFFF in
  0 < at_key fmt "channel_header_words" →
  0 < popcount16 channel_mask →
  read buff 0 = Ok b0 →
  words_in_event < announced ∨ announced ≤ at_key fmt "channel_header_words" →
  ProcessChannel fuel buff words_in_event bid channel header_time event_time
    clock_counter channel_mask s = Ok (Return (-1), s)
  ∧ ∀ (event : list Z) (idx : Z) (remaining : list Z),
      drop (Z.to_nat idx) event = buff →
      Z.land channel_mask (Z.shiftl 1 channel) ≠ 0 →
      channel_loop fuel event words_in_event bid header_time event_time
        clock_counter channel_mask (channel :: remaining) idx s
      = Ok (Return idx, s).
Proof.
  intros fmt announced Hhw Hpop Hb0 Hbad.
  assert (channel_head fmt buff words_in_event header_time event_time
            clock_counter channel_mask = Ok None) as Hhead.
  { unfold channel_head.
    destruct (popcount16 channel_mask =? 0) eqn:Hz; [lia|].
    destruct (0 <? at_key fmt "channel_header_words") eqn:Hpos; [|lia].
    rewrite Hb0. cbn [mbind result_bind]. fold announced.
    pose proof (land_23_range b0) as Hrange. fold announced in Hrange.
    destruct (announced `min` words_in_event <? announced) eqn:Hgarbled;
      [reflexivity|].
    assert (announced `min` words_in_event = announced) as -> by lia.
    rewrite (to_signed_small 32) by lia.
    destruct (announced <=? at_key fmt "channel_header_words") eqn:Hempty;
      [reflexivity|lia]. }
  assert (ProcessChannel fuel buff words_in_event bid channel header_time
            event_time clock_counter channel_mask s = Ok (Return (-1), s))
    as Hrun by (apply ProcessChannel_refused; exact Hhead).
  split; [exact Hrun|].
  intros event idx remaining Hdrop Hbit. cbn [channel_loop].
  destruct (Z.land channel_mask (Z.shiftl 1 channel) =? 0) eqn:Hb; [lia|].
  rewrite Hdrop, Hrun. reflexivity.
Qed.

(** The channel of scenario 4, of five words, in an event said to have four
    words. *)
Lemma ProcessChannel_drops_bad_header_witness :
  let s := scenario_formatter 220 {[ 0 := dpp_daw_firmware ]} in
  ProcessChannel 1 scenario4_channel 4 0 0 0x10000000 0 5 1 s
  = Ok (Return (-1), s).
Proof.
  intros s.
  refine (proj1 (ProcessChannel_drops_bad_header 1 scenario4_channel 4 0 0
                   0x10000000 0 5 1 s 5 _ _ _ _)).
  - vm_compute. reflexivity.
  - vm_compute. reflexivity.
  - reflexivity.
  - left. vm_compute. reflexivity.
Defined.

(** ** The time of a channel with a long header *)

(** X17.  On a board whose channel header has more than two words, an
    accepted channel takes its time from its own header alone: the low 31
    bits of the second header word and, when the format says that the third
    word holds the high part, the low 16 bits of that word as bits 32 to
    47, with the baseline in bits 16 to 29; otherwise the high part and the
    baseline are zero.  There is no rollover reconciliation: the clock
    counter stays as it was, and the header time, the event time and the
    counter have no part in the result.  Bit 31 of the time is never
    set. *)
Theorem channel_head_long_header (fmt : gmap string Z) (buff : list Z)
    (words_in_event header_time event_time clock_counter channel_mask : Z)
    (h : ChannelHead) :
  2 < at_key fmt "channel_header_words" →
  channel_head fmt buff words_in_event header_time event_time clock_counter
    channel_mask = Ok (Some h) →
  (∃ b1, read buff 1 = Ok b1 ∧ channel_time h = Z.land b1 0x7FFFFFFF)
  ∧ (if at_key fmt "channel_time_msb_idx" =? 2
     then ∃ b2, read buff 2 = Ok b2
            ∧ channel_timeMSB h = Z.shiftl (Z.land b2 0xFFFF) 32
            ∧ baseline_ch h = Z.land (Z.shiftr b2 16) 0x3FFF
     else channel_timeMSB h = 0 ∧ baseline_ch h = 0)
  ∧ local_clock_counter h = clock_counter
  ∧ 0 ≤ channel_timeMSB h + channel_time h < 2 ^ 48
  ∧ Z.testbit (channel_timeMSB h + channel_time h) 31 = false
  ∧ ∀ header_time' event_time' clock_counter',
      ∃ h', channel_head fmt buff words_in_event header_time' event_time'
              clock_counter' channel_mask = Ok (Some h')
        ∧ Time64_of fmt h' = Time64_of fmt h
        ∧ channel_words h' = channel_words h
        ∧ baseline_ch h' = baseline_ch h.
Proof.
  intros Hhw H. unfold channel_head in H |- *.
  destruct (popcount16 channel_mask =? 0); [discriminate|].
  destruct (0 <? at_key fmt "channel_header_words") eqn:Hpos; [|lia].
  apply bind_Ok in H as (b0 & Hb0 & H). rewrite Hb0. cbn [mbind result_bind].
  destruct (_ <? _) in H |- *; [discriminate|].
  destruct (_ <=? _) in H |- *; [discriminate|].
  apply bind_Ok in H as (b1 & Hb1 & H). rewrite Hb1. cbn [mbind result_bind].
  destruct (at_key fmt "channel_header_words" <=? 2) eqn:Hle; [lia|].
  pose proof (land_31_range b1) as H31.
  assert (∀ x, 0 ≤ x < 2 ^ 31 → Z.testbit x 31 = false) as Hbit31.
  { intros x Hx. destruct (decide (x = 0)) as [->|Hnz]; [apply Z.bits_0|].
    apply Z.bits_above_log2; [lia|]. apply Z.log2_lt_pow2; lia. }
  destruct (at_key fmt "channel_time_msb_idx" =? 2) eqn:Hmsb.
  - apply bind_Ok in H as ([msb bl] & Hread2 & H).
    apply bind_Ok in Hread2 as (b2 & Hb2 & Hpair).
    injection Hpair as <- <-. injection H as <-. rewrite Hb2.
    cbn [mbind result_bind channel_time channel_timeMSB baseline_ch
         local_clock_counter channel_words].
    assert (0 ≤ Z.land b2 65535 < 2 ^ 16) as H16.
    { change 65535 with (Z.ones 16). rewrite Z.land_ones by lia.
      apply Z.mod_pos_bound. lia. }
    split; [eauto|]. split; [exists b2; auto|]. split; [reflexivity|].
    rewrite Z.shiftl_mul_pow2 by lia.
    split; [lia|]. split.
    + replace 31 with (0 + 31) by lia.
      rewrite <- Z.div_pow2_bits by lia. rewrite Z.bit0_odd.
      replace ((Z.land b2 65535 * 2 ^ 32 + Z.land b1 2147483647) `div` 2 ^ 31)
        with (2 * Z.land b2 65535).
      * apply Z.odd_even.
      * apply Z.div_unique with (r := Z.land b1 2147483647); lia.
    + intros ht' et' cc'. eexists. split; [reflexivity|].
      repeat split.
  - injection H as <-.
    cbn [mbind result_bind channel_time channel_timeMSB baseline_ch
         local_clock_counter channel_words].
    split; [eauto|]. split; [auto|]. split; [reflexivity|].
    split; [lia|]. split; [rewrite Z.add_0_l; apply Hbit31; lia|].
    intros ht' et' cc'. eexists. split; [reflexivity|]. repeat split.
Qed.

(** A channel of four words behind a header of three: channel time
    [0x12345678], high part [0x0042] and baseline [0x1abc]. *)
Lemma channel_head_long_header_witness :
  let fmt : gmap string Z :=
    {[ "channel_header_words" := 3; "channel_time_msb_idx" := 2 ]} in
  ∃ h, channel_head fmt [0x00000004; 0x92345678; 0x1abc0042; 0x00010002] 8
         0x70000000 0 5 1 = Ok (Some h)
    ∧ channel_timeMSB h + channel_time h = 0x004212345678
    ∧ baseline_ch h = 0x1abc
    ∧ local_clock_counter h = 5.
Proof.
  intros fmt.
  assert (∃ h, channel_head fmt
                 [0x00000004; 0x92345678; 0x1abc0042; 0x00010002] 8
                 0x70000000 0 5 1 = Ok (Some h)
               ∧ channel_timeMSB h + channel_time h = 0x004212345678
               ∧ baseline_ch h = 0x1abc) as (h & Hhead & Htime & Hbase)
    by (vm_compute; eexists; repeat split).
  exists h. split; [exact Hhead|]. split; [exact Htime|].
  split; [exact Hbase|].
  assert (2 < at_key fmt "channel_header_words") as Hhw
    by (vm_compute; reflexivity).
  destruct (channel_head_long_header fmt _ _ _ _ _ _ h Hhw Hhead)
    as (_ & _ & Hcc & _).
  exact Hcc.
Defined.

(** ** A decoded channel *)

(** A channel that is decoded and needs at most 65535 fragments: the pulse
    that [ProcessChannel] works on and the formatter it leaves. *)
Lemma ProcessChannel_decodes (fuel : nat) (buff : list Z)
    (words_in_event bid channel header_time event_time clock_counter
       channel_mask : Z)
    (s : StraxFormatter) (h : ChannelHead) :
  let fmt := default ∅ (fFmt s !! bid) in
  let header_words := at_key fmt "channel_header_words" in
  let first := to_unsigned 32 header_words in
  let label := channel_label s bid channel in
  let pulse_samples :=
    to_unsigned 32 (Z.shiftl (channel_words h - header_words) 1) in
  let per_fragment := fFragmentBytes s `div` 2 in
  let fragments :=
    (pulse_samples + per_fragment - 1) `div` per_fragment in
  fStraxHeaderSize s = 24 →
  2 ≤ fFragmentBytes s < 2 ^ 31 - 25 →
  0 ≤ header_words →
  channel_head fmt buff words_in_event header_time event_time clock_counter
    channel_mask = Ok (Some h) →
  caen_scan buff first (Z.to_nat (channel_words h - first)) = Ok false →
  label ≠ -1 →
  fragments ≤ 65535 →
  (Z.to_nat fragments < fuel)%nat →
  ∃ p,
    pulse_of s fmt buff h label = Ok p
    ∧ samples_in_pulse p = pulse_samples
    ∧ fragment_samples p = per_fragment
    ∧ num_frags p = fragments
    ∧ 0 ≤ fragments
    ∧ 2 * samples_in_pulse p ≤ Z.of_nat (length (payload p))
    ∧ ProcessChannel fuel buff words_in_event bid channel header_time
        event_time clock_counter channel_mask s
      = Ok (Return (to_signed 32 (channel_words h)),
            set_fDataPerChan
              (<[label := to_signed 32
                   (default 0 (fDataPerChan s !! label)
                    + to_unsigned 32 (Z.shiftl pulse_samples 1))]>
                 (fDataPerChan s))
              (emit (fragment_of s p <$> seqZ 0 fragments) s)).
Proof.
  intros fmt header_words first label pulse_samples fragment_samples_
    num_frags_ Hhs Hfb Hhw Hhead Hscan Hlabel Hmax Hfuel.
  destruct (pulse_of_Ok s fmt buff h label Hfb) as [p Hp].
  destruct (pulse_of_fields s fmt buff h _ p Hfb Hp)
    as (Hpay & _ & HS & _ & Hfs & _ & _ & _).
  fold header_words in Hpay, HS. fold pulse_samples in HS.
  fold fragment_samples_ in Hfs.
  pose proof (fragment_samples_range s fmt buff h _ p Hfb Hp) as Hfsr.
  pose proof (samples_in_pulse_range s fmt buff h _ p Hfb Hp) as HSr.
  pose proof (ceil_bounds s fmt buff h _ p Hfb Hp) as (Hn0 & Hlo & Hhi).
  cbn zeta in Hn0, Hlo, Hhi.
  pose proof (num_frags_ceil s fmt buff h _ p Hfb Hp) as Hnum.
  rewrite HS, Hfs in Hn0, Hlo, Hhi, Hnum.
  fold num_frags_ in Hn0, Hlo, Hhi, Hnum.
  rewrite HS in HSr. rewrite Hfs in Hfsr.
  rewrite (to_signed_small 32) in Hnum by lia.
  pose proof (channel_head_words fmt buff _ _ _ _ _ h Hhw Hhead) as Hwords.
  fold header_words in Hwords.
  assert (2 * samples_in_pulse p ≤ Z.of_nat (length (payload p))) as Hfit.
  { rewrite HS, Hpay. apply pulse_in_buffer; [lia|lia|exact Hscan]. }
  assert (fragment_loop fuel p 0 s
          = Ok (emit (fragment_of s p <$> seqZ 0 num_frags_) s)) as Hloop.
  { replace (seqZ 0 num_frags_)
      with (seqZ 0 (Z.of_nat (Z.to_nat num_frags_))) by (f_equal; lia).
    eapply fragment_loop_run; try eassumption; try reflexivity; lia. }
  exists p. split; [exact Hp|]. split; [exact HS|]. split; [exact Hfs|].
  split; [exact Hnum|]. split; [lia|]. split; [exact Hfit|].
  rewrite (ProcessChannel_decoded fuel buff words_in_event bid channel
             header_time event_time clock_counter channel_mask s h
             Hhead Hscan Hlabel).
  fold fmt. fold label. rewrite Hp. cbn [mbind result_bind].
  rewrite Hloop. cbn [mbind result_bind]. rewrite HS. reflexivity.
Qed.

Lemma to_unsigned_add_l (w a b : Z) :
  0 ≤ w → to_unsigned w (to_unsigned w a + b) = to_unsigned w (a + b).
Proof.
  intros Hw. unfold to_unsigned.
  apply Z.add_mod_idemp_l. apply Z.pow_nonzero; lia.
Qed.

Lemma to_unsigned_mul_r (w a b : Z) :
  0 ≤ w → to_unsigned w (a * to_unsigned w b) = to_unsigned w (a * b).
Proof.
  intros Hw. unfold to_unsigned.
  apply Z.mul_mod_idemp_r. apply Z.pow_nonzero; lia.
Qed.

Lemma to_signed_add_unsigned (w a b : Z) :
  0 < w → to_signed w (a + to_unsigned w b) = to_signed w (a + b).
Proof.
  intros Hw. unfold to_signed, to_unsigned. f_equal.
  assert (2 ^ w ≠ 0) by (apply Z.pow_nonzero; lia).
  replace (a + b `mod` 2 ^ w + 2 ^ (w - 1))
    with (b `mod` 2 ^ w + (a + 2 ^ (w - 1))) by lia.
  rewrite Z.add_mod_idemp_l by assumption. f_equal. lia.
Qed.

Lemma channel_head_baseline (fmt : gmap string Z) (buff : list Z)
    (words_in_event header_time event_time clock_counter channel_mask : Z)
    (h : ChannelHead) :
  channel_head fmt buff words_in_event header_time event_time clock_counter
    channel_mask = Ok (Some h) →
  0 ≤ baseline_ch h < 2 ^ 14.
Proof.
  intros H. unfold channel_head in H.
  destruct (popcount16 channel_mask =? 0); [discriminate|].
  destruct (0 <? at_key fmt "channel_header_words").
  - apply bind_Ok in H as (b0 & _ & H).
    destruct (_ <? _) in H; [discriminate|].
    destruct (_ <=? _) in H; [discriminate|].
    apply bind_Ok in H as (b1 & _ & H).
    apply bind_Ok in H as ([msb bl] & Hmsb & H).
    assert (0 ≤ bl < 2 ^ 14) as Hbl.
    { destruct (_ =? 2) in Hmsb.
      - apply bind_Ok in Hmsb as (b2 & _ & Hpair). injection Hpair as _ <-.
        change 16383 with (Z.ones 14). rewrite Z.land_ones by lia.
        apply Z.mod_pos_bound. lia.
      - injection Hmsb as _ <-. lia. }
    destruct (_ <=? 2) in H; injection H as <-; exact Hbl.
  - injection H as <-. cbn. lia.
Qed.

(** ** The headers of the fragments of a channel *)

(** X18.  The fragments of a decoded channel lie one behind the other in
    time: fragment [i] is stamped with the channel's time plus [i] times
    the samples of a full fragment times the sample width, so that every
    fragment but the first begins where the one before it ends, at its time
    plus its length times its sample width; every fragment carries the
    sample width of the board's format, the channel's label and the
    baseline of the channel header.  The product of the samples of a
    fragment, the sample width and the fragment index is computed in an
    [int] and is to be within its range. *)
Theorem fragments_tile_in_time (fuel : nat) (buff : list Z)
    (words_in_event bid channel header_time event_time clock_counter
       channel_mask : Z)
    (s : StraxFormatter) (h : ChannelHead) :
  let fmt := default ∅ (fFmt s !! bid) in
  let header_words := at_key fmt "channel_header_words" in
  let first := to_unsigned 32 header_words in
  let label := channel_label s bid channel in
  let pulse_samples :=
    to_unsigned 32 (Z.shiftl (channel_words h - header_words) 1) in
  let per_fragment := fFragmentBytes s `div` 2 in
  let fragments :=
    (pulse_samples + per_fragment - 1) `div` per_fragment in
  let width := to_unsigned 16 (at_key fmt "ns_per_sample") in
  fStraxHeaderSize s = 24 →
  2 ≤ fFragmentBytes s < 2 ^ 31 - 25 →
  0 ≤ header_words →
  channel_head fmt buff words_in_event header_time event_time clock_counter
    channel_mask = Ok (Some h) →
  caen_scan buff first (Z.to_nat (channel_words h - first)) = Ok false →
  label ≠ -1 →
  fragments ≤ 65535 →
  (Z.to_nat fragments < fuel)%nat →
  per_fragment * width * fragments < 2 ^ 31 →
  ∃ frags s',
    ProcessChannel fuel buff words_in_event bid channel header_time
      event_time clock_counter channel_mask s
    = Ok (Return (to_signed 32 (channel_words h)), s')
    ∧ fTempBuffer s' = fTempBuffer s ++ frags
    ∧ ∀ (i : nat) (f : list Z),
        frags !! i = Some f →
        frag_time f
        = to_unsigned 64
            (Time64_of fmt h + Z.of_nat i * (per_fragment * width))
        ∧ frag_sample_width f = width
        ∧ frag_channel f = to_unsigned 16 label
        ∧ frag_baseline f = baseline_ch h
        ∧ ∀ g, frags !! S i = Some g →
               frag_time g
               = to_unsigned 64
                   (frag_time f + frag_length f * frag_sample_width f).
Proof.
  intros fmt header_words first label pulse_samples per_fragment fragments
    width Hhs Hfb Hhw Hhead Hscan Hlabel Hmax Hfuel _.
  destruct (ProcessChannel_decodes fuel buff words_in_event bid channel
              header_time event_time clock_counter channel_mask s h
              Hhs Hfb Hhw Hhead Hscan Hlabel Hmax Hfuel)
    as (p & Hp & HS & Hfs & Hnum & Hn0 & Hfit & Hrun).
  change (samples_in_pulse p = pulse_samples) in HS.
  change (num_frags p = fragments) in Hnum.
  change (0 ≤ fragments) in Hn0.
  destruct (pulse_of_fields s fmt buff h _ p Hfb Hp)
    as (_ & HT & _ & Hsw & _ & Hcl & Hbl & _).
  fold width in Hsw.
  pose proof (channel_head_baseline _ _ _ _ _ _ _ _ Hhead) as Hbase.
  assert (∀ j, 0 ≤ j < fragments →
            frag_time (fragment_of s p j)
            = to_unsigned 64 (Time64_of fmt h + j * (per_fragment * width))
            ∧ frag_length (fragment_of s p j) = samples_this_fragment p j
            ∧ frag_sample_width (fragment_of s p j) = width
            ∧ frag_channel (fragment_of s p j) = to_unsigned 16 label
            ∧ frag_baseline (fragment_of s p j) = baseline_ch h) as Hfields.
  { intros j Hj.
    assert (0 ≤ j < num_frags p) as Hj' by (rewrite Hnum; exact Hj).
    destruct (fragment_of_fields s fmt buff h _ p Hfb Hp j Hj')
      as (Ht & Hl & Hw & Hc & _ & _ & Hb & _).
    { eapply turn_in_bounds; eassumption. }
    rewrite Ht, Hl, Hw, Hc, Hb, HT, Hfs, Hsw, Hcl, Hbl.
    rewrite (to_unsigned_small 16 (baseline_ch h)) by lia.
    repeat split. f_equal. lia. }
  exists (fragment_of s p <$> seqZ 0 fragments). eexists.
  split; [exact Hrun|]. split; [reflexivity|].
  intros i f Hf. rewrite list_lookup_fmap in Hf.
  destruct (seqZ 0 fragments !! i) as [j|] eqn:Hj; [|discriminate].
  apply lookup_seqZ in Hj as [-> Hi]. injection Hf as <-.
  destruct (Hfields (0 + Z.of_nat i) ltac:(lia)) as (Ht & Hl & Hw & Hc & Hb).
  rewrite Ht, Hw, Hc, Hb, Hl.
  replace (0 + Z.of_nat i) with (Z.of_nat i) in * by lia.
  repeat split.
  intros g Hg. rewrite list_lookup_fmap in Hg.
  destruct (seqZ 0 fragments !! S i) as [j|] eqn:Hj; [|discriminate].
  apply lookup_seqZ in Hj as [-> Hi']. injection Hg as <-.
  destruct (Hfields (0 + Z.of_nat (S i)) ltac:(lia)) as (Ht' & _).
  rewrite Ht'.
  assert (samples_this_fragment p (Z.of_nat i) = per_fragment) as ->.
  { unfold samples_this_fragment. rewrite Hnum, Hfs.
    destruct (Z.of_nat i =? fragments - 1) eqn:Hlast; [lia|].
    apply to_unsigned_small.
    pose proof (fragment_samples_range s fmt buff h _ p Hfb Hp). lia. }
  rewrite to_unsigned_add_l by lia. f_equal. lia.
Qed.

(** Channel 0 of scenario 1 with a payload of 6 bytes and the time factor
    under the name [ProcessChannel] reads: three fragments at 40960, 40990
    and 41020 ns. *)
Lemma fragments_tile_in_time_witness :
  let s := scenario_formatter 6
             {[ 0 := <["ns_per_clk" := 10]> default_firmware ]} in
  ∃ f0 f1 f2 s',
    ProcessChannel 4 (drop 4 scenario1_event) 12 0 0 0x1000 0x1000 0 3 s
    = Ok (Return 4, s')
    ∧ fTempBuffer s' = [f0; f1; f2]
    ∧ frag_time <$> [f0; f1; f2] = [40960; 40990; 41020]
    ∧ frag_time f1
      = to_unsigned 64 (frag_time f0 + frag_length f0 * frag_sample_width f0).
Proof.
  intros s.
  destruct (fragments_tile_in_time 4 (drop 4 scenario1_event)
              12 0 0 0x1000 0x1000 0 3 s
              {| channel_words := 4; channel_time := 0x1000;
                 channel_timeMSB := 0; baseline_ch := 0;
                 local_clock_counter := 0 |})
    as (frags & s' & Hrun & Htemp & Hall).
  - reflexivity.
  - vm_compute. split; [discriminate|reflexivity].
  - vm_compute. discriminate.
  - vm_compute. reflexivity.
  - vm_compute. reflexivity.
  - vm_compute. discriminate.
  - vm_compute. discriminate.
  - vm_compute. lia.
  - vm_compute. reflexivity.
  - assert (Ok (Return 4, s')
            = ProcessChannel 4 (drop 4 scenario1_event) 12 0 0 0x1000 0x1000
                0 3 s) as Hval by (symmetry; exact Hrun).
    vm_compute in Hval. injection Hval as ->.
    change (fTempBuffer s) with (@nil (list Z)) in Htemp.
    cbn [fTempBuffer app] in Htemp. subst frags.
    eexists _, _, _, _. split; [exact Hrun|].
    split; [reflexivity|]. split; [reflexivity|].
    destruct (Hall 0%nat _ eq_refl) as (_ & _ & _ & _ & Hnext).
    exact (Hnext _ eq_refl).
Defined.

(** ** The bytes counted for a channel *)

(** X19.  A call of [ProcessChannel] that ends changes the byte count of
    one channel at most: when it returns -1 or throws, the counts and
    [fTempBuffer] are as before; when it has decoded the channel it has
    added the bytes of the pulse, four for every word behind the channel
    header, to the count of the channel's label, as an [int], which is what
    [GetDataPerChan] of the formatter then adds to the caller's map under
    that label. *)
Theorem ProcessChannel_counts_bytes (fuel : nat) (buff : list Z)
    (words_in_event bid channel header_time event_time clock_counter
       channel_mask : Z)
    (s : StraxFormatter) (r : completion) (s' : StraxFormatter) :
  let fmt := default ∅ (fFmt s !! bid) in
  let header_words := at_key fmt "channel_header_words" in
  let label := channel_label s bid channel in
  ProcessChannel fuel buff words_in_event bid channel header_time event_time
    clock_counter channel_mask s = Ok (r, s') →
  (fDataPerChan s' = fDataPerChan s ∧ fTempBuffer s' = fTempBuffer s
   ∧ (r = Return (-1) ∨ r = Throw))
  ∨ ∃ h,
      channel_head fmt buff words_in_event header_time event_time
        clock_counter channel_mask = Ok (Some h)
      ∧ label ≠ -1
      ∧ r = Return (to_signed 32 (channel_words h))
      ∧ fDataPerChan s'
        = <[label := to_signed 32
              (default 0 (fDataPerChan s !! label)
               + 4 * (channel_words h - header_words))]> (fDataPerChan s)
      ∧ ∀ ret,
          (GetDataPerChan ret {| inserter := s'; fActive := true |}).1
          !! label
          = Some (to_signed 32
                    (default 0 (ret !! label)
                     + default 0 (fDataPerChan s !! label)
                     + 4 * (channel_words h - header_words))).
Proof.
  intros fmt header_words label Hrun.
  destruct (ProcessChannel_state _ _ _ _ _ _ _ _ _ _ _ _ Hrun)
    as [(-> & -> & _)|[(h & -> & _ & Hdead)|[(-> & -> & _)
        |(h & p & frags & Hhead & _ & Hl & Hp & _ & -> & ->)]]].
  - left. auto.
  - left. apply GenerateArtificialDeadtime_state in Hdead
      as (_ & _ & Htemp & _ & Hd). auto.
  - left. auto.
  - right. exists h. fold fmt in Hhead. fold label in Hl.
    split; [exact Hhead|]. split; [exact Hl|]. split; [reflexivity|].
    fold fmt label in Hp.
    assert (samples_in_pulse p
            = to_unsigned 32 (Z.shiftl (channel_words h - header_words) 1))
      as HS.
    { unfold pulse_of in Hp. destruct (_ =? 0) in Hp; [discriminate|].
      injection Hp as <-. reflexivity. }
    assert (to_signed 32
              (default 0 (fDataPerChan s !! label)
               + to_unsigned 32 (Z.shiftl (samples_in_pulse p) 1))
            = to_signed 32
                (default 0 (fDataPerChan s !! label)
                 + 4 * (channel_words h - header_words))) as Hbytes.
    { rewrite HS, !Z.shiftl_mul_pow2 by lia. change (2 ^ 1) with 2.
      rewrite to_signed_add_unsigned by lia.
      rewrite <- (to_signed_add_unsigned 32 _
                    (to_unsigned 32 ((channel_words h - header_words) * 2) * 2))
        by lia.
      rewrite (Z.mul_comm (to_unsigned 32 _) 2).
      rewrite to_unsigned_mul_r by lia.
      rewrite to_signed_add_unsigned by lia. f_equal. lia. }
    cbn [fDataPerChan set_fDataPerChan emit set_fTempBuffer
         set_fFragmentsProcessed].
    fold label. rewrite Hbytes. split; [reflexivity|].
    intros ret. unfold GetDataPerChan. cbn [fActive negb fst inserter].
    rewrite map_fold_add_to. cbn [fDataPerChan set_fDataPerChan].
    rewrite lookup_insert_eq. f_equal.
    rewrite Z.add_comm, to_signed_add_l by lia. f_equal. lia.
Qed.

(** Channel 0 of scenario 1: four words, sixteen bytes under label 0. *)
Lemma ProcessChannel_counts_bytes_witness :
  let s := scenario_formatter 16 {[ 0 := default_firmware ]} in
  ∃ s',
    ProcessChannel 2 (drop 4 scenario1_event) 12 0 0 0x1000 0x1000 0 3 s
    = Ok (Return 4, s')
    ∧ fDataPerChan s' = {[ 0 := 16 ]}.
Proof.
  intros s.
  assert (∃ s', ProcessChannel 2 (drop 4 scenario1_event) 12 0 0 0x1000
                  0x1000 0 3 s = Ok (Return 4, s')) as (s' & Hrun)
    by (vm_compute; eexists; reflexivity).
  exists s'. split; [exact Hrun|].
  destruct (ProcessChannel_counts_bytes _ _ _ _ _ _ _ _ _ _ _ _ Hrun)
    as [(_ & _ & [Hr|Hr])|(h & Hhead & _ & Hr & Hcount & _)];
    try discriminate Hr.
  rewrite Hcount.
  assert (channel_words h = 4) as ->.
  { assert (Ok (Some h)
            = channel_head (default ∅ (fFmt s !! 0)) (drop 4 scenario1_event)
                12 0x1000 0x1000 0 3) as Hval by (symmetry; exact Hhead).
    vm_compute in Hval. injection Hval as ->. reflexivity. }
  vm_compute. reflexivity.
Defined.

(** ** An event of a board without channel headers *)

Lemma caen_scan_total (buff : list Z) (n : nat) :
  ∀ w : Z,
    0 ≤ w → w + Z.of_nat n ≤ Z.of_nat (length buff) →
    ∃ found, caen_scan buff w n = Ok found.
Proof.
  induction n as [|n IH]; intros w Hw Hfit; [eexists; reflexivity|].
  cbn [caen_scan].
  assert (is_Some (buff !! Z.to_nat w)) as [x Hx]
    by (apply lookup_lt_is_Some; lia).
  assert (read buff w = Ok (to_unsigned 32 x)) as ->
    by (apply read_Ok; eauto with lia).
  cbn [mbind result_bind].
  destruct (_ =? 10); [eexists; reflexivity|].
  apply IH; lia.
Qed.

Lemma channels_in_cons (mask ch : Z) (channels : list Z) :
  channels_in mask (ch :: channels)
  = if Z.land mask (Z.shiftl 1 ch) =? 0 then channels_in mask channels
    else ch :: channels_in mask channels.
Proof.
  unfold channels_in. rewrite filter_cons.
  destruct (Z.land mask (Z.shiftl 1 ch) =? 0) eqn:Hbit.
  - rewrite decide_False by lia. reflexivity.
  - rewrite decide_True by lia. reflexivity.
Qed.

Lemma channels_in_popcount16 (mask : Z) :
  Z.of_nat (length (channels_in mask (Z.of_nat <$> seq 0 max_channels)))
  = popcount16 mask.
Proof.
  unfold popcount16, max_channels. f_equal.
  generalize (seq 0 16). intros l.
  induction l as [|i l IH]; [reflexivity|].
  cbn [fmap list_fmap]. change (list_fmap _ _ ?g ?m) with (g <$> m).
  rewrite channels_in_cons, filter_cons.
  pose proof (land_bit mask (Z.of_nat i) ltac:(lia)) as Hbit.
  destruct (Z.land mask (Z.shiftl 1 (Z.of_nat i)) =? 0) eqn:Hz.
  - rewrite decide_False; [exact IH|].
    intros Htrue. apply Hbit in Htrue. lia.
  - rewrite decide_True by (apply Hbit; lia). cbn [length]. rewrite IH.
    reflexivity.
Qed.

Section default_firmware.
Context (fuel : nat) (event : list Z)
        (words_in_event bid header_time event_time clock_counter
           channel_mask : Z)
        (s0 : StraxFormatter).

Let fmt := default ∅ (fFmt s0 !! bid).
Let channels_in_event := popcount16 channel_mask.
Let words := (words_in_event - 4) `div` channels_in_event.
Let per_fragment := fFragmentBytes s0 `div` 2.
Let fragments := (2 * words + per_fragment - 1) `div` per_fragment.

Hypothesis Hdefault : at_key fmt "channel_header_words" = 0.
Hypothesis Hhs : fStraxHeaderSize s0 = 24.
Hypothesis Hfb : 2 ≤ fFragmentBytes s0 < 2 ^ 31 - 25.
Hypothesis Hfull : fFullChunkLength s0 ≠ 0.
Hypothesis Hwords : 4 ≤ words_in_event < 2 ^ 28.
Hypothesis Hmax : fragments ≤ 65535.
Hypothesis Hfuel : (Z.to_nat fragments < fuel)%nat.

Lemma words_range : 0 ≤ words < 2 ^ 28.
Proof.
  subst words. unfold channels_in_event.
  destruct (decide (popcount16 channel_mask = 0)) as [->|Hne].
  - rewrite Z.div_0_r. lia.
  - assert (0 < popcount16 channel_mask) by (unfold popcount16 in *; lia).
    split; [apply Z.div_pos; lia|].
    apply Z.div_lt_upper_bound; [lia|]. nia.
Qed.

Lemma words_cover : channels_in_event * words ≤ words_in_event - 4.
Proof.
  subst words. destruct (decide (channels_in_event = 0)) as [->|Hne].
  - rewrite Z.div_0_r. lia.
  - assert (0 < channels_in_event)
      by (subst channels_in_event; unfold popcount16 in *; lia).
    apply Z.mul_div_le. lia.
Qed.

(** A channel of such an event that lies in the buffer: [ProcessChannel]
    ends, and what it returns is -1 or the number of words of a channel. *)
Lemma ProcessChannel_default_firmware (buff : list Z) (channel : Z)
    (s : StraxFormatter) :
  settings s = settings s0 →
  0 < channels_in_event →
  words ≤ Z.of_nat (length buff) →
  ∃ r s',
    ProcessChannel fuel buff words_in_event bid channel header_time
      event_time clock_counter channel_mask s = Ok (r, s')
    ∧ (r = Return (-1) ∨ r = Throw ∨ r = Return words).
Proof.
  intros Hset Hpop Hfit.
  pose proof words_range as Hrange.
  unfold settings in Hset. injection Hset as _ _ H3 _ H5 H6 _ H8.
  assert (default ∅ (fFmt s !! bid) = fmt) as Hfmt
    by (subst fmt; rewrite H8; reflexivity).
  set (h := {| channel_words := words;
               channel_time := Z.shiftl clock_counter 31 + event_time;
               channel_timeMSB := 0; baseline_ch := 0;
               local_clock_counter := clock_counter |}).
  assert (channel_head (default ∅ (fFmt s !! bid)) buff words_in_event
            header_time event_time clock_counter channel_mask
          = Ok (Some h)) as Hhead.
  { rewrite Hfmt. unfold channel_head. fold channels_in_event.
    destruct (channels_in_event =? 0) eqn:Hz; [lia|].
    rewrite Hdefault. cbn [Z.ltb Z.compare].
    rewrite (to_unsigned_small 32) by lia. reflexivity. }
  assert (to_unsigned 32
            (at_key (default ∅ (fFmt s !! bid)) "channel_header_words") = 0)
    as Hfirst by (rewrite Hfmt, Hdefault; reflexivity).
  destruct (caen_scan_total buff (Z.to_nat (channel_words h - 0)) 0
              ltac:(lia) ltac:(cbn; lia)) as [found Hscan].
  rewrite <- Hfirst in Hscan.
  destruct found.
  - rewrite (ProcessChannel_scanned _ _ _ _ _ _ _ _ _ _ h Hhead Hscan).
    unfold GenerateArtificialDeadtime.
    match goal with
    | |- context [AddFragmentToBuffer ?f ?ts s] =>
        destruct (AddFragmentToBuffer_Ok f ts s ltac:(rewrite H3; exact Hfull))
          as (s1 & -> & _)
    end.
    eexists _, _. split; [reflexivity|auto].
  - destruct (decide (channel_label s bid channel = -1)) as [Hl|Hl].
    + rewrite (ProcessChannel_unmapped _ _ _ _ _ _ _ _ _ _ h Hhead Hscan Hl).
      eexists _, _. split; [reflexivity|auto].
    + assert (to_unsigned 32
                (Z.shiftl
                   (channel_words h
                    - at_key (default ∅ (fFmt s !! bid))
                        "channel_header_words") 1) = 2 * words) as Hsamples.
      { rewrite Hfmt, Hdefault, Z.sub_0_r, Z.shiftl_mul_pow2 by lia.
        cbn [channel_words h]. change (2 ^ 1) with 2.
        rewrite (Z.mul_comm words 2). apply to_unsigned_small. lia. }
      destruct (ProcessChannel_decodes fuel buff words_in_event bid channel
                  header_time event_time clock_counter channel_mask s h)
        as (p & _ & _ & _ & _ & _ & _ & Hrun).
      * rewrite H6. exact Hhs.
      * rewrite H5. exact Hfb.
      * rewrite Hfmt, Hdefault. lia.
      * exact Hhead.
      * exact Hscan.
      * exact Hl.
      * rewrite Hsamples, H5. exact Hmax.
      * rewrite Hsamples, H5. exact Hfuel.
      * rewrite Hrun. eexists _, _. split; [reflexivity|].
        right. right. f_equal. cbn [channel_words h].
        apply to_signed_small; lia.
Qed.

(** The channel loop from a cursor behind [visited] channels, when the
    channels still to come lie in the buffer. *)
Lemma channel_loop_default_firmware (channels : list Z) :
  ∀ (visited : Z) (s : StraxFormatter),
    settings s = settings s0 →
    0 ≤ visited →
    visited + Z.of_nat (length (channels_in channel_mask channels))
    ≤ channels_in_event →
    4 + channels_in_event * words ≤ Z.of_nat (length event) →
    ∃ r s',
      channel_loop fuel event words_in_event bid header_time event_time
        clock_counter channel_mask channels (4 + visited * words) s
      = Ok (r, s')
      ∧ ∀ idx, r = Return idx →
          ∃ n, idx = 4 + n * words ∧ visited ≤ n ≤ channels_in_event.
Proof.
  pose proof words_range as Hrange.
  induction channels as [|ch channels IH];
    intros visited s Hset Hvisited Hleft Hfit.
  - eexists _, _. split; [reflexivity|].
    intros idx Hidx. injection Hidx as <-. exists visited.
    cbn [channels_in filter length] in Hleft. split; [reflexivity|].
    unfold channels_in in Hleft. cbn in Hleft. lia.
  - cbn [channel_loop]. rewrite channels_in_cons in Hleft.
    destruct (Z.land channel_mask (Z.shiftl 1 ch) =? 0) eqn:Hbit.
    + apply IH; assumption.
    + cbn [length] in Hleft.
      assert (0 < channels_in_event) as Hpop by lia.
      destruct (ProcessChannel_default_firmware
                  (drop (Z.to_nat (4 + visited * words)) event) ch s Hset
                  Hpop)
        as (r & s1 & Hrun & Hr).
      { rewrite length_drop. nia. }
      rewrite Hrun. cbn [mbind result_bind].
      pose proof (ProcessChannel_settings _ _ _ _ _ _ _ _ _ _ _ _ Hrun)
        as Hset1.
      destruct Hr as [->|[->| ->]].
      * cbn [Z.eqb]. eexists _, _. split; [reflexivity|].
        intros idx Hidx. injection Hidx as <-. exists visited. lia.
      * eexists _, _. split; [reflexivity|]. intros idx Hidx.
        discriminate Hidx.
      * destruct (words =? -1) eqn:Hminus; [lia|].
        pose proof words_cover as Hcover.
        rewrite (to_unsigned_small 32) by nia.
        replace (4 + visited * words + words)
          with (4 + (visited + 1) * words) by lia.
        destruct (IH (visited + 1) s1) as (r & s' & Hloop & Hidx);
          [congruence|lia|lia|exact Hfit|].
        exists r, s'. split; [exact Hloop|].
        intros idx Hr. destruct (Hidx idx Hr) as (n & -> & Hn).
        exists n. lia.
Qed.
End default_firmware.

(** X20.  On a board without channel headers, an event of at least four
    words that lies in the buffer, whose channels need at most 65535
    fragments each, is worked off without a read outside the buffer: with
    a payload size of at least two bytes and a chunk length that is not
    zero, [ProcessEvent] ends, with the exception for a channel that is not
    in the channel map or with a cursor that is 4 plus a whole number of
    channels, each of [(words_in_event - 4) / channels_in_event] words, and
    that does not pass the end of the event. *)
Theorem ProcessEvent_default_firmware (fuel : nat) (w0 w1 w2 w3 : Z)
    (rest : list Z) (total_words clock_counter header_time bid : Z)
    (s : StraxFormatter) :
  let fmt := default ∅ (fFmt s !! bid) in
  let buff := w0 :: w1 :: w2 :: w3 :: rest in
  let words_in_event :=
    Z.land (to_unsigned 32 w0) 0xFFFFFFF `min` total_words in
  let channel_mask :=
    if at_key fmt "channel_mask_msb_idx" =? -1
    then Z.land (to_unsigned 32 w1) 0xFF
    else Z.lor (Z.land (to_unsigned 32 w1) 0xFF)
           (Z.shiftl (Z.land (Z.shiftr (to_unsigned 32 w2) 24) 0xFF) 8) in
  let channels_in_event := popcount16 channel_mask in
  let words := (words_in_event - 4) `div` channels_in_event in
  let per_fragment := fFragmentBytes s `div` 2 in
  let fragments := (2 * words + per_fragment - 1) `div` per_fragment in
  at_key fmt "channel_header_words" = 0 →
  fStraxHeaderSize s = 24 →
  2 ≤ fFragmentBytes s < 2 ^ 31 - 25 →
  fFullChunkLength s ≠ 0 →
  4 ≤ words_in_event ≤ Z.of_nat (length buff) →
  fragments ≤ 65535 →
  (Z.to_nat fragments < fuel)%nat →
  ∃ r s',
    ProcessEvent fuel buff total_words clock_counter header_time bid s
    = Ok (r, s')
    ∧ ∀ idx, r = Return idx →
        4 ≤ idx ≤ words_in_event
        ∧ ∃ n, idx = 4 + n * words ∧ 0 ≤ n ≤ channels_in_event.
Proof.
  intros fmt buff words_in_event channel_mask channels_in_event words
    per_fragment fragments Hdefault Hhs Hfb Hfull Hwords Hmax Hfuel.
  assert (words_in_event < 2 ^ 28) as Hsmall.
  { subst words_in_event.
    assert (Z.land (to_unsigned 32 w0) 268435455 < 2 ^ 28); [|lia].
    change 268435455 with (Z.ones 28). rewrite Z.land_ones by lia.
    apply Z.mod_pos_bound. lia. }
  assert (0 ≤ words ∧ channels_in_event * words ≤ words_in_event - 4)
    as [Hw0 Hcover].
  { subst words. destruct (decide (channels_in_event = 0)) as [->|Hne].
    - rewrite Z.div_0_r. lia.
    - assert (0 < channels_in_event)
        by (subst channels_in_event; unfold popcount16 in *; lia).
      split; [apply Z.div_pos; lia|].
      apply Z.mul_div_le. lia. }
  unfold ProcessEvent.
  change (read buff 0) with (Ok (to_unsigned 32 w0)).
  change (read buff 1) with (Ok (to_unsigned 32 w1)).
  change (read buff 2) with (Ok (to_unsigned 32 w2)).
  change (read buff 3) with (Ok (to_unsigned 32 w3)).
  cbn [mbind result_bind]. fold fmt. fold words_in_event.
  assert ((if at_key fmt "channel_mask_msb_idx" =? -1
           then Ok (Z.land (to_unsigned 32 w1) 255)
           else Ok (Z.lor (Z.land (to_unsigned 32 w1) 255)
                      (Z.shiftl
                         (Z.land (Z.shiftr (to_unsigned 32 w2) 24) 255) 8)))
          = Ok channel_mask) as Hmask
    by (subst channel_mask; destruct (_ =? -1); reflexivity).
  rewrite Hmask. cbn [mbind result_bind].
  destruct (negb (Z.land (to_unsigned 32 w1) 67108864 =? 0)).
  - unfold GenerateArtificialDeadtime.
    match goal with
    | |- context [AddFragmentToBuffer ?f ?ts ?s1] =>
        destruct (AddFragmentToBuffer_Ok f ts s1 Hfull) as (s2 & -> & _)
    end.
    cbn [mbind result_bind]. eexists _, _. split; [reflexivity|].
    intros idx Hidx. injection Hidx as <-. unfold event_header_words.
    split; [lia|]. exists 0. split; [lia|].
    subst channels_in_event. unfold popcount16. lia.
  - match goal with
    | |- context [channel_loop _ _ _ _ _ ?et _ _ ?chs _ ?s1] =>
        destruct (channel_loop_default_firmware fuel buff words_in_event
                    bid header_time et clock_counter channel_mask s Hdefault
                    Hhs Hfb Hfull ltac:(lia) Hmax Hfuel chs 0 s1)
          as (r & s' & Hrun & Hidx)
    end.
    + reflexivity.
    + lia.
    + rewrite channels_in_popcount16. fold channels_in_event. lia.
    + fold channels_in_event. fold words. lia.
    + change (4 + 0 * _) with 4 in Hrun. unfold event_header_words.
      rewrite Hrun. exists r, s'. split; [reflexivity|].
      intros idx Hr. destruct (Hidx idx Hr) as (n & Hn_idx & Hn).
      change (idx = 4 + n * words) in Hn_idx.
      change (0 ≤ n ≤ channels_in_event) in Hn. subst idx.
      split; [|exists n; split; [reflexivity|exact Hn]]. nia.
Qed.

(** Scenario 1: two channels of four words each, and the cursor at 12. *)
Lemma ProcessEvent_default_firmware_witness :
  ∃ r s',
    ProcessEvent 2 scenario1_event 12 0 0x1000 0
      (scenario_formatter 16 {[ 0 := default_firmware ]}) = Ok (r, s')
    ∧ ∀ idx, r = Return idx → 4 ≤ idx ≤ 12.
Proof.
  destruct (ProcessEvent_default_firmware 2 0xA0000010 0x00000003 0x00000000
              0x00001000
              [0x11112222; 0x33334444; 0x55556666; 0x77778888;
               0x9999AAAA; 0xBBBBCCCC; 0xDDDDEEEE; 0xFFFF0000]
              12 0 0x1000 0
              (scenario_formatter 16 {[ 0 := default_firmware ]}))
    as (r & s' & Hrun & Hidx).
  - vm_compute. reflexivity.
  - reflexivity.
  - vm_compute. split; [discriminate|reflexivity].
  - vm_compute. discriminate.
  - vm_compute. split; discriminate.
  - vm_compute. discriminate.
  - vm_compute. lia.
  - exists r, s'. split; [exact Hrun|].
    intros idx Hr. exact (proj1 (Hidx idx Hr)).
Defined.

(** ** The bytes in the chunk buffers *)

Lemma stored_bytes_insert (k : string) (bytes : list Z)
    (m : gmap string (list Z)) :
  m !! k = None →
  stored_bytes (<[k := bytes]> m) = stored_bytes m + Z.of_nat (length bytes).
Proof.
  intros Hk. unfold stored_bytes.
  rewrite map_fold_insert_L; [reflexivity| |exact Hk].
  intros j1 j2 z1 z2 y _ _ _. lia.
Qed.

Lemma stored_bytes_append_to (k : string) (fragment : list Z)
    (m : gmap string (list Z)) :
  stored_bytes (append_to k fragment m)
  = stored_bytes m + Z.of_nat (length fragment).
Proof.
  unfold append_to. destruct (m !! k) as [old|] eqn:Hk.
  - rewrite <- (insert_delete_id m k old Hk) at 2.
    rewrite <- (insert_delete_eq m).
    rewrite !stored_bytes_insert by apply lookup_delete_eq.
    cbn [default from_option id]. rewrite length_app. lia.
  - rewrite stored_bytes_insert by exact Hk. reflexivity.
Qed.

(** X21.  [AddFragmentToBuffer] only appends: every chunk keeps the bytes
    it had, in front of what it gets.  The fragment is stored under one key
    or under two, so the chunk buffers grow by its length or by twice its
    length, while the size that [GetBufferSize] reports grows by its length
    once: a reported size that lay between half the bytes stored and all of
    them still does. *)
Theorem AddFragmentToBuffer_stores_once_or_twice (fragment : list Z)
    (timestamp : Z) (s : StraxFormatter) :
  fFullChunkLength s ≠ 0 →
  ∃ s',
    AddFragmentToBuffer fragment timestamp s = Ok s'
    ∧ GetBufferSize s' = GetBufferSize s + Z.of_nat (length fragment)
    ∧ stored_bytes (fFragments s')
      = stored_bytes (fFragments s)
        + (if nextpre_of s timestamp then 2 else 1)
          * Z.of_nat (length fragment)
    ∧ (∀ k old, fFragments s !! k = Some old →
         ∃ new, fFragments s' !! k = Some (old ++ new))
    ∧ (GetBufferSize s ≤ stored_bytes (fFragments s) ≤ 2 * GetBufferSize s →
       GetBufferSize s' ≤ stored_bytes (fFragments s')
       ≤ 2 * GetBufferSize s').
Proof.
  intros Hfull.
  destruct (AddFragmentToBuffer_keys s fragment timestamp Hfull)
    as (s' & Hrun & _ & Hkeys).
  exists s'. split; [exact Hrun|].
  destruct (AddFragmentToBuffer_size _ _ _ _ Hrun) as (_ & Hsize & _).
  split; [exact Hsize|].
  assert (stored_bytes (fFragments s')
          = stored_bytes (fFragments s)
            + (if nextpre_of s timestamp then 2 else 1)
              * Z.of_nat (length fragment)) as Hstored.
  { unfold AddFragmentToBuffer in Hrun.
    destruct (fFullChunkLength s =? 0); [discriminate|].
    destruct (nextpre_of s timestamp); cbn [negb] in Hrun;
      injection Hrun as <-; cbn [fFragments set_fFragments set_fFragmentSize];
      rewrite !stored_bytes_append_to; lia. }
  split; [exact Hstored|]. split.
  - intros k old Hold. rewrite Hkeys, Hold.
    destruct (decide (k ∈ chunk_keys s timestamp)).
    + exists fragment. reflexivity.
    + exists []. rewrite app_nil_r. reflexivity.
  - intros Hbetween. unfold GetBufferSize in *. rewrite Hstored, Hsize.
    destruct (nextpre_of s timestamp); lia.
Qed.

(** Scenario 5: three bytes stamped 950 ns are stored twice and counted
    once. *)
Lemma AddFragmentToBuffer_stores_once_or_twice_witness :
  ∃ s',
    AddFragmentToBuffer [1; 2; 3] 950 scenario5_formatter = Ok s'
    ∧ GetBufferSize s' = 3
    ∧ stored_bytes (fFragments s') = 6.
Proof.
  assert (fFullChunkLength scenario5_formatter ≠ 0) as Hfull
    by (vm_compute; discriminate).
  destruct (AddFragmentToBuffer_stores_once_or_twice [1; 2; 3] 950
              scenario5_formatter Hfull)
    as (s' & Hrun & Hsize & Hstored & _).
  exists s'. split; [exact Hrun|]. split; [exact Hsize|].
  rewrite Hstored. vm_compute. reflexivity.
Defined.

(** ** The error check of a failing board *)

(** X22.  An event with the board-fail bit leaves the board flagged in the
    controller, so that the next turn of the read loop for that board
    clears the flag and calls the board's [CheckErrors]; the turn after it
    finds the flag cleared and makes no call.  The turns for other boards
    neither use the flag up nor are changed by it. *)
Theorem board_fail_is_checked_once (fuel : nat) (buff : list Z)
    (total_words clock_counter header_time bid : Z)
    (s : StraxFormatter) (r : completion) (s' : StraxFormatter) (b1 : Z) :
  read buff 1 = Ok b1 →
  Z.land b1 0x4000000 ≠ 0 →
  ProcessEvent fuel buff total_words clock_counter header_time bid s
  = Ok (r, s') →
  let c := fDataSource s' in
  c = DAQController_CheckError bid (fDataSource s)
  ∧ (ReadData_check bid c).1 = true
  ∧ fCheckFails (ReadData_check bid c).2 !! bid = Some false
  ∧ (ReadData_check bid (ReadData_check bid c).2).1 = false
  ∧ ∀ other, other ≠ bid →
      (ReadData_check other c).1 = (ReadData_check other (fDataSource s)).1
      ∧ (ReadData_check bid (ReadData_check other c).2).1 = true.
Proof.
  intros Hb1 Hbit Hrun c.
  assert (c = DAQController_CheckError bid (fDataSource s)) as Hc.
  { subst c. unfold ProcessEvent in Hrun.
    apply bind_Ok in Hrun as (b0 & _ & Hrun). rewrite Hb1 in Hrun.
    cbn [mbind result_bind] in Hrun.
    apply bind_Ok in Hrun as (mask & _ & Hrun).
    apply bind_Ok in Hrun as (b3 & _ & Hrun).
    destruct (Z.land b1 67108864 =? 0) eqn:Hz; [lia|]. cbn [negb] in Hrun.
    apply bind_Ok in Hrun as (s1 & Hdead & Hrun).
    injection Hrun as _ <-.
    apply GenerateArtificialDeadtime_state in Hdead as (_ & Hev & _).
    unfold event_state in Hev. cbn in Hev. injection Hev as _ _ _ Hd.
    cbn. rewrite Hd. reflexivity. }
  split; [exact Hc|]. rewrite Hc. clear Hc c Hrun.
  unfold ReadData_check, DAQController_CheckError.
  cbn [fCheckFails DataFormatDefinition].
  rewrite lookup_insert_eq. cbn [default from_option id fst snd fCheckFails].
  rewrite !lookup_insert_eq. cbn [default from_option id fst snd].
  repeat split.
  - rewrite lookup_insert_ne by congruence.
    destruct (default false (fCheckFails (fDataSource s) !! other));
      reflexivity.
  - rewrite lookup_insert_ne by congruence.
    destruct (default false (fCheckFails (fDataSource s) !! other));
      cbn [snd fCheckFails].
    + rewrite lookup_insert_ne by congruence. rewrite lookup_insert_eq.
      reflexivity.
    + rewrite lookup_insert_eq. reflexivity.
Qed.

(** Scenario 3: board 0 fails, is checked by the next turn and not by the
    one after it. *)
Lemma board_fail_is_checked_once_witness :
  let s := scenario_formatter 220 {[ 0 := default_firmware ]} in
  ∃ s', ProcessEvent 1 scenario3_event 4 7 0x2000 0 s = Ok (Return 4, s')
    ∧ (ReadData_check 0 (fDataSource s')).1 = true
    ∧ (ReadData_check 0 (ReadData_check 0 (fDataSource s')).2).1 = false.
Proof.
  intros s.
  assert (∃ s', ProcessEvent 1 scenario3_event 4 7 0x2000 0 s
                = Ok (Return 4, s')) as (s' & Hrun)
    by (vm_compute; eexists; reflexivity).
  assert (read scenario3_event 1 = Ok 0x04000000) as H1 by reflexivity.
  assert (Z.land 0x04000000 0x4000000 ≠ 0) as H2 by (vm_compute; discriminate).
  destruct (board_fail_is_checked_once _ _ _ _ _ _ _ _ _ _ H1 H2 Hrun)
    as (_ & Hfirst & _ & Hsecond & _).
  exists s'. auto.
Defined.
